(** * The yfinance ingestion engine (scripts/ingest/02_fetch_yfinance_data.py)

    A shallow embedding of the resumable batch fetcher: the persisted
    status document, the per-ticker fetch/classify/transform step and the
    batch loop of [main], together with the effects they have on the two
    durable stores (the status file and the per-ticker output files).

    Conventions of the embedding.
    - A Python [dict] is an association list in insertion order with the
      keys used by [d[k]], [d.get(k)], [d[k] = v] and iteration.
    - A provider number is a Python [int], of any size, or a Python
      [float], an IEEE 754 binary64 value with its signed zeros,
      infinities and NaN ([SpecFloat]).  Arithmetic is Python's: exact
      on two ints, rounded to the nearest float otherwise, an int
      operand being converted first, which raises [OverflowError] when
      it is too large.
    - Everything the script reads from the outside world (the provider,
      the clock, whether an output file can be opened) is a field of the
      environment record [env].
    - A crash can happen between any two events of a run; what survives
      it is the disk, rebuilt by [replay] from the events that happened.
    - Console output ([print]), the creation of the output directory and
      the pause between batches are not modelled: they change neither the
      status store nor the output records. *)

From Stdlib Require Import ZArith QArith Qround List String Ascii Bool Lia.
From Stdlib Require Import DecimalString Lqa SpecFloat.
Import ListNotations.

Open Scope string_scope.

(** ** Python values shared by the modules below *)

(** A call that may raise: [Raise msg] carries [str(e)]. *)
Inductive result (A : Type) : Type :=
| Ok (a : A)
| Raise (msg : string).
Arguments Ok {A} a.
Arguments Raise {A} msg.

(** ** Python numbers *)

(** The precision and the exponent bound of a Python [float] (IEEE 754
    binary64). *)
Definition float_prec : Z := 53.
Definition float_emax : Z := 1024.

(** A Python number: an [int], of any size, or a [float]. *)
Inductive number : Type :=
| PyInt (z : Z)
| PyFloat (f : spec_float).

(** The value of a finite float. *)
Definition float_value (f : spec_float) : Q :=
  match f with
  | S754_finite s m e =>
      let v := (inject_Z (Zpos m) * Qpower 2 e)%Q in
      Qred (if s then - v else v)
  | _ => 0
  end.

(** The float nearest to a rational, ties to the even one; an infinity
    past the largest float.  The quotient is cut after 55 bits or more and
    the rest is kept as one more bit, which the rounding to 53 bits
    cannot tell from the rational itself. *)
Definition nearest_float (q : Q) : spec_float :=
  let a := Z.abs (Qnum q) in
  let d := Zpos (Qden q) in
  let k := (Z.log2 d - Z.log2 a + 56)%Z in
  let num := if (0 <=? k)%Z then (a * 2 ^ k)%Z else a in
  let den := if (0 <=? k)%Z then d else (d * 2 ^ (- k))%Z in
  let m := (num / den)%Z in
  let sticky := if (num mod den =? 0)%Z then 0%Z else 1%Z in
  let mantissa := (2 * m + sticky)%Z in
  binary_normalize float_prec float_emax
    (if (Qnum q <? 0)%Z then (- mantissa)%Z else mantissa) (- k - 1) false.

(** [float(z)] *)
Definition float_of_int (z : Z) : result spec_float :=
  match binary_normalize float_prec float_emax z 0 false with
  | S754_infinity _ => Raise "int too large to convert to float"
  | f => Ok f
  end.

(** The operand of a float operation. *)
Definition to_float (x : number) : result spec_float :=
  match x with
  | PyInt z => float_of_int z
  | PyFloat f => Ok f
  end.

(** [x - y] *)
Definition py_sub (x y : number) : result number :=
  match x, y with
  | PyInt a, PyInt b => Ok (PyInt (a - b))
  | _, _ =>
      match to_float x with
      | Raise e => Raise e
      | Ok a =>
          match to_float y with
          | Raise e => Raise e
          | Ok b => Ok (PyFloat (SFsub float_prec float_emax a b))
          end
      end
  end.

(** [x * y] *)
Definition py_mul (x y : number) : result number :=
  match x, y with
  | PyInt a, PyInt b => Ok (PyInt (a * b))
  | _, _ =>
      match to_float x with
      | Raise e => Raise e
      | Ok a =>
          match to_float y with
          | Raise e => Raise e
          | Ok b => Ok (PyFloat (SFmul float_prec float_emax a b))
          end
      end
  end.

(** [x / d] for an [int] [d]: the quotient of two ints is rounded once. *)
Definition py_truediv (x : number) (d : Z) : result number :=
  match x with
  | PyInt a =>
      if (d =? 0)%Z then Raise "division by zero"
      else
        match nearest_float (inject_Z a / inject_Z d) with
        | S754_infinity _ => Raise "integer division result too large for a float"
        | f => Ok (PyFloat f)
        end
  | PyFloat f =>
      match float_of_int d with
      | Raise e => Raise e
      | Ok g =>
          if (d =? 0)%Z then Raise "float division by zero"
          else Ok (PyFloat (SFdiv float_prec float_emax f g))
      end
  end.

(** Round to the nearest integer, ties to the even one. *)
Definition round_half_even (q : Q) : Z :=
  let f := Qfloor q in
  match Qcompare (q - inject_Z f) (1 # 2) with
  | Lt => f
  | Gt => (f + 1)%Z
  | Eq => if Z.even f then f else (f + 1)%Z
  end.

Definition pow10 (n : nat) : Q := inject_Z (10 ^ Z.of_nat n).

(** [round(x, ndigits)] for [ndigits] from 0 to 22: an int is returned
    as it is; a finite float is rounded on its exact value and the
    decimal result read back as a float, with the sign of [x]. *)
Definition py_round (x : number) (ndigits : nat) : number :=
  match x with
  | PyInt z => PyInt z
  | PyFloat (S754_finite s m e) =>
      let v := float_value (S754_finite s m e) in
      match nearest_float (inject_Z (round_half_even (v * pow10 ndigits)) / pow10 ndigits) with
      | S754_zero _ => PyFloat (S754_zero s)
      | r => PyFloat r
      end
  | PyFloat f => PyFloat f
  end.

(** [int(x)]: truncation toward zero. *)
Definition py_int (x : number) : result Z :=
  match x with
  | PyInt z => Ok z
  | PyFloat (S754_infinity _) => Raise "cannot convert float infinity to integer"
  | PyFloat S754_nan => Raise "cannot convert float NaN to integer"
  | PyFloat f =>
      let v := float_value f in
      Ok (Z.quot (Qnum v) (Zpos (Qden v)))
  end.

(** [x < b] and [x > b] for an [int] [b]: the comparison of a float with
    an int is exact, and false for a NaN. *)
Definition py_lt_int (x : number) (b : Z) : bool :=
  match x with
  | PyInt z => (z <? b)%Z
  | PyFloat (S754_infinity s) => s
  | PyFloat S754_nan => false
  | PyFloat f => negb (Qle_bool (inject_Z b) (float_value f))
  end.

Definition py_gt_int (x : number) (b : Z) : bool :=
  match x with
  | PyInt z => (b <? z)%Z
  | PyFloat (S754_infinity s) => negb s
  | PyFloat S754_nan => false
  | PyFloat f => negb (Qle_bool (float_value f) (inject_Z b))
  end.

(** [bool(x)]: zero is falsy. *)
Definition py_truthy (x : number) : bool :=
  match x with
  | PyInt z => negb (z =? 0)%Z
  | PyFloat (S754_zero _) => false
  | PyFloat _ => true
  end.

(** The float a decimal literal of the source text denotes. *)
Definition py_float (q : Q) : number := PyFloat (nearest_float q).

(** [x or y] on optional numbers: [None] and zero are falsy. *)
Definition or_num (x y : option number) : option number :=
  match x with
  | Some q => if py_truthy q then x else y
  | None => y
  end.

(** [x or y] on optional strings: [None] and the empty string are falsy. *)
Definition or_str (x y : option string) : option string :=
  match x with
  | Some "" => y
  | Some _ => x
  | None => y
  end.

Definition str_or (x : option string) (default : string) : string :=
  match or_str x (Some default) with
  | Some s => s
  | None => default
  end.

(** ** Dictionaries in insertion order *)

Module Dict.

Definition t (V : Type) : Type := list (string * V).

Definition empty {V : Type} : t V := [].

(** [d.get(k)] *)
Fixpoint get {V : Type} (d : t V) (k : string) : option V :=
  match d with
  | [] => None
  | (k', v) :: r => if String.eqb k' k then Some v else get r k
  end.

(** [k in d] *)
Definition mem {V : Type} (d : t V) (k : string) : bool :=
  match get d k with
  | Some _ => true
  | None => false
  end.

(** [d[k] = v]: an existing key keeps its position, a new key goes last. *)
Fixpoint set {V : Type} (d : t V) (k : string) (v : V) : t V :=
  match d with
  | [] => [(k, v)]
  | (k', v') :: r =>
      if String.eqb k' k then (k', v) :: r else (k', v') :: set r k v
  end.

Definition keys {V : Type} (d : t V) : list string := map fst d.

Definition values {V : Type} (d : t V) : list V := map snd d.

Fixpoint memb (k : string) (l : list string) : bool :=
  match l with
  | [] => false
  | x :: r => String.eqb x k || memb k r
  end.

Fixpoint nodupb (l : list string) : bool :=
  match l with
  | [] => true
  | x :: r => negb (memb x r) && nodupb r
  end.

(** Keys of a Python dict are pairwise distinct. *)
Definition wf {V : Type} (d : t V) : bool := nodupb (keys d).

End Dict.

(** ** The status document *)

Module TickerInfo.

(** One entry of [status["tickers"]].  [market_cap] and [vettr_ticker]
    are absent ([None]) until the ticker completes. *)
Record t : Type := mk {
  status : string;
  symbol : string;
  exchange : string;
  reason : option string;
  market_cap : option number;
  vettr_ticker : option string
}.

End TickerInfo.

Module Stats.

Record t : Type := mk {
  total : nat;
  completed : nat;
  failed : nat;
  skipped : nat;
  pending : nat
}.

End Stats.

Module Status.

Record t : Type := mk {
  started_at : string;
  last_updated : string;
  tickers : Dict.t TickerInfo.t;
  stats : Stats.t
}.

End Status.

(** [sum(1 for v in tickers.values() if v["status"] == s)] *)
Definition count_status (s : string) (tickers : Dict.t TickerInfo.t) : nat :=
  List.length
    (filter (fun v => String.eqb (TickerInfo.status v) s) (Dict.values tickers)).

(** The counters of lines 65-71, a function of the mapping alone. *)
Definition summarize (tickers : Dict.t TickerInfo.t) : Stats.t :=
  {| Stats.total := List.length tickers;
     Stats.completed := count_status "completed" tickers;
     Stats.failed := count_status "failed" tickers;
     Stats.skipped := count_status "skipped" tickers;
     Stats.pending := count_status "pending" tickers |}.

(** The four statuses of a record. *)
Definition known_status (s : string) : bool :=
  String.eqb s "completed" || String.eqb s "failed"
  || String.eqb s "skipped" || String.eqb s "pending".

(** The document [load_status] creates when there is no status file. *)
Definition fresh_status (now : string) : Status.t :=
  {| Status.started_at := now;
     Status.last_updated := now;
     Status.tickers := Dict.empty;
     Status.stats := Stats.mk 0 0 0 0 0 |}.

(** The in-memory part of [save_status]: the document handed to
    [json.dump]. *)
Definition stamp_status (status : Status.t) (now : string) : Status.t :=
  {| Status.started_at := Status.started_at status;
     Status.last_updated := now;
     Status.tickers := Status.tickers status;
     Status.stats := summarize (Status.tickers status) |}.

(** ** Numbers and their text *)

Definition digits_of_N (n : N) : string :=
  NilZero.string_of_uint (N.to_uint n).

Definition digits_of_nat (n : nat) : string := digits_of_N (N.of_nat n).

(** Thousands separators, on the digits in reverse order. *)
Fixpoint commas_rev (rev_digits : list ascii) (seen : nat) : list ascii :=
  match rev_digits with
  | [] => []
  | c :: r =>
      if Nat.eqb seen 3 then ","%char :: c :: commas_rev r 1
      else c :: commas_rev r (S seen)
  end.

Definition with_commas (digits : string) : string :=
  string_of_list_ascii
    (rev (commas_rev (rev (list_ascii_of_string digits)) 0)).

(** [f"{x:,.0f}"]: an int is converted to a float first; no decimals
    (ties to even on the value of the float), thousands separators; the
    sign of a negative float is kept even when it rounds to zero. *)
Definition format_comma_0f (x : number) : result string :=
  match to_float x with
  | Raise e => Raise e
  | Ok S754_nan => Ok "nan"
  | Ok (S754_infinity s) => Ok (if s then "-inf" else "inf")
  | Ok (S754_zero s) => Ok (if s then "-0" else "0")
  | Ok (S754_finite s m e) =>
      let v := float_value (S754_finite false m e) in
      let body := with_commas (digits_of_N (Z.to_N (round_half_even v))) in
      Ok (if s then "-" ++ body else body)
  end.

(** *** The text of a float *)

(** [e] with [10 ^ e <= v < 10 ^ (e + 1)], for a positive [v]: a guess
    from the binary logarithm, corrected. *)
Definition Qpow10 (e : Z) : Q := Qpower 10 e.

Fixpoint adjust_down (fuel : nat) (v : Q) (e : Z) : Z :=
  match fuel with
  | O => e
  | S fuel' => if Qle_bool (Qpow10 e) v then e else adjust_down fuel' v (e - 1)
  end.

Fixpoint adjust_up (fuel : nat) (v : Q) (e : Z) : Z :=
  match fuel with
  | O => e
  | S fuel' => if Qle_bool (Qpow10 (e + 1)) v then adjust_up fuel' v (e + 1) else e
  end.

Definition decimal_exponent (v : Q) : Z :=
  let e2 := (Z.log2 (Qnum v) - Z.log2 (Zpos (Qden v)))%Z in
  let guess := (e2 * 30103 / 100000)%Z in
  adjust_up 4 v (adjust_down 4 v (guess + 1)).

(** The decimal with [k] digits that reads back as [f] and is nearest
    to its value [v] (of two equally near, the even one), if there is one:
    the digits as an integer and the
    position of the decimal point after the first digit. *)
Definition shortest_candidate (f : spec_float) (v : Q) (k : Z) : option (Z * Z) :=
  let e := decimal_exponent v in
  let scale := Qpow10 (k - 1 - e) in
  let t := (v * scale)%Q in
  let lo := Qfloor t in
  let hi := (lo + 1)%Z in
  let reads c := SFeqb (nearest_float (inject_Z c / scale)) f in
  let lo_ok := reads lo && (0 <? lo)%Z in
  let hi_ok := reads hi in
  let near_lo :=
    match Qcompare (t - inject_Z lo) (inject_Z hi - t) with
    | Lt => true
    | Eq => Z.even lo
    | Gt => false
    end in
  if lo_ok && (negb hi_ok || near_lo) then Some (lo, e)
  else if hi_ok then
    if (hi =? 10 ^ k)%Z then Some ((10 ^ (k - 1))%Z, (e + 1)%Z) else Some (hi, e)
  else None.

Fixpoint shortest_from (fuel : nat) (f : spec_float) (v : Q) (k : Z) : Z * Z :=
  match fuel with
  | O => (0%Z, 0%Z)
  | S fuel' =>
      match shortest_candidate f v k with
      | Some r => r
      | None => shortest_from fuel' f v (k + 1)
      end
  end.

Fixpoint strip_zeros_rev (l : list ascii) : list ascii :=
  match l with
  | "0"%char :: r => strip_zeros_rev r
  | _ => l
  end.

Definition strip_trailing_zeros (s : string) : string :=
  match string_of_list_ascii (rev (strip_zeros_rev (rev (list_ascii_of_string s)))) with
  | "" => "0"
  | r => r
  end.

Fixpoint zeros (n : nat) : string :=
  match n with
  | O => ""
  | S n' => String "0"%char (zeros n')
  end.

(** [repr(f)] for a positive finite float: the shortest digits that read
    back as [f], written with an exponent when the decimal point is more
    than 16 places to the right of the first digit or more than 3 to its
    left. *)
Definition repr_positive (f : spec_float) : string :=
  let v := float_value f in
  let '(c, e) := shortest_from 17 f v 1 in
  let digits := strip_trailing_zeros (digits_of_N (Z.to_N c)) in
  let n := String.length digits in
  let decpt := (e + 1)%Z in
  if (decpt <=? -4)%Z || (16 <? decpt)%Z then
    let mantissa :=
      match digits with
      | String d "" => String d ""
      | String d r => String d ("." ++ r)
      | "" => ""
      end in
    let x := (decpt - 1)%Z in
    let xs := digits_of_N (Z.abs_N x) in
    mantissa ++ "e" ++ (if (x <? 0)%Z then "-" else "+")
    ++ (if (String.length xs <? 2)%nat then "0" ++ xs else xs)
  else if (decpt <=? 0)%Z then "0." ++ zeros (Z.to_nat (- decpt)) ++ digits
  else if (Z.of_nat n <=? decpt)%Z then
    digits ++ zeros (Z.to_nat decpt - n) ++ ".0"
  else substring 0 (Z.to_nat decpt) digits ++ "."
       ++ substring (Z.to_nat decpt) (n - Z.to_nat decpt) digits.

(** A number as [json.dump] writes it. *)
Definition json_number (x : number) : string :=
  match x with
  | PyInt z => (if (z <? 0)%Z then "-" else "") ++ digits_of_N (Z.abs_N z)
  | PyFloat S754_nan => "NaN"
  | PyFloat (S754_infinity s) => if s then "-Infinity" else "Infinity"
  | PyFloat (S754_zero s) => if s then "-0.0" else "0.0"
  | PyFloat (S754_finite s m e) =>
      (if s then "-" else "") ++ repr_positive (S754_finite false m e)
  end.

Definition quote_char : ascii := ascii_of_nat 34.
Definition backslash_char : ascii := ascii_of_nat 92.
Definition newline : string := String (ascii_of_nat 10) "".

(** A JSON string literal.  Only the quote and the backslash are escaped:
    identifiers, reasons and timestamps are printable ASCII text. *)
Fixpoint json_escape (s : string) : string :=
  match s with
  | "" => ""
  | String c r =>
      if Ascii.eqb c quote_char || Ascii.eqb c backslash_char
      then String backslash_char (String c (json_escape r))
      else String c (json_escape r)
  end.

Definition json_string (s : string) : string :=
  String quote_char (json_escape s) ++ String quote_char "".

Definition json_opt {A : Type} (f : A -> string) (x : option A) : string :=
  match x with
  | Some a => f a
  | None => "null"
  end.

Fixpoint spaces (n : nat) : string :=
  match n with
  | O => ""
  | S n' => String " "%char (spaces n')
  end.

(** A JSON object printed as [json.dump(..., indent=2)] does at nesting
    depth [depth]: one member per line, or [{}] when there is none. *)
Definition json_object (depth : nat) (members : list (string * string)) : string :=
  match members with
  | [] => "{}"
  | _ =>
      "{" ++ newline
      ++ String.concat ("," ++ newline)
           (map (fun kv => spaces (2 * S depth) ++ json_string (fst kv) ++ ": " ++ snd kv)
                members)
      ++ newline ++ spaces (2 * depth) ++ "}"
  end.

Definition json_ticker_info (depth : nat) (v : TickerInfo.t) : string :=
  json_object depth
    ([("status", json_string (TickerInfo.status v));
      ("symbol", json_string (TickerInfo.symbol v));
      ("exchange", json_string (TickerInfo.exchange v));
      ("reason", json_opt json_string (TickerInfo.reason v))]
     ++ match TickerInfo.market_cap v with
        | Some c => [("market_cap", json_number c)]
        | None => []
        end
     ++ match TickerInfo.vettr_ticker v with
        | Some s => [("vettr_ticker", json_string s)]
        | None => []
        end).

Definition json_stats (depth : nat) (s : Stats.t) : string :=
  json_object depth
    [("total", digits_of_nat (Stats.total s));
     ("completed", digits_of_nat (Stats.completed s));
     ("failed", digits_of_nat (Stats.failed s));
     ("skipped", digits_of_nat (Stats.skipped s));
     ("pending", digits_of_nat (Stats.pending s))].

(** The text [json.dump(status, f, indent=2)] sends to the file. *)
Definition json_dump (status : Status.t) : string :=
  json_object 0
    [("started_at", json_string (Status.started_at status));
     ("last_updated", json_string (Status.last_updated status));
     ("tickers",
      json_object 1
        (map (fun kv => (fst kv, json_ticker_info 2 (snd kv))) (Status.tickers status)));
     ("stats", json_stats 1 (Status.stats status))].

(** ** Configuration *)

Definition MARKET_CAP_MIN : Z := 10000000.
Definition MARKET_CAP_MAX : Z := 10000000000.
Definition BATCH_SIZE : nat := 20.

(** ** Small string functions of Python *)

Definition lower_char (c : ascii) : ascii :=
  let n := nat_of_ascii c in
  if (65 <=? n)%nat && (n <=? 90)%nat then ascii_of_nat (n + 32) else c.

(** [s.lower()] on ASCII text. *)
Fixpoint lower (s : string) : string :=
  match s with
  | "" => ""
  | String c r => String (lower_char c) (lower r)
  end.

(** [sub in s] *)
Fixpoint contains (sub s : string) : bool :=
  String.prefix sub s
  || match s with
     | "" => false
     | String _ r => contains sub r
     end.

(** [s.endswith(suffix)] *)
Definition endswith (s suffix : string) : bool :=
  let n := String.length s in
  let m := String.length suffix in
  (m <=? n)%nat && String.eqb (substring (n - m) m s) suffix.

(** [s.split(".")[0]]: the text before the first dot. *)
Fixpoint before_dot (s : string) : string :=
  match s with
  | "" => ""
  | String c r => if Ascii.eqb c "."%char then "" else String c (before_dot r)
  end.

(** Convert yfinance ticker to VETTR ticker format (no suffix). *)
Definition compute_vettr_ticker (symbol exchange : string) : string :=
  before_dot symbol.

(** Derive exchange from yfinance ticker suffix. *)
Definition compute_exchange (yf_ticker : string) : string :=
  if endswith yf_ticker ".TO" then "TSX"
  else if endswith yf_ticker ".V" then "TSXV"
  else if endswith yf_ticker ".CN" then "CSE"
  else "UNKNOWN".

(** ** What the provider returns *)

Module Officer.

Record t : Type := mk {
  name : option string;
  title : option string
}.

End Officer.

Module NewsRaw.

(** One item of [t.news]; [None] is an absent key. *)
Record t : Type := mk {
  title : option string;
  publisher : option string;
  link : option string;
  providerPublishTime : option Z
}.

End NewsRaw.

Module Info.

(** The keys of [t.info] the script reads; [None] is an absent key or a
    null value.  [keys] lists the keys of the dict as returned. *)
Record t : Type := mk {
  keys : list string;
  regularMarketPrice : option number;
  currentPrice : option number;
  marketCap : option number;
  previousClose : option number;
  totalCash : option number;
  totalDebt : option number;
  researchDevelopment : option number;
  operatingExpenses : option number;
  totalRevenue : option number;
  sharesOutstanding : option number;
  averageVolume : option number;
  heldPercentInsiders : option number;
  operatingCashflow : option number;
  shortName : option string;
  longName : option string;
  industry : option string;
  sector : option string;
  companyOfficers : option (list Officer.t)
}.

End Info.

(** The first column of a financial statement: row label and value, a
    float which is NaN for a missing value. *)
Definition column : Type := list (string * spec_float).

Module Ticker.

(** What the attributes of [yf.Ticker(yf_ticker)] give when read: each
    either raises or returns.  A statement that is [None] or empty is
    [Ok None]. *)
Record t : Type := mk {
  info : result Info.t;
  balance_sheet : result (option column);
  income_stmt : result (option column);
  news : result (list NewsRaw.t)
}.

End Ticker.

(** ** The normalized record *)

Module NewsItem.

Record t : Type := mk {
  title : string;
  publisher : string;
  link : string;
  published : Z
}.

End NewsItem.

Module Data.

Record t : Type := mk {
  fetched_at : string;
  yfinance_ticker : string;
  vettr_ticker : string;
  exchange : string;
  name : string;
  sector : string;
  market_cap : number;
  price : option number;
  previous_close : option number;
  price_change : option number;
  cash : option number;
  monthly_burn : option number;
  total_debt : option number;
  total_assets : option number;
  exploration_exp : option number;
  r_and_d_exp : option number;
  total_opex : option number;
  g_and_a_expense : option number;
  revenue : option number;
  shares_current : option number;
  shares_1yr_ago : option number;
  insider_shares : option Z;
  total_shares : option number;
  avg_vol_30d : option number;
  days_since_last_pr : option Z;
  officers : list (string * string);
  news_items : list NewsItem.t;
  raw_info_keys : list string;
  held_percent_insiders : option number;
  operating_cashflow : option number;
  total_revenue : option number
}.

End Data.

(** A reading of the clock: the ISO text and the POSIX time in seconds. *)
Record stamp : Type := mk_stamp {
  iso : string;
  seconds : Z
}.

(** ** Sector mapping *)

(** Map yfinance industry/sector to VETTR sector categories. *)
Definition map_sector (yf_info : Info.t) : string :=
  let industry := lower (str_or (Info.industry yf_info) "") in
  let sector := lower (str_or (Info.sector yf_info) "") in
  if contains "gold" industry || contains "gold" sector then "Gold"
  else if contains "silver" industry || contains "silver" sector then "Silver"
  else if contains "copper" industry then "Copper"
  else if contains "uranium" industry || contains "uranium" sector then "Uranium"
  else if contains "lithium" industry then "Lithium"
  else if contains "nickel" industry then "Nickel"
  else if contains "zinc" industry then "Zinc"
  else if contains "metal" industry && contains "precious" industry then "Precious Metals"
  else if contains "metal" industry || contains "base metal" industry then "Base Metals"
  else if contains "mining" industry || contains "mining" sector then "Mining"
  else if contains "oil" industry || contains "gas" industry || contains "petroleum" industry
  then "Oil & Gas"
  else if contains "cannabis" industry || contains "marijuana" industry then "Cannabis"
  else if contains "biotech" industry || contains "pharmaceutical" industry then "Biotech"
  else if contains "technology" sector || contains "software" industry || contains "tech" industry
  then "Technology"
  else if contains "financial" sector || contains "bank" industry then "Financial Services"
  else if contains "real estate" sector || contains "reit" industry then "Real Estate"
  else if contains "energy" sector then "Energy"
  else if contains "health" sector then "Healthcare"
  else if contains "industrial" sector then "Industrial"
  else if contains "consumer" sector then "Consumer"
  else if contains "communication" sector then "Communications"
  else if contains "utilities" sector then "Utilities"
  else str_or (Info.sector yf_info) "Other".

(** ** The fetch worker *)

(** [float(v) if v == v else None]: only a NaN differs from itself. *)
Definition float_or_none (v : spec_float) : option number :=
  match v with
  | S754_nan => None
  | _ => Some (PyFloat v)
  end.

(** [{str(k): ... for k, v in latest.items()}]: a later row with the same
    label replaces an earlier one. *)
Definition dict_of_column (col : column) : Dict.t (option number) :=
  fold_left (fun d kv => Dict.set d (fst kv) (float_or_none (snd kv))) col Dict.empty.

(** [d.get(k)] on a statement dict, a NaN entry reading as [None]. *)
Definition statement_get (d : Dict.t (option number)) (k : string) : option number :=
  match Dict.get d k with
  | Some v => v
  | None => None
  end.

(** The body of the first inner [try] (lines 177-184), and of the second:
    any exception leaves the section empty. *)
Definition read_statement (r : result (option column)) : Dict.t (option number) :=
  match r with
  | Ok (Some col) => dict_of_column col
  | Ok None => Dict.empty
  | Raise _ => Dict.empty
  end.

Definition news_item (item : NewsRaw.t) : NewsItem.t :=
  {| NewsItem.title := match NewsRaw.title item with Some s => s | None => "" end;
     NewsItem.publisher := match NewsRaw.publisher item with Some s => s | None => "" end;
     NewsItem.link := match NewsRaw.link item with Some s => s | None => "" end;
     NewsItem.published :=
       match NewsRaw.providerPublishTime item with Some z => z | None => 0%Z end |}.

(** The body of the third inner [try] (lines 194-207). *)
Definition read_news (r : result (list NewsRaw.t)) : list NewsItem.t :=
  match r with
  | Ok n => map news_item (firstn 10 n)
  | Raise _ => []
  end.

Definition read_officers (raw : option (list Officer.t)) : list (string * string) :=
  match raw with
  | Some l =>
      map (fun o =>
             (match Officer.name o with Some s => s | None => "Unknown" end,
              match Officer.title o with Some s => s | None => "Officer" end))
          (firstn 5 l)
  | None => []
  end.

(** The last second [datetime] can represent (9999-12-31T23:59:59Z). *)
Definition MAX_TIMESTAMP : Z := 253402300799.

(** [datetime.fromtimestamp(ts, tz=timezone.utc)] for a positive [ts]:
    raises past year 9999. *)
Definition fromtimestamp (ts : Z) : result Z :=
  if (ts <=? MAX_TIMESTAMP)%Z then Ok ts else Raise "year is out of range".

(** [max(item.get("published", 0) for item in news)] for a non-empty list. *)
Definition max_published (first : NewsItem.t) (rest : list NewsItem.t) : Z :=
  fold_left Z.max (map NewsItem.published rest) (NewsItem.published first).

(** Lines 220-227.  The subtraction of two instants counts whole days,
    rounding down; publication times being whole seconds, the fraction of
    a second of the clock does not change the count. *)
Definition compute_days_since_last_pr (news : list NewsItem.t) (now : Z)
  : result (option Z) :=
  match news with
  | [] => Ok None
  | first :: rest =>
      let latest_ts := max_published first rest in
      if (0 <? latest_ts)%Z then
        match fromtimestamp latest_ts with
        | Ok latest_date => Ok (Some ((now - latest_date) / 86400)%Z)
        | Raise e => Raise e
        end
      else Ok None
  end.

(** Lines 274-278: [round(current - prev, 4)]. *)
Definition compute_price_change (current prev : option number)
  : result (option number) :=
  match current, prev with
  | Some c, Some p =>
      match py_sub c p with
      | Raise e => Raise e
      | Ok d => Ok (Some (py_round d 4))
      end
  | _, _ => Ok None
  end.

(** Lines 280-284: [round((opex - rev) / 12, 2)]. *)
Definition compute_monthly_burn (opex rev : option number)
  : result (option number) :=
  match opex, rev with
  | Some o, Some r =>
      match py_sub o r with
      | Raise e => Raise e
      | Ok d =>
          match py_truediv d 12 with
          | Raise e => Raise e
          | Ok q => Ok (Some (py_round q 2))
          end
      end
  | _, _ => Ok None
  end.

(** Lines 286-290: [int(shares * insider_pct)]. *)
Definition compute_insider_shares (shares insider_pct : option number)
  : result (option Z) :=
  match shares, insider_pct with
  | Some s, Some p =>
      match py_mul s p with
      | Raise e => Raise e
      | Ok m =>
          match py_int m with
          | Raise e => Raise e
          | Ok z => Ok (Some z)
          end
      end
  | _, _ => Ok None
  end.

(** Lines 274-290 in their order: price change, monthly burn, insider
    shares; the first that raises ends the computation. *)
Definition compute_derived
    (price previous_close total_opex revenue shares_current held_percent_insiders
       : option number)
  : result (option number * option number * option Z) :=
  match compute_price_change price previous_close with
  | Raise e => Raise e
  | Ok price_change =>
      match compute_monthly_burn total_opex revenue with
      | Raise e => Raise e
      | Ok monthly_burn =>
          match compute_insider_shares shares_current held_percent_insiders with
          | Raise e => Raise e
          | Ok insider_shares => Ok (price_change, monthly_burn, insider_shares)
          end
      end
  end.


(** The value of a number that has one. *)
Definition number_value (x : number) : option Q :=
  match x with
  | PyInt z => Some (inject_Z z)
  | PyFloat (S754_infinity _) => None
  | PyFloat S754_nan => None
  | PyFloat f => Some (float_value f)
  end.


(** Line 159: the bundle has no usable price signal. *)
Definition no_market_data (info : Info.t) : bool :=
  match Info.keys info with
  | [] => true
  | _ =>
      match Info.regularMarketPrice info, Info.currentPrice info with
      | None, None => true
      | _, _ => false
      end
  end.

(** Fetch all data for a single ticker from yfinance.  [t] is what the
    provider answers for [yf_ticker], [now] the clock when it is read. *)
Definition fetch_ticker_data (t : Ticker.t) (now : stamp)
    (yf_ticker symbol exchange : string)
  : option Data.t * string * option string :=
  match Ticker.info t with
  | Raise e => (None, "failed", Some e)
  | Ok info =>
      if no_market_data info then (None, "no_data", Some "No market data available")
      else
        match Info.marketCap info with
        | None => (None, "skipped", Some "No market cap data")
        | Some market_cap =>
            if py_lt_int market_cap MARKET_CAP_MIN then
              match format_comma_0f market_cap with
              | Raise e => (None, "failed", Some e)
              | Ok text =>
                  (None, "skipped",
                   Some ("Market cap $" ++ text ++ " below $10M minimum"))
              end
            else if py_gt_int market_cap MARKET_CAP_MAX then
              match format_comma_0f market_cap with
              | Raise e => (None, "failed", Some e)
              | Ok text =>
                  (None, "skipped",
                   Some ("Market cap $" ++ text ++ " above $10B maximum"))
              end
            else
              let balance_sheet := read_statement (Ticker.balance_sheet t) in
              let income_stmt := read_statement (Ticker.income_stmt t) in
              let news := read_news (Ticker.news t) in
              let officers := read_officers (Info.companyOfficers info) in
              match compute_days_since_last_pr news (seconds now) with
              | Raise e => (None, "failed", Some e)
              | Ok days_since_last_pr =>
                  let vettr_ticker := compute_vettr_ticker yf_ticker exchange in
                  let price := or_num (Info.currentPrice info) (Info.regularMarketPrice info) in
                  let previous_close := Info.previousClose info in
                  let total_opex := Info.operatingExpenses info in
                  let revenue := Info.totalRevenue info in
                  let shares_current := Info.sharesOutstanding info in
                  let held_percent_insiders := Info.heldPercentInsiders info in
                  match compute_derived price previous_close total_opex revenue
                          shares_current held_percent_insiders with
                  | Raise e => (None, "failed", Some e)
                  | Ok (price_change, monthly_burn, insider_shares) =>
                  (Some
                     {| Data.fetched_at := iso now;
                        Data.yfinance_ticker := yf_ticker;
                        Data.vettr_ticker := vettr_ticker;
                        Data.exchange := exchange;
                        Data.name :=
                          str_or (or_str (Info.shortName info) (Info.longName info)) vettr_ticker;
                        Data.sector := map_sector info;
                        Data.market_cap := market_cap;
                        Data.price := price;
                        Data.previous_close := previous_close;
                        Data.price_change := price_change;
                        Data.cash := Info.totalCash info;
                        Data.monthly_burn := monthly_burn;
                        Data.total_debt := Info.totalDebt info;
                        Data.total_assets := statement_get balance_sheet "Total Assets";
                        Data.exploration_exp := None;
                        Data.r_and_d_exp := Info.researchDevelopment info;
                        Data.total_opex := total_opex;
                        Data.g_and_a_expense :=
                          statement_get income_stmt "Selling General And Administration";
                        Data.revenue := revenue;
                        Data.shares_current := shares_current;
                        Data.shares_1yr_ago := None;
                        Data.insider_shares := insider_shares;
                        Data.total_shares := Info.sharesOutstanding info;
                        Data.avg_vol_30d := Info.averageVolume info;
                        Data.days_since_last_pr := days_since_last_pr;
                        Data.officers := officers;
                        Data.news_items := news;
                        Data.raw_info_keys := Info.keys info;
                        Data.held_percent_insiders := held_percent_insiders;
                        Data.operating_cashflow := Info.operatingCashflow info;
                        Data.total_revenue := Info.totalRevenue info |},
                   "completed", None)
                  end
              end
        end
  end.

(** ** Durable storage and the events of a run *)

(** The status file while or after [json.dump] writes [sf_doc] into it:
    it holds the first [sf_written] characters of the document's text. *)
Record status_file : Type := mk_status_file {
  sf_doc : Status.t;
  sf_written : nat
}.

Definition status_file_content (f : status_file) : string :=
  substring 0 (sf_written f) (json_dump (sf_doc f)).

Definition status_file_complete (f : status_file) : bool :=
  (String.length (json_dump (sf_doc f)) <=? sf_written f)%nat.

(** [json.load(f)] on the status file: the document when its text is
    complete, a decoding error on a proper prefix of it. *)
Definition json_load (f : status_file) : result Status.t :=
  if status_file_complete f then Ok (sf_doc f)
  else Raise "JSONDecodeError".

(** An output file: the record it was opened for, and whether
    [json.dump] finished writing it. *)
Record output_file : Type := mk_output_file {
  of_doc : Data.t;
  of_complete : bool
}.

Record disk : Type := mk_disk {
  STATUS_FILE : option status_file;
  STOCK_DATA_DIR : Dict.t output_file
}.

(** What a run does, one step at a time.  The process can die between
    any two events. *)
Inductive event : Type :=
| OpenStatus (doc : Status.t)
    (** [open(STATUS_FILE, "w")]: the file exists and is empty *)
| PutStatus
    (** one more character of the document reaches the file *)
| OpenOutput (yf_ticker : string) (data : Data.t)
    (** [open(output_path, "w")] *)
| PutOutput (yf_ticker : string)
    (** [json.dump(data, f, ...)] ran to its end *)
| Fetch (yf_ticker : string)
    (** the provider is asked about [yf_ticker] *)
| Assign (yf_ticker old new : string)
    (** [ticker_info["status"] = new], the status having been [old] *)
| Processed (yf_ticker : string).
    (** [processed += 1] *)

Definition apply_event (d : disk) (ev : event) : disk :=
  match ev with
  | OpenStatus doc =>
      {| STATUS_FILE := Some (mk_status_file doc 0);
         STOCK_DATA_DIR := STOCK_DATA_DIR d |}
  | PutStatus =>
      {| STATUS_FILE :=
           match STATUS_FILE d with
           | Some f => Some (mk_status_file (sf_doc f) (S (sf_written f)))
           | None => None
           end;
         STOCK_DATA_DIR := STOCK_DATA_DIR d |}
  | OpenOutput yf_ticker data =>
      {| STATUS_FILE := STATUS_FILE d;
         STOCK_DATA_DIR :=
           Dict.set (STOCK_DATA_DIR d) yf_ticker (mk_output_file data false) |}
  | PutOutput yf_ticker =>
      {| STATUS_FILE := STATUS_FILE d;
         STOCK_DATA_DIR :=
           match Dict.get (STOCK_DATA_DIR d) yf_ticker with
           | Some o => Dict.set (STOCK_DATA_DIR d) yf_ticker (mk_output_file (of_doc o) true)
           | None => STOCK_DATA_DIR d
           end |}
  | Fetch _ => d
  | Assign _ _ _ => d
  | Processed _ => d
  end.

(** The disk after the events [tr], starting from [d]. *)
Definition replay (tr : list event) (d : disk) : disk :=
  fold_left apply_event tr d.

(** The disk found after a crash that lets the first [k] events of [tr]
    happen. *)
Definition crash_at (k : nat) (tr : list event) (d : disk) : disk :=
  replay (firstn k tr) d.

(** ** Computations that emit events and may be aborted by an exception *)

Definition M (A : Type) : Type := list event * option A.

Definition ret {A : Type} (a : A) : M A := ([], Some a).

Definition emit (tr : list event) : M unit := (tr, Some tt).

Definition abort {A : Type} : M A := ([], None).

Definition bind {A B : Type} (m : M A) (k : A -> M B) : M B :=
  match m with
  | (tr, Some a) => let (tr', r) := k a in ((tr ++ tr')%list, r)
  | (tr, None) => (tr, None)
  end.

Notation "x <- m ;; k" := (bind m (fun x => k))
  (at level 61, m at next level, right associativity).

Definition trace {A : Type} (m : M A) : list event := fst m.

(** ** The status store operations *)

Module Entity.

(** One element of [all_tickers] in the discovery output. *)
Record t : Type := mk {
  yfinance_ticker : string;
  symbol : string;
  exchange : string
}.

End Entity.

(** What a run reads from the outside world. *)
Record env : Type := mk_env {
  TICKERS_FILE : option (list Entity.t);
    (** [all_tickers], or [None] when the file does not exist *)
  provider : string -> Ticker.t;
  clock_start : string;
    (** the clock when [load_status] creates a document *)
  clock_save : nat -> string;
    (** the clock at the save after batch [n] ([0]: the first save) *)
  clock_fetch : string -> stamp;
    (** the clock while a ticker is fetched *)
  output_error : string -> option string
    (** [Some msg] when opening the ticker's output file raises *)
}.

(** Load or create the ingestion status file. *)
Definition load_status (e : env) (d : disk) : M Status.t :=
  match STATUS_FILE d with
  | Some f =>
      match json_load f with
      | Ok status => ret status
      | Raise _ => abort
      end
  | None => ret (fresh_status (clock_start e))
  end.

(** Save ingestion status to disk. *)
Definition save_status (status : Status.t) (now : string) : M Status.t :=
  let status := stamp_status status now in
  (OpenStatus status :: repeat PutStatus (String.length (json_dump status)),
   Some status).

Definition pending_info (t : Entity.t) : TickerInfo.t :=
  {| TickerInfo.status := "pending";
     TickerInfo.symbol := Entity.symbol t;
     TickerInfo.exchange := Entity.exchange t;
     TickerInfo.reason := None;
     TickerInfo.market_cap := None;
     TickerInfo.vettr_ticker := None |}.

(** Lines 320-327: the body of the loop over [all_tickers]. *)
Definition merge_step (tickers : Dict.t TickerInfo.t) (t : Entity.t) : Dict.t TickerInfo.t :=
  if Dict.mem tickers (Entity.yfinance_ticker t) then tickers
  else Dict.set tickers (Entity.yfinance_ticker t) (pending_info t).

(** Lines 319-327: initialize any new tickers in status. *)
Definition merge_tickers (tickers : Dict.t TickerInfo.t) (all_tickers : list Entity.t)
  : Dict.t TickerInfo.t :=
  fold_left merge_step all_tickers tickers.

Definition with_tickers (status : Status.t) (tickers : Dict.t TickerInfo.t) : Status.t :=
  {| Status.started_at := Status.started_at status;
     Status.last_updated := Status.last_updated status;
     Status.tickers := tickers;
     Status.stats := Status.stats status |}.

(** Lines 332-336: filter to only pending tickers. *)
Definition pending_tickers (tickers : Dict.t TickerInfo.t) : list string :=
  map fst (filter (fun kv => String.eqb (TickerInfo.status (snd kv)) "pending") tickers).

(** ** The batch scheduler *)

Definition set_outcome (ticker_info : TickerInfo.t) (status : string)
    (reason : option string) : TickerInfo.t :=
  {| TickerInfo.status := status;
     TickerInfo.symbol := TickerInfo.symbol ticker_info;
     TickerInfo.exchange := TickerInfo.exchange ticker_info;
     TickerInfo.reason := reason;
     TickerInfo.market_cap := TickerInfo.market_cap ticker_info;
     TickerInfo.vettr_ticker := TickerInfo.vettr_ticker ticker_info |}.

Definition set_completed (ticker_info : TickerInfo.t) (data : Data.t) : TickerInfo.t :=
  {| TickerInfo.status := "completed";
     TickerInfo.symbol := TickerInfo.symbol ticker_info;
     TickerInfo.exchange := TickerInfo.exchange ticker_info;
     TickerInfo.reason := None;
     TickerInfo.market_cap := Some (Data.market_cap data);
     TickerInfo.vettr_ticker := Some (Data.vettr_ticker data) |}.

(** The [elif] chain of lines 381-395, taken when the result is not a
    completed record. *)
Definition classify_other (ticker_info : TickerInfo.t) (result_status : string)
    (reason : option string) : TickerInfo.t :=
  if String.eqb result_status "skipped" then set_outcome ticker_info "skipped" reason
  else if String.eqb result_status "no_data" then
    set_outcome ticker_info "skipped" (or_str reason (Some "No data"))
  else set_outcome ticker_info "failed" (or_str reason (Some "Unknown error")).

(** The new entry of the ticker and the disk events of lines 366-400. *)
Definition handle_result (e : env) (yf_ticker : string) (ticker_info : TickerInfo.t)
    (r : option Data.t * string * option string) : TickerInfo.t * list event :=
  let '(data, result_status, reason) := r in
  match String.eqb result_status "completed", data with
  | true, Some data =>
      match output_error e yf_ticker with
      | None =>
          (set_completed ticker_info data,
           [OpenOutput yf_ticker data; PutOutput yf_ticker])
      | Some msg => (set_outcome ticker_info "failed" (Some msg), [])
      end
  | _, _ => (classify_other ticker_info result_status reason, [])
  end.

(** The body of the inner loop (lines 361-402) for one ticker.  The lookup
    of line 362 raises when the ticker is not in the store. *)
Definition process_ticker (e : env) (status : Status.t) (yf_ticker : string)
  : M Status.t :=
  match Dict.get (Status.tickers status) yf_ticker with
  | None => abort
  | Some ticker_info =>
      let symbol := TickerInfo.symbol ticker_info in
      let exchange := TickerInfo.exchange ticker_info in
      let r :=
        fetch_ticker_data (provider e yf_ticker) (clock_fetch e yf_ticker)
                          yf_ticker symbol exchange in
      let (ticker_info', writes) := handle_result e yf_ticker ticker_info r in
      (([Fetch yf_ticker] ++ writes
        ++ [Assign yf_ticker (TickerInfo.status ticker_info) (TickerInfo.status ticker_info');
            Processed yf_ticker])%list,
       Some (with_tickers status (Dict.set (Status.tickers status) yf_ticker ticker_info')))
  end.

(** [for yf_ticker in batch: ...] *)
Fixpoint process_batch (e : env) (status : Status.t) (batch : list string)
  : M Status.t :=
  match batch with
  | [] => ret status
  | yf_ticker :: rest =>
      status <- process_ticker e status yf_ticker ;;
      process_batch e status rest
  end.

(** [pending[i : i + size]] for [i] in [range(0, len(pending), size)]. *)
Fixpoint batches_from (fuel size : nat) (pending : list string) : list (list string) :=
  match fuel with
  | O => []
  | S fuel' =>
      match pending with
      | [] => []
      | _ => firstn size pending :: batches_from fuel' size (skipn size pending)
      end
  end.

Definition batches (size : nat) (pending : list string) : list (list string) :=
  batches_from (List.length pending) size pending.

(** The outer loop (lines 355-419): every batch is processed, then the
    status is saved.  [batch_num] counts the batches done so far. *)
Fixpoint run_batches (e : env) (status : Status.t) (bs : list (list string))
    (batch_num : nat) : M Status.t :=
  match bs with
  | [] => ret status
  | batch :: rest =>
      let batch_num := S batch_num in
      status <- process_batch e status batch ;;
      status <- save_status status (clock_save e batch_num) ;;
      run_batches e status rest batch_num
  end.

(** Main entry point for yfinance data fetching. *)
Definition main (e : env) (d : disk) : M unit :=
  match TICKERS_FILE e with
  | None => ret tt
  | Some all_tickers =>
      status <- load_status e d ;;
      let status :=
        with_tickers status (merge_tickers (Status.tickers status) all_tickers) in
      status <- save_status status (clock_save e 0) ;;
      let pending := pending_tickers (Status.tickers status) in
      match pending with
      | [] => ret tt
      | _ =>
          let bs := batches BATCH_SIZE pending in
          status <- run_batches e status bs 0 ;;
          _ <- save_status status (clock_save e (S (List.length bs))) ;;
          ret tt
      end
  end.

(** The tickers the provider is asked about, in order. *)
Fixpoint fetched (tr : list event) : list string :=
  match tr with
  | [] => []
  | Fetch yf_ticker :: r => yf_ticker :: fetched r
  | _ :: r => fetched r
  end.

(** The run up to the moment [k] tickers of batch number [j] (from 0) have
    been processed: the start of [main], [j] whole batches with their
    saves, then [k] tickers. *)
Definition main_interrupted (e : env) (d : disk) (j k : nat) : M Status.t :=
  match TICKERS_FILE e with
  | None => abort
  | Some all_tickers =>
      status <- load_status e d ;;
      let status :=
        with_tickers status (merge_tickers (Status.tickers status) all_tickers) in
      status <- save_status status (clock_save e 0) ;;
      let bs := batches BATCH_SIZE (pending_tickers (Status.tickers status)) in
      status <- run_batches e status (firstn j bs) 0 ;;
      process_batch e status (firstn k (nth j bs []))
  end.

(** ** A small world to run the definitions in *)

Definition info_with (price cap : option number) : Info.t :=
  {| Info.keys := ["currentPrice"; "marketCap"];
     Info.regularMarketPrice := None;
     Info.currentPrice := price;
     Info.marketCap := cap;
     Info.previousClose := None;
     Info.totalCash := None;
     Info.totalDebt := None;
     Info.researchDevelopment := None;
     Info.operatingExpenses := None;
     Info.totalRevenue := None;
     Info.sharesOutstanding := None;
     Info.averageVolume := None;
     Info.heldPercentInsiders := None;
     Info.operatingCashflow := None;
     Info.shortName := None;
     Info.longName := None;
     Info.industry := None;
     Info.sector := None;
     Info.companyOfficers := None |}.

Definition ticker_with (info : result Info.t) : Ticker.t :=
  {| Ticker.info := info;
     Ticker.balance_sheet := Ok None;
     Ticker.income_stmt := Ok None;
     Ticker.news := Ok [] |}.

(** The provider of the scenario: A has a size of $50M, B of $5M, the
    request for anything else fails. *)
Definition demo_provider (yf_ticker : string) : Ticker.t :=
  if String.eqb yf_ticker "A.TO"
  then ticker_with (Ok (info_with (Some (py_float 2)) (Some (PyInt 50000000))))
  else if String.eqb yf_ticker "B.V"
  then ticker_with (Ok (info_with (Some (py_float 1)) (Some (PyInt 5000000))))
  else ticker_with (Raise "provider error").

Definition demo_catalog : list Entity.t :=
  [Entity.mk "A.TO" "A" "TSX"; Entity.mk "B.V" "B" "TSXV"; Entity.mk "C.CN" "C" "CSE"].

Definition demo_env : env :=
  {| TICKERS_FILE := Some demo_catalog;
     provider := demo_provider;
     clock_start := "2024-01-01T00:00:00+00:00";
     clock_save := fun _ => "2024-01-01T00:00:01+00:00";
     clock_fetch := fun _ => mk_stamp "2024-01-01T00:00:02+00:00" 1704067202;
     output_error := fun _ => None |}.

Definition empty_disk : disk :=
  {| STATUS_FILE := None; STOCK_DATA_DIR := Dict.empty |}.

(** A disk whose status file holds the whole of [doc]. *)
Definition disk_with_status (doc : Status.t) (out : Dict.t output_file) : disk :=
  {| STATUS_FILE := Some (mk_status_file doc (String.length (json_dump doc)));
     STOCK_DATA_DIR := out |}.

(** The status document the scenario leaves behind, and the document of a
    store that has only seen A, not yet fetched. *)
Definition demo_status_pending : Status.t :=
  stamp_status
    {| Status.started_at := "2024-01-01T00:00:00+00:00";
       Status.last_updated := "2024-01-01T00:00:00+00:00";
       Status.tickers := [("A.TO", pending_info (Entity.mk "A.TO" "A" "TSX"))];
       Status.stats := Stats.mk 0 0 0 0 0 |}
    "2024-01-01T00:00:01+00:00".

(** A bundle inside the size band with the operands of the derived
    fields. *)
Definition info_financials (price prev opex rev shares insider : option number) : Info.t :=
  {| Info.keys := ["currentPrice"; "marketCap"];
     Info.regularMarketPrice := None;
     Info.currentPrice := price;
     Info.marketCap := Some (PyInt 50000000);
     Info.previousClose := prev;
     Info.totalCash := None;
     Info.totalDebt := None;
     Info.researchDevelopment := None;
     Info.operatingExpenses := opex;
     Info.totalRevenue := rev;
     Info.sharesOutstanding := shares;
     Info.averageVolume := None;
     Info.heldPercentInsiders := insider;
     Info.operatingCashflow := None;
     Info.shortName := None;
     Info.longName := None;
     Info.industry := None;
     Info.sector := None;
     Info.companyOfficers := None |}.

(** The derived fields of the record a fetch returns, when it returns one. *)
Definition derived_fields (r : option Data.t * string * option string)
  : option (option number * option number * option Z * option Z) :=
  match r with
  | (Some data, _, _) =>
      Some (Data.price_change data, Data.monthly_burn data,
            Data.insider_shares data, Data.days_since_last_pr data)
  | (None, _, _) => None
  end.


Definition with_news (t : Ticker.t) (n : result (list NewsRaw.t)) : Ticker.t :=
  {| Ticker.info := Ticker.info t;
     Ticker.balance_sheet := Ticker.balance_sheet t;
     Ticker.income_stmt := Ticker.income_stmt t;
     Ticker.news := n |}.

(** The classification a fetch returns. *)
Definition result_status (r : option Data.t * string * option string) : string :=
  snd (fst r).

(** ** Vocabulary of the properties *)

(** Completed, skipped or failed. *)
Definition terminalb (s : string) : bool :=
  String.eqb s "completed" || String.eqb s "skipped" || String.eqb s "failed".

(** The status a store records for a ticker. *)
Definition status_of (tickers : Dict.t TickerInfo.t) (yf_ticker : string) : option string :=
  option_map TickerInfo.status (Dict.get tickers yf_ticker).

Definition terminal_in (tickers : Dict.t TickerInfo.t) (yf_ticker : string) : bool :=
  match status_of tickers yf_ticker with
  | Some s => terminalb s
  | None => false
  end.

(** The status document a load finds on a disk, if any. *)
Definition durable_status (d : disk) : option Status.t :=
  match STATUS_FILE d with
  | Some f => match json_load f with Ok doc => Some doc | Raise _ => None end
  | None => None
  end.

(** The durable status document marks the ticker completed. *)
Definition durable_completed (d : disk) (yf_ticker : string) : bool :=
  match durable_status d with
  | Some doc =>
      match status_of (Status.tickers doc) yf_ticker with
      | Some s => String.eqb s "completed"
      | None => false
      end
  | None => false
  end.

(** The ticker's output file exists and was written to its end. *)
Definition output_present (d : disk) (yf_ticker : string) : bool :=
  match Dict.get (STOCK_DATA_DIR d) yf_ticker with
  | Some o => of_complete o
  | None => false
  end.

(** No ticker is durably completed without its output record. *)
Definition consistent (d : disk) : Prop :=
  forall yf_ticker, durable_completed d yf_ticker = true -> output_present d yf_ticker = true.

(** A status file, when there is one, holds a dict. *)
Definition disk_wf (d : disk) : bool :=
  match STATUS_FILE d with
  | Some f => Dict.wf (Status.tickers (sf_doc f))
  | None => true
  end.


(** A crash specification: started after a history satisfying [Pre], the
    computation is not aborted, every history it can be cut at satisfies
    [Crash], and the whole history satisfies [Post] of its result. *)
Definition triple {A : Type} (Pre : list event -> Prop) (m : M A)
    (Crash : list event -> Prop) (Post : A -> list event -> Prop) : Prop :=
  forall h, Pre h ->
    (forall k, Crash (h ++ firstn k (trace m))%list)
    /\ exists a, snd m = Some a /\ Post a (h ++ trace m)%list.

(** The tickers still to process are distinct and pending in the store. *)
Definition todo_pending (status : Status.t) (todo : list string) : Prop :=
  NoDup todo
  /\ forall yf_ticker, In yf_ticker todo ->
       status_of (Status.tickers status) yf_ticker = Some "pending".

(** A store in which A has failed. *)
Definition demo_status_failed : Status.t :=
  stamp_status
    {| Status.started_at := "2024-01-01T00:00:00+00:00";
       Status.last_updated := "2024-01-01T00:00:00+00:00";
       Status.tickers :=
         [("A.TO", TickerInfo.mk "failed" "A" "TSX" (Some "provider error") None None)];
       Status.stats := Stats.mk 0 0 0 0 0 |}
    "2024-01-01T00:00:01+00:00".


(** An event that leaves the status file alone. *)
Definition status_quiet (ev : event) : Prop :=
  match ev with
  | OpenStatus _ => False
  | PutStatus => False
  | _ => True
  end.

(** At some point of the history [h] run from disk [d], the durable
    status document had the ticker in a terminal status. *)
Definition ever_terminal (d : disk) (yf_ticker : string) (h : list event) : Prop :=
  exists j doc,
    durable_status (replay (firstn j h) d) = Some doc
    /\ terminal_in (Status.tickers doc) yf_ticker = true.

(** An event that leaves the output files of the tickers other than
    [yf_ticker] alone. *)
Definition output_only (yf_ticker : string) (ev : event) : Prop :=
  match ev with
  | OpenOutput k _ => k = yf_ticker
  | PutOutput k => k = yf_ticker
  | _ => True
  end.

(** The part of [main] that follows a successful load. *)
Definition main_after_load (e : env) (all_tickers : list Entity.t) (status : Status.t)
  : M unit :=
  let status :=
    with_tickers status (merge_tickers (Status.tickers status) all_tickers) in
  status <- save_status status (clock_save e 0) ;;
  let pending := pending_tickers (Status.tickers status) in
  match pending with
  | [] => ret tt
  | _ =>
      let bs := batches BATCH_SIZE pending in
      status <- run_batches e status bs 0 ;;
      _ <- save_status status (clock_save e (S (List.length bs))) ;;
      ret tt
  end.

(** The status file holds the whole of a document with the tickers of
    [status]. *)
Definition saved_tickers (d : disk) (status : Status.t) : Prop :=
  exists doc,
    STATUS_FILE d = Some (mk_status_file doc (String.length (json_dump doc)))
    /\ Status.tickers doc = Status.tickers status.

(** [p] is what a history starts with. *)
Definition starts_with (t p : list event) : Prop := exists rest, t = (p ++ rest)%list.

(** The number of times a history opens the status file for writing. *)
Fixpoint saves (tr : list event) : nat :=
  match tr with
  | [] => 0
  | OpenStatus _ :: r => S (saves r)
  | _ :: r => saves r
  end.

(** The disk after a whole run. *)
Definition disk_after_main (e : env) (d : disk) : disk :=
  replay (trace (main e d)) d.

(** The categories [map_sector] can name. *)
Definition sector_categories : list string :=
  ["Gold"; "Silver"; "Copper"; "Uranium"; "Lithium"; "Nickel"; "Zinc";
   "Precious Metals"; "Base Metals"; "Mining"; "Oil & Gas"; "Cannabis"; "Biotech";
   "Technology"; "Financial Services"; "Real Estate"; "Energy"; "Healthcare";
   "Industrial"; "Consumer"; "Communications"; "Utilities"; "Other"].

(** What processing [yf_ticker] makes of its record [ticker_info]: the new
    record and the writes to its output file (lines 362-400). *)
Definition outcome (e : env) (yf_ticker : string) (ticker_info : TickerInfo.t)
  : TickerInfo.t * list event :=
  handle_result e yf_ticker ticker_info
    (fetch_ticker_data (provider e yf_ticker) (clock_fetch e yf_ticker) yf_ticker
       (TickerInfo.symbol ticker_info) (TickerInfo.exchange ticker_info)).

(** The output file of a ticker once [writes] have reached the disk. *)
Definition output_after (writes : list event) (before : option output_file)
  : option output_file :=
  match writes with
  | OpenOutput _ data :: _ => Some (mk_output_file data true)
  | _ => before
  end.

(** * The discovery script (01_discover_tickers.py) *)

(** [c.isspace()] on ASCII text. *)
Definition is_space (c : ascii) : bool :=
  let n := nat_of_ascii c in
  ((9 <=? n) && (n <=? 13) || (28 <=? n) && (n <=? 32))%nat.

(** [s.lstrip()] *)
Fixpoint lstrip (s : string) : string :=
  match s with
  | "" => ""
  | String c r => if is_space c then lstrip r else s
  end.

(** [s.rstrip()] *)
Fixpoint rstrip (s : string) : string :=
  match s with
  | "" => ""
  | String c r =>
      match rstrip r with
      | "" => if is_space c then "" else String c ""
      | r' => String c r'
      end
  end.

(** [s.strip()] *)
Definition strip (s : string) : string := rstrip (lstrip s).

Module ExchangeEntry.

(** One value of [result["exchanges"]]. *)
Record t : Type := mk {
  count : nat;
  tickers : list Entity.t;
  error : option string
}.

End ExchangeEntry.

Module DiscoveryStats.

Record t : Type := mk {
  total_tickers : nat;
  tsx_count : nat;
  tsxv_count : nat;
  cse_count : nat
}.

End DiscoveryStats.

Module Discovery.

(** The document written to tickers_raw.json. *)
Record t : Type := mk {
  generated_at : string;
  exchanges : Dict.t ExchangeEntry.t;
  all_tickers : list Entity.t;
  stats : DiscoveryStats.t
}.

End Discovery.

(** The data frame of the CSE export: whether it is empty, and what
    [get_all_cse_tickers] makes of it. *)
Record cse_frame : Type := mk_cse_frame {
  cse_empty : bool;
  get_all_cse_tickers : result (list string)
}.

(** What the cad-tickers package answers, the symbols as [str] shows
    them, and the clock. *)
Record listings : Type := mk_listings {
  get_tsx_tickers : string -> result (list string);
  get_cse_tickers_df : result (option cse_frame);
  discovery_clock : string
}.

(** The loop over the symbols of one exchange.  [capital_pool] is true for
    the two loops that skip the symbols with ".P" (TSX and TSXV) and false
    for the one that does not (CSE). *)
Fixpoint exchange_tickers (capital_pool : bool) (suffix exchange : string)
    (symbols : list string) : list Entity.t :=
  match symbols with
  | [] => []
  | sym :: rest =>
      let clean := strip sym in
      if String.eqb clean "" || (capital_pool && contains ".P" clean)
      then exchange_tickers capital_pool suffix exchange rest
      else
        let yf_ticker := (clean ++ suffix)%string in
        Entity.mk yf_ticker clean exchange
          :: exchange_tickers capital_pool suffix exchange rest
  end.

(** [result["exchanges"].get(name, {}).get("count", 0)] *)
Definition exchange_count (exchanges : Dict.t ExchangeEntry.t) (name : string) : nat :=
  match Dict.get exchanges name with
  | Some entry => ExchangeEntry.count entry
  | None => 0
  end.

(** Discover all tickers from TSX, TSXV, and CSE.  The three [try]
    blocks thread the exchanges, the list of all tickers and the total. *)
Definition discover_tickers (w : listings) : Discovery.t :=
  let exchanges : Dict.t ExchangeEntry.t := Dict.empty in
  let all_tickers : list Entity.t := [] in
  let total := 0%nat in
  let '(exchanges, all_tickers, total) :=
    match get_tsx_tickers w "tsx" with
    | Ok tsx_symbols =>
        let tsx_tickers := exchange_tickers true ".TO" "TSX" tsx_symbols in
        (Dict.set exchanges "TSX"
           (ExchangeEntry.mk (List.length tsx_tickers) tsx_tickers None),
         (all_tickers ++ tsx_tickers)%list,
         (total + List.length tsx_tickers)%nat)
    | Raise e =>
        (Dict.set exchanges "TSX" (ExchangeEntry.mk 0 [] (Some e)), all_tickers, total)
    end in
  let '(exchanges, all_tickers, total) :=
    match get_tsx_tickers w "tsxv" with
    | Ok tsxv_symbols =>
        let tsxv_tickers := exchange_tickers true ".V" "TSXV" tsxv_symbols in
        (Dict.set exchanges "TSXV"
           (ExchangeEntry.mk (List.length tsxv_tickers) tsxv_tickers None),
         (all_tickers ++ tsxv_tickers)%list,
         (total + List.length tsxv_tickers)%nat)
    | Raise e =>
        (Dict.set exchanges "TSXV" (ExchangeEntry.mk 0 [] (Some e)), all_tickers, total)
    end in
  let unavailable :=
    (Dict.set exchanges "CSE" (ExchangeEntry.mk 0 [] (Some "CSE export unavailable")),
     all_tickers, total) in
  let '(exchanges, all_tickers, total) :=
    match get_cse_tickers_df w with
    | Ok (Some cse_df) =>
        if negb (cse_empty cse_df) then
          match get_all_cse_tickers cse_df with
          | Ok cse_symbols =>
              let cse_tickers := exchange_tickers false ".CN" "CSE" cse_symbols in
              (Dict.set exchanges "CSE"
                 (ExchangeEntry.mk (List.length cse_tickers) cse_tickers None),
               (all_tickers ++ cse_tickers)%list,
               (total + List.length cse_tickers)%nat)
          | Raise e =>
              (Dict.set exchanges "CSE" (ExchangeEntry.mk 0 [] (Some e)),
               all_tickers, total)
          end
        else unavailable
    | Ok None => unavailable
    | Raise e =>
        (Dict.set exchanges "CSE" (ExchangeEntry.mk 0 [] (Some e)), all_tickers, total)
    end in
  {| Discovery.generated_at := discovery_clock w;
     Discovery.exchanges := exchanges;
     Discovery.all_tickers := all_tickers;
     Discovery.stats :=
       {| DiscoveryStats.total_tickers := total;
          DiscoveryStats.tsx_count := exchange_count exchanges "TSX";
          DiscoveryStats.tsxv_count := exchange_count exchanges "TSXV";
          DiscoveryStats.cse_count := exchange_count exchanges "CSE" |} |}.

(** The symbols an exchange lists, none when the request fails. *)
Definition listed_tsx (w : listings) (name : string) : list string :=
  match get_tsx_tickers w name with
  | Ok symbols => symbols
  | Raise _ => []
  end.

Definition listed_cse (w : listings) : list string :=
  match get_cse_tickers_df w with
  | Ok (Some cse_df) =>
      if cse_empty cse_df then []
      else match get_all_cse_tickers cse_df with
           | Ok symbols => symbols
           | Raise _ => []
           end
  | _ => []
  end.

(** A fetch run that reads the catalog discovery has written. *)
Definition env_of_discovery (w : listings) (e : env) : env :=
  {| TICKERS_FILE := Some (Discovery.all_tickers (discover_tickers w));
     provider := provider e;
     clock_start := clock_start e;
     clock_save := clock_save e;
     clock_fetch := clock_fetch e;
     output_error := output_error e |}.

(** A small listing: a symbol with blanks around it, a capital pool
    symbol, an empty one; a TSXV request that fails; a CSE export with a
    capital pool symbol. *)
Definition demo_listings : listings :=
  {| get_tsx_tickers := fun name =>
       if String.eqb name "tsx" then Ok [" A "; "CP.P"; "  "; "BBD.B"]
       else Raise "timeout";
     get_cse_tickers_df := Ok (Some (mk_cse_frame false (Ok ["C"; "Q.P"])));
     discovery_clock := "2024-01-01T00:00:00" |}.

(** * The parser of the extra TSXV listing (parse_extra_tsxv.py) *)

(** [re.split(sep, text)] for a literal [sep]: the pieces between the
    occurrences of [sep], found from the left.  [skip] counts the
    characters of an occurrence still to pass. *)
Fixpoint re_split (sep : string) (skip : nat) (text : string) : list string :=
  match text with
  | "" => [""]
  | String c r =>
      match skip with
      | S k => re_split sep k r
      | O =>
          if String.prefix sep text
          then "" :: re_split sep (String.length sep - 1) r
          else match re_split sep 0 r with
               | piece :: rest => String c piece :: rest
               | [] => [String c ""]
               end
      end
  end.

(** [s.split()]: the word that starts at the head of [s], empty when [s]
    starts with a blank, and the words after it. *)
Fixpoint split_words (s : string) : string * list string :=
  match s with
  | "" => ("", [])
  | String c r =>
      let (w, ws) := split_words r in
      if is_space c then ("", if String.eqb w "" then ws else w :: ws)
      else (String c w, ws)
  end.

Definition py_split (s : string) : list string :=
  let (w, ws) := split_words s in
  if String.eqb w "" then ws else w :: ws.

Definition is_upper (c : ascii) : bool :=
  let n := nat_of_ascii c in ((65 <=? n) && (n <=? 90))%nat.

Definition is_upper_or_digit (c : ascii) : bool :=
  let n := nat_of_ascii c in
  is_upper c || ((48 <=? n) && (n <=? 57))%nat.

(** [[A-Z0-9]{0,n}(?:\.[A-Z])?] on the whole of [s]. *)
Fixpoint ticker_tail (n : nat) (s : string) : bool :=
  match s with
  | "" => true
  | String c r =>
      match n with
      | S n' => is_upper_or_digit c && ticker_tail n' r
      | O => false
      end
      || (Ascii.eqb c "." && match r with
                             | String d "" => is_upper d
                             | _ => false
                             end)
  end.

(** [[A-Z][A-Z0-9]{0,5}(?:\.[A-Z])?] on the whole of [s]. *)
Definition is_ticker (s : string) : bool :=
  match s with
  | "" => false
  | String c r => is_upper c && ticker_tail 5 r
  end.

(** [[A-Z0-9]{0,n}] on the whole of [s]. *)
Fixpoint plain_tail (n : nat) (s : string) : bool :=
  match s with
  | "" => true
  | String c r =>
      match n with
      | S n' => is_upper_or_digit c && plain_tail n' r
      | O => false
      end
  end.

(** [[A-Z][A-Z0-9]{0,5}] on the whole of [s]. *)
Definition is_plain_ticker (s : string) : bool :=
  match s with
  | "" => false
  | String c r => is_upper c && plain_tail 5 r
  end.

(** [s] without its last character when that is a newline: where [$]
    matches besides the end. *)
Fixpoint chomp (s : string) : option string :=
  match s with
  | "" => None
  | String c "" => if Ascii.eqb c (ascii_of_nat 10) then Some "" else None
  | String c r =>
      match chomp r with
      | Some r' => Some (String c r')
      | None => None
      end
  end.

(** The group of [pattern$] when the match starts at the head of [s]. *)
Definition match_to_end (pattern : string -> bool) (s : string) : option string :=
  if pattern s then Some s
  else match chomp s with
       | Some s' => if pattern s' then Some s' else None
       | None => None
       end.

(** [re.search(r'([A-Z][A-Z0-9]{0,5}(?:\.[A-Z])?)$', part)]: the match
    that starts leftmost. *)
Fixpoint search_ticker (part : string) : option string :=
  match match_to_end is_ticker part with
  | Some ticker => Some ticker
  | None =>
      match part with
      | "" => None
      | String _ r => search_ticker r
      end
  end.

(** Every character of [s] passes the test [p]. *)
Fixpoint all_chars (p : ascii -> bool) (s : string) : bool :=
  match s with
  | "" => true
  | String c r => p c && all_chars p r
  end.

Definition not_space (c : ascii) : bool := negb (is_space c).

(** The characters a ticker is made of. *)
Definition is_ticker_char (c : ascii) : bool :=
  is_upper_or_digit c || Ascii.eqb c ".".

(** Each text of [l] is before the next in the order of [sorted]. *)
Fixpoint increasing (l : list string) : bool :=
  match l with
  | x :: (y :: _) as r => String.ltb x y && increasing r
  | _ => true
  end.

(** The entries of tickers_raw.json as [load_existing_tickers] looks at
    them: the provider ticker of an entry that is a dict with the key. *)
Inductive raw_json : Type :=
| RawList (entries : list (option string))
| RawDict (all_tickers : option (list (option string)))
| RawOther.

Module ParseExtra.

(** The body of the loop over the parts (lines 45-68). *)
Definition part_tickers (part : string) : list string :=
  let part := rstrip part in
  match search_ticker part with
  | Some ticker =>
      if negb (endswith ticker ".P") && negb (endswith ticker ".H") then [ticker] else []
  | None =>
      match py_split part with
      | [] => []
      | words =>
          let candidate := strip (last words "") in
          match match_to_end is_plain_ticker candidate with
          | Some _ => [candidate]
          | None => []
          end
      end
  end.

(** Extract ticker symbols from the raw TSXV text blob. *)
Definition extract_tickers_from_raw (raw_text : string) : list string :=
  let raw_text := strip raw_text in
  let parts := re_split "TSXV" 0 raw_text in
  let parts := map strip (filter (fun p => negb (String.eqb (strip p) "")) parts) in
  flat_map part_tickers parts.

(** Load all already-known yfinance tickers from ingestion_status and
    tickers_raw; [None] is a file that does not exist. *)
Definition load_existing_tickers (status : option Status.t) (raw_data : option raw_json)
  : list string :=
  let existing : list string := [] in
  let existing :=
    match status with
    | Some status => (existing ++ Dict.keys (Status.tickers status))%list
    | None => existing
    end in
  match raw_data with
  | Some raw_data =>
      let all_tickers :=
        match raw_data with
        | RawList l => l
        | RawDict (Some l) => l
        | RawDict None => []
        | RawOther => []
        end in
      (existing ++ flat_map (fun t => match t with Some yf => [yf] | None => [] end)
                            all_tickers)%list
  | None => existing
  end.

(** [sorted(set(l))] *)
Fixpoint insert_sorted (x : string) (l : list string) : list string :=
  match l with
  | [] => [x]
  | y :: r =>
      match String.compare x y with
      | Lt => x :: l
      | Eq => l
      | Gt => y :: insert_sorted x r
      end
  end.

Definition sorted_set (l : list string) : list string := fold_right insert_sorted [] l.

(** The new tickers [main] writes to extra_tsxv_tickers.json. *)
Definition main (raw_text : string) (status : option Status.t) (raw_data : option raw_json)
  : list Entity.t :=
  let extracted := extract_tickers_from_raw raw_text in
  let unique_extracted := sorted_set extracted in
  let existing := load_existing_tickers status raw_data in
  flat_map (fun symbol =>
              let yf_ticker := (symbol ++ ".V")%string in
              if Dict.memb yf_ticker existing then []
              else [Entity.mk yf_ticker symbol "TSXV"])
           unique_extracted.

End ParseExtra.

(** ** A provider with more news items and officers than a record keeps *)

Definition demo_news (k : nat) : NewsRaw.t :=
  {| NewsRaw.title := Some ("headline " ++ digits_of_nat k);
     NewsRaw.publisher := None;
     NewsRaw.link := Some ("https://example.com/" ++ digits_of_nat k);
     NewsRaw.providerPublishTime := Some (1700000000 + Z.of_nat k)%Z |}.

Definition demo_officer (k : nat) : Officer.t :=
  {| Officer.name := Some ("officer " ++ digits_of_nat k);
     Officer.title := None |}.

Definition with_officers (info : Info.t) (l : option (list Officer.t)) : Info.t :=
  {| Info.keys := Info.keys info;
     Info.regularMarketPrice := Info.regularMarketPrice info;
     Info.currentPrice := Info.currentPrice info;
     Info.marketCap := Info.marketCap info;
     Info.previousClose := Info.previousClose info;
     Info.totalCash := Info.totalCash info;
     Info.totalDebt := Info.totalDebt info;
     Info.researchDevelopment := Info.researchDevelopment info;
     Info.operatingExpenses := Info.operatingExpenses info;
     Info.totalRevenue := Info.totalRevenue info;
     Info.sharesOutstanding := Info.sharesOutstanding info;
     Info.averageVolume := Info.averageVolume info;
     Info.heldPercentInsiders := Info.heldPercentInsiders info;
     Info.operatingCashflow := Info.operatingCashflow info;
     Info.shortName := Info.shortName info;
     Info.longName := Info.longName info;
     Info.industry := Info.industry info;
     Info.sector := Info.sector info;
     Info.companyOfficers := l |}.

(** Twelve news items and seven officers. *)
Definition busy_ticker : Ticker.t :=
  with_news
    (ticker_with
       (Ok (with_officers (info_with (Some (py_float 2)) (Some (PyInt 50000000)))
                          (Some (map demo_officer (seq 1 7))))))
    (Ok (map demo_news (seq 1 12))).

(** * Properties *)

(** ** Dictionaries *)

Module DictFacts.

Lemma get_set_same {V : Type} (d : Dict.t V) (k : string) (v : V) :
  Dict.get (Dict.set d k v) k = Some v.
Proof.
  induction d as [|[k' v'] r IH]; simpl.
  - now rewrite String.eqb_refl.
  - destruct (String.eqb k' k) eqn:E; simpl; rewrite E; auto.
Qed.

Lemma get_set_other {V : Type} (d : Dict.t V) (k k' : string) (v : V) :
  k <> k' -> Dict.get (Dict.set d k v) k' = Dict.get d k'.
Proof.
  intros Hne. induction d as [|[k0 v0] r IH]; simpl.
  - destruct (String.eqb k k') eqn:E; auto.
    apply String.eqb_eq in E. contradiction.
  - destruct (String.eqb k0 k) eqn:E; simpl.
    + apply String.eqb_eq in E. subst k0.
      destruct (String.eqb k k') eqn:E'; auto.
      apply String.eqb_eq in E'. contradiction.
    + now rewrite IH.
Qed.

Lemma set_absent {V : Type} (d : Dict.t V) (k : string) (v : V) :
  Dict.mem d k = false -> Dict.set d k v = (d ++ [(k, v)])%list.
Proof.
  unfold Dict.mem. induction d as [|[k' v'] r IH]; simpl; auto.
  destruct (String.eqb k' k) eqn:E; [discriminate|].
  intros H. now rewrite IH.
Qed.

Lemma keys_set_present {V : Type} (d : Dict.t V) (k : string) (v : V) :
  Dict.mem d k = true -> Dict.keys (Dict.set d k v) = Dict.keys d.
Proof.
  unfold Dict.mem, Dict.keys. induction d as [|[k' v'] r IH]; simpl.
  - discriminate.
  - destruct (String.eqb k' k) eqn:E; simpl; auto.
    intros H. now rewrite IH.
Qed.

Lemma mem_app_l {V : Type} (d d' : Dict.t V) (k : string) :
  Dict.mem d k = true -> Dict.get (d ++ d')%list k = Dict.get d k.
Proof.
  unfold Dict.mem. induction d as [|[k' v'] r IH]; simpl.
  - discriminate.
  - destruct (String.eqb k' k); auto.
Qed.

Lemma memb_In (k : string) (l : list string) :
  Dict.memb k l = true <-> In k l.
Proof.
  induction l as [|x r IH]; simpl.
  - split; [discriminate | tauto].
  - rewrite orb_true_iff, IH, String.eqb_eq. tauto.
Qed.

Lemma nodupb_NoDup (l : list string) :
  Dict.nodupb l = true <-> NoDup l.
Proof.
  induction l as [|x r IH]; simpl.
  - split; [constructor | reflexivity].
  - rewrite andb_true_iff, negb_true_iff, IH. split.
    + intros [Hm Hn]. constructor; auto.
      intros Hin. apply memb_In in Hin. congruence.
    + intros Hnd. inversion Hnd; subst. split; auto.
      destruct (Dict.memb x r) eqn:E; auto.
      apply memb_In in E. contradiction.
Qed.

Lemma mem_In_keys {V : Type} (d : Dict.t V) (k : string) :
  Dict.mem d k = true <-> In k (Dict.keys d).
Proof.
  unfold Dict.mem, Dict.keys. induction d as [|[k' v'] r IH]; simpl.
  - split; [discriminate | tauto].
  - destruct (String.eqb k' k) eqn:E.
    + apply String.eqb_eq in E. split; auto.
    + apply String.eqb_neq in E. rewrite IH. split; [auto | intros [H|H]; congruence].
Qed.

End DictFacts.

(** ** Merging the catalog *)

Lemma merge_tickers_cons tickers t all_tickers :
  merge_tickers tickers (t :: all_tickers)
  = merge_tickers (merge_step tickers t) all_tickers.
Proof. reflexivity. Qed.

Lemma merge_step_extends tickers t :
  exists added,
    merge_step tickers t = (tickers ++ added)%list
    /\ Forall (fun kv => TickerInfo.status (snd kv) = "pending") added.
Proof.
  unfold merge_step. destruct (Dict.mem tickers (Entity.yfinance_ticker t)) eqn:E.
  - exists []. now rewrite app_nil_r.
  - exists [(Entity.yfinance_ticker t, pending_info t)].
    split; [now apply DictFacts.set_absent | repeat constructor].
Qed.

Lemma merge_tickers_extends all_tickers : forall tickers,
  exists added,
    merge_tickers tickers all_tickers = (tickers ++ added)%list
    /\ Forall (fun kv => TickerInfo.status (snd kv) = "pending") added.
Proof.
  induction all_tickers as [|t r IH]; intros tickers.
  - exists []. simpl. now rewrite app_nil_r.
  - rewrite merge_tickers_cons.
    destruct (merge_step_extends tickers t) as [a1 [E1 F1]].
    destruct (IH (merge_step tickers t)) as [a2 [E2 F2]].
    exists (a1 ++ a2)%list. split.
    + now rewrite E2, E1, app_assoc.
    + apply Forall_app; auto.
Qed.

Lemma mem_extends (tickers added : Dict.t TickerInfo.t) k :
  Dict.mem tickers k = true -> Dict.mem (tickers ++ added)%list k = true.
Proof.
  intros H. unfold Dict.mem. rewrite DictFacts.mem_app_l by exact H.
  exact H.
Qed.

Lemma merge_tickers_keeps_mem all_tickers tickers k :
  Dict.mem tickers k = true -> Dict.mem (merge_tickers tickers all_tickers) k = true.
Proof.
  intros H. destruct (merge_tickers_extends all_tickers tickers) as [a [E _]].
  rewrite E. now apply mem_extends.
Qed.

Lemma merge_tickers_keeps_get all_tickers tickers k :
  Dict.mem tickers k = true ->
  Dict.get (merge_tickers tickers all_tickers) k = Dict.get tickers k.
Proof.
  intros H. destruct (merge_tickers_extends all_tickers tickers) as [a [E _]].
  rewrite E. now apply DictFacts.mem_app_l.
Qed.

Lemma merge_step_mem tickers t :
  Dict.mem (merge_step tickers t) (Entity.yfinance_ticker t) = true.
Proof.
  unfold merge_step. destruct (Dict.mem tickers (Entity.yfinance_ticker t)) eqn:E; auto.
  unfold Dict.mem. now rewrite DictFacts.get_set_same.
Qed.

Lemma merge_tickers_covers all_tickers : forall tickers,
  Forall (fun t => Dict.mem (merge_tickers tickers all_tickers) (Entity.yfinance_ticker t) = true)
         all_tickers.
Proof.
  induction all_tickers as [|t r IH]; intros tickers; constructor.
  - rewrite merge_tickers_cons. apply merge_tickers_keeps_mem, merge_step_mem.
  - rewrite merge_tickers_cons. apply IH.
Qed.

Lemma merge_tickers_known all_tickers : forall tickers,
  Forall (fun t => Dict.mem tickers (Entity.yfinance_ticker t) = true) all_tickers ->
  merge_tickers tickers all_tickers = tickers.
Proof.
  induction all_tickers as [|t r IH]; intros tickers H; auto.
  inversion H; subst. rewrite merge_tickers_cons.
  unfold merge_step. rewrite H2. now apply IH.
Qed.

(** C7. Merging the catalog twice gives the store that merging it once
    gives; a merge only appends Pending records after the records already
    there, which keep their place and content; and every entity of the
    catalog is in the merged store. *)
Theorem merge_tickers_idempotent (tickers : Dict.t TickerInfo.t) (all_tickers : list Entity.t) :
  merge_tickers (merge_tickers tickers all_tickers) all_tickers
  = merge_tickers tickers all_tickers
  /\ (exists added,
        merge_tickers tickers all_tickers = (tickers ++ added)%list
        /\ Forall (fun kv => TickerInfo.status (snd kv) = "pending") added)
  /\ Forall (fun t => Dict.mem (merge_tickers tickers all_tickers)
                               (Entity.yfinance_ticker t) = true) all_tickers.
Proof.
  split; [|split].
  - apply merge_tickers_known, merge_tickers_covers.
  - apply merge_tickers_extends.
  - apply merge_tickers_covers.
Qed.

(** ** Saving the status document *)

Lemma replay_app tr1 tr2 d :
  replay (tr1 ++ tr2)%list d = replay tr2 (replay tr1 d).
Proof. apply fold_left_app. Qed.

Lemma replay_put_status n : forall doc w out,
  replay (repeat PutStatus n) (mk_disk (Some (mk_status_file doc w)) out)
  = mk_disk (Some (mk_status_file doc (n + w))) out.
Proof.
  induction n as [|n IH]; intros doc w out; simpl; auto.
  unfold replay in IH. rewrite IH. now rewrite Nat.add_succ_r.
Qed.

Lemma firstn_repeat {A : Type} (x : A) n k :
  firstn k (repeat x n) = repeat x (Nat.min k n).
Proof.
  revert k. induction n as [|n IH]; intros [|k]; simpl; auto.
  now rewrite IH.
Qed.

(** The disk at every crash point of a save: untouched before the file is
    opened, then the document with a growing number of characters. *)
Lemma crash_at_save status now d k :
  crash_at (S k) (trace (save_status status now)) d
  = mk_disk
      (Some (mk_status_file (stamp_status status now)
               (Nat.min k (String.length (json_dump (stamp_status status now))))))
      (STOCK_DATA_DIR d).
Proof.
  unfold crash_at, save_status, trace, fst.
  rewrite firstn_cons, firstn_repeat.
  change (replay (?x :: ?l) d) with (replay l (apply_event d x)).
  simpl apply_event. rewrite replay_put_status. now rewrite Nat.add_0_r.
Qed.

Lemma replay_save status now d :
  replay (trace (save_status status now)) d
  = mk_disk
      (Some (mk_status_file (stamp_status status now)
               (String.length (json_dump (stamp_status status now)))))
      (STOCK_DATA_DIR d).
Proof.
  unfold save_status, trace, fst.
  change (replay (?x :: ?l) d) with (replay l (apply_event d x)).
  simpl apply_event. rewrite replay_put_status. now rewrite Nat.add_0_r.
Qed.

Lemma json_load_whole doc :
  json_load (mk_status_file doc (String.length (json_dump doc))) = Ok doc.
Proof.
  unfold json_load, status_file_complete. simpl. now rewrite Nat.leb_refl.
Qed.

Lemma counters_add_up (tickers : Dict.t TickerInfo.t) :
  forallb (fun kv => known_status (TickerInfo.status (snd kv))) tickers = true ->
  List.length tickers
  = (count_status "completed" tickers + count_status "failed" tickers
     + count_status "skipped" tickers + count_status "pending" tickers)%nat.
Proof.
  unfold count_status, Dict.values.
  induction tickers as [|[k v] r IH]; simpl; auto.
  rewrite andb_true_iff. intros [Hk Hr]. specialize (IH Hr).
  unfold known_status in Hk.
  destruct (String.eqb_spec (TickerInfo.status v) "completed") as [E1|E1].
  { rewrite E1. simpl. lia. }
  destruct (String.eqb_spec (TickerInfo.status v) "failed") as [E2|E2].
  { rewrite E2. simpl. lia. }
  destruct (String.eqb_spec (TickerInfo.status v) "skipped") as [E3|E3].
  { rewrite E3. simpl. lia. }
  destruct (String.eqb_spec (TickerInfo.status v) "pending") as [E4|E4].
  { simpl. lia. }
  discriminate.
Qed.

(** C8. A save hands [json.dump] a document whose counters are
    [summarize] of its mapping, whatever the counters were before; that is
    the document a load finds once the save has run to its end; and when
    every record has one of the four statuses, the total is the sum of the
    four counters. *)
Theorem save_status_recomputes_stats (status : Status.t) (now : string) (d : disk) :
  snd (save_status status now) = Some (stamp_status status now)
  /\ Status.stats (stamp_status status now) = summarize (Status.tickers status)
  /\ Status.tickers (stamp_status status now) = Status.tickers status
  /\ (forall e, load_status e (replay (trace (save_status status now)) d)
                = ret (stamp_status status now))
  /\ (forallb (fun kv => known_status (TickerInfo.status (snd kv)))
              (Status.tickers status) = true ->
      let s := Status.stats (stamp_status status now) in
      Stats.total s
      = (Stats.completed s + Stats.failed s + Stats.skipped s + Stats.pending s)%nat).
Proof.
  repeat split; auto.
  - intros e. rewrite replay_save. unfold load_status. cbn [STATUS_FILE].
    now rewrite json_load_whole.
  - intros H. simpl. now apply counters_add_up.
Qed.

Lemma save_status_recomputes_stats_witness :
  let status :=
    {| Status.started_at := "t0"; Status.last_updated := "t0";
       Status.tickers :=
         [("A.TO", TickerInfo.mk "completed" "A" "TSX" None (Some (PyInt 50000000)) (Some "A"));
          ("B.V", TickerInfo.mk "pending" "B" "TSXV" None None None)];
       Status.stats := Stats.mk 7 7 7 7 7 |} in
  Status.stats (stamp_status status "t1") = Stats.mk 2 1 0 0 1
  /\ (2 = 1 + 0 + 0 + 1)%nat.
Proof.
  intros status.
  destruct (save_status_recomputes_stats status "t1" empty_disk)
    as [_ [Hs [_ [_ Hsum]]]].
  split.
  - rewrite Hs. reflexivity.
  - apply Hsum. reflexivity.
Defined.

(** ** Crash points of a save *)

Lemma substring_min (s : string) : forall k,
  substring 0 (Nat.min k (String.length s)) s = substring 0 k s.
Proof.
  induction s as [|c r IH]; intros [|k]; simpl; auto.
  now rewrite IH.
Qed.

(** C1 (as the code has it). A save opens the status file for writing,
    which empties it, and then writes the new document into it.  Before
    the first event the disk is untouched; after [k] characters the file
    holds the first [k] characters of the new document, which load only
    when they are all of it; the output files are not touched. *)
Theorem save_status_crash_points (status : Status.t) (now : string) (d : disk) (k : nat) :
  let doc := stamp_status status now in
  let tr := trace (save_status status now) in
  crash_at 0 tr d = d
  /\ (exists f,
        STATUS_FILE (crash_at (S k) tr d) = Some f
        /\ status_file_content f = substring 0 k (json_dump doc)
        /\ json_load f
           = if (String.length (json_dump doc) <=? k)%nat then Ok doc
             else Raise "JSONDecodeError")
  /\ STOCK_DATA_DIR (crash_at (S k) tr d) = STOCK_DATA_DIR d
  /\ replay tr d = disk_with_status doc (STOCK_DATA_DIR d).
Proof.
  intros doc tr. split; [reflexivity|]. unfold tr. rewrite crash_at_save.
  split; [|split; [reflexivity | apply replay_save]].
  eexists. split; [reflexivity|]. split.
  - unfold status_file_content. cbn [sf_doc sf_written]. apply substring_min.
  - unfold json_load, status_file_complete. cbn [sf_doc sf_written]. fold doc.
    destruct (Nat.leb_spec (String.length (json_dump doc)) k) as [H|H].
    + rewrite Nat.min_r by exact H. now rewrite Nat.leb_refl.
    + rewrite Nat.min_l by lia.
      destruct (Nat.leb_spec (String.length (json_dump doc)) k); [lia | reflexivity].
Qed.

(** C1 fails as stated: a crash right after the status file is opened
    leaves an empty file, which is neither the document saved before nor
    the new one, and which does not load. *)
Lemma save_status_not_atomic :
  let old := demo_status_pending in
  let d := disk_with_status old Dict.empty in
  let status := with_tickers old (merge_tickers (Status.tickers old) demo_catalog) in
  let new := stamp_status status "2024-01-02T00:00:00+00:00" in
  let d1 := crash_at 1 (trace (save_status status "2024-01-02T00:00:00+00:00")) d in
  load_status demo_env d = ret old
  /\ (exists f, STATUS_FILE d1 = Some f /\ status_file_content f = "")
  /\ load_status demo_env d1 = abort
  /\ load_status demo_env d1 <> ret old
  /\ load_status demo_env d1 <> ret new.
Proof.
  cbv zeta. split; [|split; [|split; [|split]]].
  - unfold load_status, disk_with_status. cbn [STATUS_FILE].
    now rewrite json_load_whole.
  - eexists. split; reflexivity.
  - vm_compute. reflexivity.
  - vm_compute. discriminate.
  - vm_compute. discriminate.
Qed.

(** ** The fetch worker: the size filter *)






Lemma compute_derived_Ok price prev opex rev shares pct price_change monthly_burn insider_shares :
  compute_derived price prev opex rev shares pct
  = Ok (price_change, monthly_burn, insider_shares) ->
  compute_price_change price prev = Ok price_change
  /\ compute_monthly_burn opex rev = Ok monthly_burn
  /\ compute_insider_shares shares pct = Ok insider_shares.
Proof.
  unfold compute_derived.
  destruct (compute_price_change price prev) as [a|e]; [|discriminate].
  destruct (compute_monthly_burn opex rev) as [b|e]; [|discriminate].
  destruct (compute_insider_shares shares pct) as [c|e]; [|discriminate].
  intros H. injection H as -> -> ->. auto.
Qed.





(** ** The fetch worker: derived fields *)

Lemma compute_price_change_Ok current prev r :
  compute_price_change current prev = Ok r ->
  match current, prev with
  | Some c, Some p => exists d, py_sub c p = Ok d /\ r = Some (py_round d 4)
  | _, _ => r = None
  end.
Proof.
  unfold compute_price_change. destruct current as [c|], prev as [p|];
    try (intros H; now injection H as <-).
  destruct (py_sub c p) as [d|e]; [|discriminate].
  intros H. injection H as <-. now exists d.
Qed.

Lemma compute_monthly_burn_Ok opex rev r :
  compute_monthly_burn opex rev = Ok r ->
  match opex, rev with
  | Some o, Some v =>
      exists d q, py_sub o v = Ok d /\ py_truediv d 12 = Ok q /\ r = Some (py_round q 2)
  | _, _ => r = None
  end.
Proof.
  unfold compute_monthly_burn. destruct opex as [o|], rev as [v|];
    try (intros H; now injection H as <-).
  destruct (py_sub o v) as [d|e]; [|discriminate].
  destruct (py_truediv d 12) as [q|e] eqn:Hq; [|discriminate].
  intros H. injection H as <-. exists d, q. repeat split. exact Hq.
Qed.

Lemma compute_insider_shares_Ok shares insider_pct r :
  compute_insider_shares shares insider_pct = Ok r ->
  match shares, insider_pct with
  | Some s, Some p => exists m z, py_mul s p = Ok m /\ py_int m = Ok z /\ r = Some z
  | _, _ => r = None
  end.
Proof.
  unfold compute_insider_shares. destruct shares as [s|], insider_pct as [p|];
    try (intros H; now injection H as <-).
  destruct (py_mul s p) as [m|e]; [|discriminate].
  destruct (py_int m) as [z|e] eqn:Hz; [|discriminate].
  intros H. injection H as <-. exists m, z. repeat split. exact Hz.
Qed.

(** C4 (as the code has it). In the record of a completed fetch each
    derived field is null when one of its operands is null and otherwise
    is: price change, the float or int difference of the price and the
    previous close, rounded to 4 decimals when it is a float; monthly
    burn, the difference of operating expenses and revenue divided by 12
    as a float and rounded to 2 decimals; insider shares, the float
    product of shares outstanding and the insider fraction truncated to
    an integer; days since the last news item, the whole days from the
    latest publication time to now, when there is an item and that time
    is positive.  No operation of these raised, or there would be no
    record. *)
Theorem derived_fields_gated t now yf_ticker symbol exchange data s reason :
  fetch_ticker_data t now yf_ticker symbol exchange = (Some data, s, reason) ->
  s = "completed"
  /\ (exists info,
        Ticker.info t = Ok info
        /\ Data.price data = or_num (Info.currentPrice info) (Info.regularMarketPrice info)
        /\ Data.previous_close data = Info.previousClose info
        /\ Data.total_opex data = Info.operatingExpenses info
        /\ Data.revenue data = Info.totalRevenue info
        /\ Data.shares_current data = Info.sharesOutstanding info
        /\ Data.held_percent_insiders data = Info.heldPercentInsiders info)
  /\ match Data.price data, Data.previous_close data with
     | Some current, Some prev =>
         exists d,
           py_sub current prev = Ok d
           /\ Data.price_change data = Some (py_round d 4)
     | _, _ => Data.price_change data = None
     end
  /\ match Data.total_opex data, Data.revenue data with
     | Some opex, Some rev =>
         exists d q,
           py_sub opex rev = Ok d
           /\ py_truediv d 12 = Ok q
           /\ Data.monthly_burn data = Some (py_round q 2)
     | _, _ => Data.monthly_burn data = None
     end
  /\ match Data.shares_current data, Data.held_percent_insiders data with
     | Some shares, Some insider_pct =>
         exists m z,
           py_mul shares insider_pct = Ok m
           /\ py_int m = Ok z
           /\ Data.insider_shares data = Some z
     | _, _ => Data.insider_shares data = None
     end
  /\ Data.days_since_last_pr data
     = match Data.news_items data with
       | [] => None
       | first :: rest =>
           if (0 <? max_published first rest)%Z
           then Some ((seconds now - max_published first rest) / 86400)%Z
           else None
       end.
Proof.
  unfold fetch_ticker_data. intros H.
  destruct (Ticker.info t) as [info|e]; [|discriminate].
  destruct (no_market_data info); [discriminate|].
  destruct (Info.marketCap info) as [cap|]; [|discriminate].
  destruct (py_lt_int cap MARKET_CAP_MIN);
    [destruct (format_comma_0f cap); discriminate|].
  destruct (py_gt_int cap MARKET_CAP_MAX);
    [destruct (format_comma_0f cap); discriminate|].
  destruct (compute_days_since_last_pr _ _) as [days|e] eqn:Hd; [|discriminate].
  destruct (compute_derived _ _ _ _ _ _) as [[[pc mb] ins]|e] eqn:Hder; [|discriminate].
  apply compute_derived_Ok in Hder. destruct Hder as [Hp [Hb Hs']].
  apply compute_price_change_Ok in Hp. apply compute_monthly_burn_Ok in Hb.
  apply compute_insider_shares_Ok in Hs'.
  injection H as Hdata Hs _. subst data. split; [now symmetry|].
  split; [exists info; repeat split; reflexivity|].
  cbn [Data.price_change Data.monthly_burn Data.insider_shares Data.price
       Data.previous_close Data.total_opex Data.revenue Data.shares_current
       Data.held_percent_insiders Data.days_since_last_pr Data.news_items].
  split; [exact Hp|]. split; [exact Hb|]. split; [exact Hs'|].
  unfold compute_days_since_last_pr in Hd.
  destruct (read_news (Ticker.news t)) as [|first rest]; [congruence|].
  destruct (0 <? max_published first rest)%Z; [|congruence].
  unfold fromtimestamp in Hd.
  destruct (max_published first rest <=? MAX_TIMESTAMP)%Z; congruence.
Qed.

(** The three examples: 10.5 and 10.0 give 0.5; 1,200,000 and 0 give
    100,000.0; 1,000,000 and 0.15 give 150000; and days is null without
    news.  Without a previous close, operating expenses and an insider
    fraction the three computed fields are null. *)
Lemma derived_fields_gated_witness :
  (exists data,
     fetch_ticker_data
       (ticker_with
          (Ok (info_financials (Some (py_float 10.5)) (Some (py_float 10))
                               (Some (PyInt 1200000)) (Some (PyInt 0))
                               (Some (PyInt 1000000)) (Some (py_float 0.15)))))
       (mk_stamp "t" 0) "A.TO" "A" "TSX" = (Some data, "completed", None)
     /\ Data.price_change data = Some (py_float 0.5)
     /\ Data.monthly_burn data = Some (py_float 100000)
     /\ Data.insider_shares data = Some 150000%Z
     /\ Data.days_since_last_pr data = None)
  /\ (exists data,
        fetch_ticker_data
          (ticker_with
             (Ok (info_financials (Some (py_float 10.5)) None None (Some (PyInt 0))
                                  (Some (PyInt 1000000)) None)))
          (mk_stamp "t" 0) "A.TO" "A" "TSX" = (Some data, "completed", None)
        /\ Data.price_change data = None
        /\ Data.monthly_burn data = None
        /\ Data.insider_shares data = None
        /\ Data.days_since_last_pr data = None).
Proof.
  split.
  - destruct (fetch_ticker_data
                (ticker_with
                   (Ok (info_financials (Some (py_float 10.5)) (Some (py_float 10))
                                        (Some (PyInt 1200000)) (Some (PyInt 0))
                                        (Some (PyInt 1000000)) (Some (py_float 0.15)))))
                (mk_stamp "t" 0) "A.TO" "A" "TSX") as [[[data|] s] reason] eqn:E;
      [|vm_compute in E; discriminate].
    destruct (derived_fields_gated _ _ _ _ _ _ _ _ E) as [Hs [_ [Hp [Hb [Hi Hd]]]]].
    vm_compute in E. injection E as E1 E2 E3. subst data s reason.
    eexists. split; [reflexivity|].
    destruct Hp as [d [Hp1 Hp2]]. vm_compute in Hp1. injection Hp1 as <-.
    destruct Hb as [d [q [Hb1 [Hb2 Hb3]]]]. vm_compute in Hb1. injection Hb1 as <-.
    vm_compute in Hb2. injection Hb2 as <-.
    destruct Hi as [m [z [Hi1 [Hi2 Hi3]]]]. vm_compute in Hi1. injection Hi1 as <-.
    vm_compute in Hi2. injection Hi2 as <-.
    split; [rewrite Hp2; vm_compute; reflexivity|].
    split; [rewrite Hb3; vm_compute; reflexivity|].
    split; [exact Hi3 | exact Hd].
  - destruct (fetch_ticker_data
                (ticker_with
                   (Ok (info_financials (Some (py_float 10.5)) None None (Some (PyInt 0))
                                        (Some (PyInt 1000000)) None)))
                (mk_stamp "t" 0) "A.TO" "A" "TSX") as [[[data|] s] reason] eqn:E;
      [|vm_compute in E; discriminate].
    destruct (derived_fields_gated _ _ _ _ _ _ _ _ E) as [Hs [_ [Hp [Hb [Hi Hd]]]]].
    vm_compute in E. injection E as E1 E2 E3. subst data s reason.
    eexists. split; [reflexivity|].
    split; [exact Hp|]. split; [exact Hb|]. split; [exact Hi | exact Hd].
Defined.

(** C4 fails as stated.  The fields are not the exact values: operating
    expenses of 100 and no revenue give a monthly burn of 8.33, which is
    not 100 / 12; a price of 10.00004 after a close of 10 gives a price
    change of 0.0; 100 shares and an insider fraction of 0.29 give 28
    insider shares, the float product 28.999999999999996 being truncated,
    where the product rounded to an integer is 29.  And the computation
    can raise: 10^400 shares outstanding cannot be converted to a float
    for the product, and the fetch fails. *)
Lemma derived_fields_not_exact :
  derived_fields
    (fetch_ticker_data
       (ticker_with
          (Ok (info_financials (Some (py_float 10.00004)) (Some (py_float 10))
                               (Some (PyInt 100)) (Some (PyInt 0))
                               (Some (PyInt 100)) (Some (py_float 0.29)))))
       (mk_stamp "t" 0) "A.TO" "A" "TSX")
  = Some (Some (py_float 0), Some (py_float 8.33), Some 28%Z, None)
  /\ ~ (8.33 == (100 - 0) / 12)%Q
  /\ ~ (0 == 10.00004 - 10)%Q
  /\ round_half_even (100 * 0.29) = 29%Z
  /\ py_mul (PyInt 100) (py_float 0.29)
     = Ok (PyFloat (S754_finite false 8162774324609023 (-48)))
  /\ fetch_ticker_data
       (ticker_with
          (Ok (info_financials (Some (py_float 10.5)) (Some (py_float 10))
                               None None
                               (Some (PyInt (10 ^ 400))) (Some (py_float 0.5)))))
       (mk_stamp "t" 0) "A.TO" "A" "TSX"
     = (None, "failed", Some "int too large to convert to float").
Proof.
  split; [vm_compute; reflexivity|].
  split; [intros H; vm_compute in H; discriminate|].
  split; [intros H; vm_compute in H; discriminate|].
  repeat split; vm_compute; reflexivity.
Qed.

(** ** What the roundings do *)

Lemma round_half_even_near (q : Q) :
  (q - (1 # 2) <= inject_Z (round_half_even q) <= q + (1 # 2))%Q.
Proof.
  unfold round_half_even.
  pose proof (Qfloor_le q) as Hlo. pose proof (Qlt_floor q) as Hhi.
  rewrite inject_Z_plus in Hhi. change (inject_Z 1) with 1%Q in Hhi.
  destruct (Qcompare (q - inject_Z (Qfloor q)) (1 # 2)) eqn:E.
  - apply Qeq_alt in E. destruct (Z.even (Qfloor q)).
    + split; lra.
    + rewrite inject_Z_plus. change (inject_Z 1) with 1%Q. split; lra.
  - apply Qlt_alt in E. split; lra.
  - apply Qgt_alt in E. rewrite inject_Z_plus. change (inject_Z 1) with 1%Q.
    split; lra.
Qed.

Lemma pow10_pos (n : nat) : (0 < pow10 n)%Q.
Proof.
  unfold pow10. change 0%Q with (inject_Z 0). rewrite <- Zlt_Qlt.
  apply Z.pow_pos_nonneg; lia.
Qed.

(** The operations on two ints are exact and never raise; rounding
    an int leaves it as it is. *)
Lemma int_arithmetic_exact (a b : Z) (n : nat) :
  py_sub (PyInt a) (PyInt b) = Ok (PyInt (a - b))
  /\ py_mul (PyInt a) (PyInt b) = Ok (PyInt (a * b))
  /\ py_int (PyInt a) = Ok a
  /\ py_round (PyInt a) n = PyInt a.
Proof. repeat split. Qed.

(** [int(x)] drops the fraction of a float that has a value: it is the
    floor of a value that is not negative and the ceiling of one that is
    not positive. *)
Lemma py_int_truncates (f : spec_float) (v : Q) :
  number_value (PyFloat f) = Some v ->
  exists z, py_int (PyFloat f) = Ok z
            /\ ((0 <= v)%Q -> z = Qfloor v)
            /\ ((v <= 0)%Q -> z = Qceiling v).
Proof.
  intros Hv.
  assert (Hq : forall x : Q,
             ((0 <= x)%Q -> Z.quot (Qnum x) (Zpos (Qden x)) = Qfloor x)
             /\ ((x <= 0)%Q -> Z.quot (Qnum x) (Zpos (Qden x)) = Qceiling x)).
  { intros [n d]. unfold Qceiling, Qfloor, Qle. simpl.
    rewrite !Z.mul_1_r. split; intros H.
    - apply Z.quot_div_nonneg; lia.
    - replace n with (- - n)%Z at 1 by lia.
      rewrite Z.quot_opp_l by lia. f_equal.
      apply Z.quot_div_nonneg; lia. }
  destruct f as [s|s| |s m e]; simpl in Hv; try discriminate;
    injection Hv as <-; eexists; (split; [reflexivity | apply Hq]).
Qed.

(** ** The fetch worker: supplementary data *)




(** ** Crash specifications *)

Lemma trace_bind {A B : Type} (m : M A) (k : A -> M B) :
  trace (bind m k)
  = (trace m ++ match snd m with Some a => trace (k a) | None => [] end)%list.
Proof.
  destruct m as [tr [a|]]; simpl.
  - destruct (k a); reflexivity.
  - now rewrite app_nil_r.
Qed.

Lemma snd_bind {A B : Type} (m : M A) (k : A -> M B) :
  snd (bind m k) = match snd m with Some a => snd (k a) | None => None end.
Proof.
  destruct m as [tr [a|]]; simpl; auto. destruct (k a); reflexivity.
Qed.

Lemma triple_ret {A : Type} (a : A) (Pre Crash : list event -> Prop)
    (Post : A -> list event -> Prop) :
  (forall h, Pre h -> Crash h /\ Post a h) ->
  triple Pre (ret a) Crash Post.
Proof.
  intros H h Hpre. destruct (H h Hpre) as [Hc Hp]. split.
  - intros k. simpl. rewrite firstn_nil, app_nil_r. exact Hc.
  - exists a. simpl. rewrite app_nil_r. auto.
Qed.

Lemma triple_bind {A B : Type} (m : M A) (k : A -> M B)
    (Pre Crash : list event -> Prop) (Mid : A -> list event -> Prop)
    (Post : B -> list event -> Prop) :
  triple Pre m Crash Mid ->
  (forall a, triple (Mid a) (k a) Crash Post) ->
  triple Pre (bind m k) Crash Post.
Proof.
  intros Hm Hk h Hpre. destruct (Hm h Hpre) as [Hc [a [Ha Hmid]]].
  destruct (Hk a _ Hmid) as [Hc' [b [Hb Hpost]]].
  rewrite trace_bind, snd_bind, Ha. split.
  - intros n. rewrite firstn_app.
    destruct (Nat.le_gt_cases n (List.length (trace m))) as [Hle|Hgt].
    + replace (n - List.length (trace m))%nat with 0%nat by lia.
      rewrite firstn_O, app_nil_r. apply Hc.
    + rewrite firstn_all2 by lia. rewrite app_assoc. apply Hc'.
  - exists b. split; auto. now rewrite app_assoc.
Qed.

Lemma triple_weaken {A : Type} (m : M A) (Pre Pre' Crash : list event -> Prop)
    (Post Post' : A -> list event -> Prop) :
  triple Pre m Crash Post ->
  (forall h, Pre' h -> Pre h) ->
  (forall a h, Post a h -> Post' a h) ->
  triple Pre' m Crash Post'.
Proof.
  intros H Hpre Hpost h Hh. destruct (H h (Hpre h Hh)) as [Hc [a [Ha Hp]]].
  split; auto. exists a. auto.
Qed.

Lemma process_batch_cons e status yf_ticker rest :
  process_batch e status (yf_ticker :: rest)
  = bind (process_ticker e status yf_ticker) (fun status' => process_batch e status' rest).
Proof. reflexivity. Qed.

Lemma run_batches_cons e status batch rest batch_num :
  run_batches e status (batch :: rest) batch_num
  = bind (process_batch e status batch)
      (fun status' =>
         bind (save_status status' (clock_save e (S batch_num)))
           (fun status'' => run_batches e status'' rest (S batch_num))).
Proof. reflexivity. Qed.

(** A specification of the loop over a batch follows from one of its body,
    the invariant [I] being told the tickers still to come. *)
Lemma process_batch_triple e (I : Status.t -> list string -> list event -> Prop)
    (Crash : list event -> Prop) :
  (forall status todo h, I status todo h -> Crash h) ->
  (forall status yf_ticker rest,
      triple (I status (yf_ticker :: rest)) (process_ticker e status yf_ticker)
             Crash (fun status' => I status' rest)) ->
  forall batch later status,
    triple (I status (batch ++ later)%list) (process_batch e status batch)
           Crash (fun status' => I status' later).
Proof.
  intros Hcrash Hbody. induction batch as [|yf_ticker rest IH]; intros later status.
  - apply triple_ret. intros h Hh. split; [eapply Hcrash; eauto | exact Hh].
  - rewrite process_batch_cons. eapply triple_bind.
    + apply Hbody.
    + intros status'. apply IH.
Qed.

(** And one of the loop over the batches from those of a batch and of a
    save. *)
Lemma run_batches_triple e (I : Status.t -> list string -> list event -> Prop)
    (Crash : list event -> Prop) :
  (forall status todo h, I status todo h -> Crash h) ->
  (forall status yf_ticker rest,
      triple (I status (yf_ticker :: rest)) (process_ticker e status yf_ticker)
             Crash (fun status' => I status' rest)) ->
  (forall status todo now,
      triple (I status todo) (save_status status now) Crash (fun status' => I status' todo)) ->
  forall bs status batch_num,
    triple (I status (List.concat bs)) (run_batches e status bs batch_num)
           Crash (fun status' => I status' []).
Proof.
  intros Hcrash Hbody Hsave. induction bs as [|batch rest IH]; intros status batch_num.
  - apply triple_ret. intros h Hh. split; [eapply Hcrash; eauto | exact Hh].
  - rewrite run_batches_cons. simpl List.concat. eapply triple_bind.
    + apply process_batch_triple; eauto.
    + intros status'. eapply triple_bind.
      * apply Hsave.
      * intros status''. apply IH.
Qed.

(** ** The structure of a run *)

Lemma skipn_length_lt {A : Type} (size : nat) (l : list A) :
  (0 < size)%nat -> l <> [] -> (List.length (skipn size l) < List.length l)%nat.
Proof.
  intros Hs Hl. rewrite length_skipn. destruct l; [congruence|]. cbn [List.length]. lia.
Qed.

Lemma batches_from_concat (size : nat) :
  (0 < size)%nat ->
  forall fuel pending, (List.length pending <= fuel)%nat ->
    List.concat (batches_from fuel size pending) = pending.
Proof.
  intros Hs. induction fuel as [|fuel IH]; intros pending Hlen.
  - destruct pending; [reflexivity | simpl in Hlen; lia].
  - destruct pending as [|x r]; [reflexivity|].
    change (batches_from (S fuel) size (x :: r))
      with (firstn size (x :: r) :: batches_from fuel size (skipn size (x :: r))).
    simpl List.concat. rewrite IH.
    + apply firstn_skipn.
    + pose proof (skipn_length_lt size (x :: r) Hs ltac:(discriminate)) as H.
      change (List.length (x :: r)) with (S (List.length r)) in *. lia.
Qed.

Lemma batches_concat (pending : list string) :
  List.concat (batches BATCH_SIZE pending) = pending.
Proof.
  apply batches_from_concat; [unfold BATCH_SIZE; lia | lia].
Qed.

Lemma load_status_trace e d : trace (load_status e d) = [].
Proof.
  unfold load_status. destruct (STATUS_FILE d) as [f|]; [|reflexivity].
  destruct (json_load f); reflexivity.
Qed.

Lemma main_unfold e d :
  main e d
  = match TICKERS_FILE e with
    | None => ret tt
    | Some all_tickers => bind (load_status e d) (main_after_load e all_tickers)
    end.
Proof. reflexivity. Qed.

Lemma triple_save_tickers status now (Pre Crash : list event -> Prop)
    (Post : Status.t -> list event -> Prop) :
  triple Pre (save_status status now) Crash Post ->
  triple Pre (save_status status now) Crash
         (fun status' h => Status.tickers status' = Status.tickers status /\ Post status' h).
Proof.
  intros H h Hh. destruct (H h Hh) as [Hc [a [Ha Hp]]]. split; auto.
  exists a. split; auto. split; auto.
  unfold save_status in Ha. simpl in Ha. injection Ha as <-. reflexivity.
Qed.

(** A crash condition holds all along a run when it holds of the empty
    history, the first save establishes the loop invariant for the
    pending tickers, and the body and the save maintain it. *)
Lemma main_crash e d (I : Status.t -> list string -> list event -> Prop)
    (Crash : list event -> Prop) :
  Crash [] ->
  (forall status todo h, I status todo h -> Crash h) ->
  (forall status yf_ticker rest,
      triple (I status (yf_ticker :: rest)) (process_ticker e status yf_ticker)
             Crash (fun status' => I status' rest)) ->
  (forall status todo now,
      triple (I status todo) (save_status status now) Crash (fun status' => I status' todo)) ->
  (forall all_tickers status0,
      TICKERS_FILE e = Some all_tickers ->
      load_status e d = ret status0 ->
      triple (fun h => h = [])
        (save_status
           (with_tickers status0 (merge_tickers (Status.tickers status0) all_tickers))
           (clock_save e 0))
        Crash
        (fun status =>
           I status (pending_tickers (merge_tickers (Status.tickers status0) all_tickers)))) ->
  forall k, Crash (firstn k (trace (main e d))).
Proof.
  intros Hnil Hcrash Hbody Hsave Hinit k. rewrite main_unfold.
  destruct (TICKERS_FILE e) as [all_tickers|] eqn:Hcat;
    [|simpl; now rewrite firstn_nil].
  rewrite trace_bind. rewrite load_status_trace. simpl app.
  destruct (load_status e d) as [tr0 [status0|]] eqn:Hload;
    [|simpl; now rewrite firstn_nil].
  assert (tr0 = []) as -> by (pose proof (load_status_trace e d) as H;
                              rewrite Hload in H; exact H).
  simpl snd. cbv iota beta.
  assert (T : triple (fun h => h = []) (main_after_load e all_tickers status0)
                     Crash (fun _ _ => True)).
  { unfold main_after_load. eapply triple_bind.
    - apply triple_save_tickers. apply (Hinit all_tickers status0 eq_refl eq_refl).
    - intros status.
      destruct (pending_tickers (Status.tickers status)) as [|p ps] eqn:Hp.
      + apply triple_ret. intros h [_ Hh]. split; [eapply Hcrash; eauto | trivial].
      + rewrite <- Hp. eapply triple_bind.
        * eapply triple_weaken.
          -- apply (run_batches_triple e I Crash Hcrash Hbody Hsave).
          -- intros h [Heq Hh]. rewrite batches_concat. rewrite Heq. exact Hh.
          -- intros a h Hh. exact Hh.
        * intros status'. eapply triple_bind; [apply Hsave|].
          intros status''. apply triple_ret.
          intros h Hh. split; [eapply Hcrash; eauto | trivial]. }
  destruct (T [] eq_refl) as [Hc _]. apply (Hc k).
Qed.

(** ** One ticker *)

Lemma classify_other_terminal ticker_info result_status reason :
  let ti' := classify_other ticker_info result_status reason in
  terminalb (TickerInfo.status ti') = true
  /\ TickerInfo.status ti' <> "completed".
Proof.
  unfold classify_other.
  destruct (String.eqb result_status "skipped");
    [|destruct (String.eqb result_status "no_data")];
    simpl; split; auto; discriminate.
Qed.

(** The new record is terminal, and the output file is written exactly
    when it is completed. *)
Lemma handle_result_spec e yf_ticker ticker_info r :
  let ti' := fst (handle_result e yf_ticker ticker_info r) in
  let writes := snd (handle_result e yf_ticker ticker_info r) in
  terminalb (TickerInfo.status ti') = true
  /\ ((writes = [] /\ TickerInfo.status ti' <> "completed")
      \/ (exists data, writes = [OpenOutput yf_ticker data; PutOutput yf_ticker]
                       /\ TickerInfo.status ti' = "completed")).
Proof.
  destruct r as [[data result_status] reason]. unfold handle_result.
  destruct (String.eqb result_status "completed"), data as [data|];
    try (destruct (classify_other_terminal ticker_info result_status reason) as [H1 H2];
         simpl; split; [exact H1 | left; split; [reflexivity | exact H2]]).
  destruct (output_error e yf_ticker) as [msg|]; simpl.
  - split; [reflexivity | left; split; [reflexivity | discriminate]].
  - split; [reflexivity | right; exists data; split; reflexivity].
Qed.

Lemma process_ticker_spec e status yf_ticker ticker_info :
  Dict.get (Status.tickers status) yf_ticker = Some ticker_info ->
  exists ti' writes,
    process_ticker e status yf_ticker
    = ((Fetch yf_ticker :: writes
        ++ [Assign yf_ticker (TickerInfo.status ticker_info) (TickerInfo.status ti');
            Processed yf_ticker])%list,
       Some (with_tickers status (Dict.set (Status.tickers status) yf_ticker ti')))
    /\ terminalb (TickerInfo.status ti') = true
    /\ ((writes = [] /\ TickerInfo.status ti' <> "completed")
        \/ (exists data, writes = [OpenOutput yf_ticker data; PutOutput yf_ticker]
                         /\ TickerInfo.status ti' = "completed")).
Proof.
  intros Hget. unfold process_ticker. rewrite Hget.
  pose proof (handle_result_spec e yf_ticker ticker_info
                (fetch_ticker_data (provider e yf_ticker) (clock_fetch e yf_ticker) yf_ticker
                   (TickerInfo.symbol ticker_info) (TickerInfo.exchange ticker_info))) as H.
  destruct (handle_result e yf_ticker ticker_info _) as [ti' writes].
  exists ti', writes. split; [reflexivity | exact H].
Qed.

Lemma Forall_firstn_of {A : Type} (P : A -> Prop) (l : list A) k :
  Forall P l -> Forall P (firstn k l).
Proof.
  intros H. rewrite <- (firstn_skipn k l) in H.
  apply Forall_app in H. tauto.
Qed.

Lemma status_of_set_same tickers k v :
  status_of (Dict.set tickers k v) k = Some (TickerInfo.status v).
Proof. unfold status_of. now rewrite DictFacts.get_set_same. Qed.

Lemma status_of_set_other tickers k k' v :
  k <> k' -> status_of (Dict.set tickers k v) k' = status_of tickers k'.
Proof. intros H. unfold status_of. now rewrite DictFacts.get_set_other. Qed.

(** ** The pending snapshot *)

Lemma pending_tickers_incl tickers k :
  In k (pending_tickers tickers) -> In k (Dict.keys tickers).
Proof.
  unfold pending_tickers, Dict.keys.
  induction tickers as [|[k' v] r IH]; simpl; auto.
  destruct (String.eqb (TickerInfo.status v) "pending"); simpl; intuition.
Qed.

Lemma pending_tickers_NoDup tickers :
  NoDup (Dict.keys tickers) -> NoDup (pending_tickers tickers).
Proof.
  unfold pending_tickers, Dict.keys.
  induction tickers as [|[k v] r IH]; simpl; intros H; [constructor|].
  inversion H; subst.
  destruct (String.eqb (TickerInfo.status v) "pending"); simpl; auto.
  constructor; auto. intros Hin. apply H2.
  now apply (pending_tickers_incl r k).
Qed.

Lemma pending_tickers_pending tickers k :
  NoDup (Dict.keys tickers) ->
  In k (pending_tickers tickers) ->
  status_of tickers k = Some "pending".
Proof.
  unfold pending_tickers, Dict.keys, status_of.
  induction tickers as [|[k' v] r IH]; simpl; intros Hnd Hin; [contradiction|].
  inversion Hnd; subst.
  destruct (String.eqb_spec k' k) as [->|Hne].
  - destruct (String.eqb_spec (TickerInfo.status v) "pending") as [E|E].
    + simpl. now rewrite E.
    + exfalso. apply H1. now apply (pending_tickers_incl r k).
  - destruct (String.eqb (TickerInfo.status v) "pending"); simpl in Hin.
    + destruct Hin as [Hin|Hin]; [congruence | auto].
    + auto.
Qed.

Lemma NoDup_snoc {A : Type} (l : list A) (x : A) :
  NoDup l -> ~ In x l -> NoDup (l ++ [x])%list.
Proof.
  induction l as [|y r IH]; simpl; intros Hnd Hin.
  - constructor; [tauto | constructor].
  - inversion Hnd; subst. constructor.
    + rewrite in_app_iff. simpl. intuition congruence.
    + apply IH; tauto.
Qed.

Lemma merge_step_wf tickers t :
  NoDup (Dict.keys tickers) -> NoDup (Dict.keys (merge_step tickers t)).
Proof.
  intros H. unfold merge_step.
  destruct (Dict.mem tickers (Entity.yfinance_ticker t)) eqn:E; auto.
  rewrite DictFacts.set_absent by exact E.
  unfold Dict.keys. rewrite map_app. simpl.
  apply NoDup_snoc; auto.
  intros Hin. apply DictFacts.mem_In_keys in Hin. congruence.
Qed.

Lemma merge_tickers_wf all_tickers : forall tickers,
  NoDup (Dict.keys tickers) -> NoDup (Dict.keys (merge_tickers tickers all_tickers)).
Proof.
  induction all_tickers as [|t r IH]; intros tickers H; auto.
  rewrite merge_tickers_cons. apply IH. now apply merge_step_wf.
Qed.

Lemma load_status_wf e d status :
  disk_wf d = true ->
  load_status e d = ret status ->
  NoDup (Dict.keys (Status.tickers status)).
Proof.
  unfold disk_wf, load_status. destruct (STATUS_FILE d) as [f|].
  - unfold json_load. destruct (status_file_complete f); [|discriminate].
    intros Hwf H. injection H as <-. now apply DictFacts.nodupb_NoDup.
  - intros _ H. injection H as <-. constructor.
Qed.

Lemma todo_pending_head status yf_ticker rest :
  todo_pending status (yf_ticker :: rest) ->
  exists ticker_info,
    Dict.get (Status.tickers status) yf_ticker = Some ticker_info
    /\ TickerInfo.status ticker_info = "pending".
Proof.
  intros [_ H]. specialize (H yf_ticker (or_introl eq_refl)).
  unfold status_of in H.
  destruct (Dict.get (Status.tickers status) yf_ticker) as [ti|]; [|discriminate].
  exists ti. split; auto. simpl in H. congruence.
Qed.

Lemma todo_pending_tail status yf_ticker rest ti' :
  todo_pending status (yf_ticker :: rest) ->
  todo_pending (with_tickers status (Dict.set (Status.tickers status) yf_ticker ti')) rest.
Proof.
  intros [Hnd H]. inversion Hnd; subst. split; auto.
  intros k Hin. simpl. rewrite status_of_set_other.
  - apply H. now right.
  - intros ->. contradiction.
Qed.

Lemma todo_pending_init tickers status :
  NoDup (Dict.keys tickers) ->
  Status.tickers status = tickers ->
  todo_pending status (pending_tickers tickers).
Proof.
  intros Hnd E. subst tickers. split.
  - now apply pending_tickers_NoDup.
  - intros k Hin. now apply pending_tickers_pending.
Qed.


(** ** Status transitions *)




(** ** Terminal statuses stay terminal *)

Lemma terminal_in_merge tickers all_tickers id :
  terminal_in tickers id = true ->
  terminal_in (merge_tickers tickers all_tickers) id = true.
Proof.
  unfold terminal_in, status_of. intros H.
  rewrite merge_tickers_keeps_get; auto.
  unfold Dict.mem. destruct (Dict.get tickers id); [reflexivity | discriminate].
Qed.

Lemma terminal_in_set tickers yf_ticker ti' id :
  terminalb (TickerInfo.status ti') = true ->
  terminal_in tickers id = true ->
  terminal_in (Dict.set tickers yf_ticker ti') id = true.
Proof.
  intros Ht H. unfold terminal_in. destruct (String.eqb_spec yf_ticker id) as [->|Hne].
  - now rewrite status_of_set_same.
  - now rewrite status_of_set_other.
Qed.

Lemma process_ticker_terminal e status yf_ticker tr status' id :
  process_ticker e status yf_ticker = (tr, Some status') ->
  terminal_in (Status.tickers status) id = true ->
  terminal_in (Status.tickers status') id = true.
Proof.
  intros Hrun H.
  destruct (Dict.get (Status.tickers status) yf_ticker) as [ti|] eqn:Hget.
  - destruct (process_ticker_spec e status yf_ticker ti Hget)
      as [ti' [writes [Hrun' [Hterm _]]]].
    rewrite Hrun' in Hrun. injection Hrun as _ <-. simpl.
    now apply terminal_in_set.
  - unfold process_ticker in Hrun. rewrite Hget in Hrun. discriminate.
Qed.

Lemma process_batch_terminal e id : forall batch status tr status',
  process_batch e status batch = (tr, Some status') ->
  terminal_in (Status.tickers status) id = true ->
  terminal_in (Status.tickers status') id = true.
Proof.
  induction batch as [|yf_ticker rest IH]; intros status tr status' Hrun H.
  - injection Hrun as _ <-. exact H.
  - rewrite process_batch_cons in Hrun.
    destruct (process_ticker e status yf_ticker) as [tr1 [status1|]] eqn:E1;
      [|discriminate].
    simpl in Hrun.
    destruct (process_batch e status1 rest) as [tr2 r2] eqn:E2.
    injection Hrun as _ ->.
    eapply IH; eauto. eapply process_ticker_terminal; eauto.
Qed.

Lemma run_batches_terminal e id : forall bs status batch_num tr status',
  run_batches e status bs batch_num = (tr, Some status') ->
  terminal_in (Status.tickers status) id = true ->
  terminal_in (Status.tickers status') id = true.
Proof.
  induction bs as [|batch rest IH]; intros status batch_num tr status' Hrun H.
  - injection Hrun as _ <-. exact H.
  - rewrite run_batches_cons in Hrun.
    destruct (process_batch e status batch) as [tr1 [status1|]] eqn:E1;
      [|discriminate].
    unfold bind at 1 in Hrun. unfold save_status at 1 in Hrun. unfold bind at 1 in Hrun.
    destruct (run_batches e (stamp_status status1 (clock_save e (S batch_num))) rest
                (S batch_num)) as [tr2 r2] eqn:E2.
    injection Hrun as _ ->.
    eapply IH; eauto. simpl. eapply process_batch_terminal; eauto.
Qed.

Lemma replay_quiet tr : forall d,
  Forall status_quiet tr -> STATUS_FILE (replay tr d) = STATUS_FILE d.
Proof.
  induction tr as [|ev r IH]; intros d H; [reflexivity|].
  inversion H; subst. change (replay (ev :: r) d) with (replay r (apply_event d ev)).
  rewrite IH by assumption. destruct ev; simpl in *; tauto.
Qed.

Lemma durable_status_quiet tr d :
  Forall status_quiet tr -> durable_status (replay tr d) = durable_status d.
Proof.
  intros H. unfold durable_status. now rewrite replay_quiet.
Qed.

Lemma process_ticker_quiet e status yf_ticker :
  Forall status_quiet (trace (process_ticker e status yf_ticker)).
Proof.
  destruct (Dict.get (Status.tickers status) yf_ticker) as [ti|] eqn:Hget.
  - destruct (process_ticker_spec e status yf_ticker ti Hget)
      as [ti' [writes [Hrun [_ Hwrites]]]].
    rewrite Hrun. unfold trace, fst. constructor; [exact Logic.I|].
    apply Forall_app. split.
    + destruct Hwrites as [[-> _]|[data [-> _]]]; repeat constructor.
    + repeat constructor.
  - unfold process_ticker. rewrite Hget. constructor.
Qed.

Lemma firstn_app_cases {A : Type} (h t : list A) j :
  (firstn j (h ++ t) = firstn j h /\ (j <= List.length h)%nat)
  \/ (firstn j (h ++ t) = (h ++ firstn (j - List.length h) t)%list
      /\ (List.length h < j)%nat).
Proof.
  rewrite firstn_app. destruct (Nat.le_gt_cases j (List.length h)) as [H|H].
  - left. split; auto. replace (j - List.length h)%nat with 0%nat by lia.
    now rewrite firstn_O, app_nil_r.
  - right. split; auto. now rewrite firstn_all2 by lia.
Qed.

Lemma ever_terminal_now d id h doc :
  durable_status (replay h d) = Some doc ->
  terminal_in (Status.tickers doc) id = true ->
  ever_terminal d id h.
Proof.
  intros H1 H2. exists (List.length h), doc. now rewrite firstn_all.
Qed.

Lemma ever_terminal_app d id h t :
  ever_terminal d id (h ++ t) ->
  ever_terminal d id h
  \/ exists j doc,
       durable_status (replay (firstn j t) (replay h d)) = Some doc
       /\ terminal_in (Status.tickers doc) id = true.
Proof.
  intros [j [doc [H1 H2]]].
  destruct (firstn_app_cases h t j) as [[E _]|[E _]]; rewrite E in H1.
  - left. now exists j, doc.
  - right. exists (j - List.length h)%nat, doc. now rewrite <- replay_app.
Qed.

Lemma durable_save_prefix status now d k doc :
  durable_status (replay (firstn k (trace (save_status status now))) d) = Some doc ->
  (k = 0%nat /\ durable_status d = Some doc) \/ doc = stamp_status status now.
Proof.
  destruct k as [|k].
  - intros H. left. split; auto.
  - pose proof (crash_at_save status now d k) as E. unfold crash_at in E.
    rewrite E. unfold durable_status, json_load. cbn [STATUS_FILE].
    destruct (status_file_complete _); [|discriminate].
    intros H. right. cbn [sf_doc] in H. congruence.
Qed.

Lemma load_status_durable e d status doc :
  load_status e d = ret status ->
  durable_status d = Some doc ->
  doc = status.
Proof.
  unfold load_status, durable_status. destruct (STATUS_FILE d) as [f|]; [|discriminate].
  destruct (json_load f); [|discriminate].
  intros H1 H2. injection H1 as <-. congruence.
Qed.

Section TerminalMonotone.

Variable d : disk.
Variable id : string.

Let Crash (h : list event) : Prop :=
  forall doc,
    durable_status (replay h d) = Some doc ->
    ever_terminal d id h ->
    terminal_in (Status.tickers doc) id = true.

Let Inv (status : Status.t) (todo : list string) (h : list event) : Prop :=
  todo_pending status todo
  /\ (ever_terminal d id h -> terminal_in (Status.tickers status) id = true)
  /\ Crash h.

Lemma ever_terminal_quiet h t :
  Forall status_quiet t -> ever_terminal d id (h ++ t) -> ever_terminal d id h.
Proof.
  intros Hq Hev. destruct (ever_terminal_app _ _ _ _ Hev) as [H|[j [doc [H1 H2]]]]; auto.
  rewrite durable_status_quiet in H1 by now apply Forall_firstn_of.
  eapply ever_terminal_now; eauto.
Qed.

Lemma terminal_crash_nil : Crash [].
Proof.
  intros doc Hdoc [j [doc' [H1 H2]]]. rewrite firstn_nil in H1.
  simpl in *. congruence.
Qed.

Lemma terminal_body_triple e status yf_ticker rest :
  triple (Inv status (yf_ticker :: rest)) (process_ticker e status yf_ticker)
         Crash (fun status' => Inv status' rest).
Proof.
  intros h [Htodo [Hmem Hcrash]].
  pose proof (process_ticker_quiet e status yf_ticker) as Hq.
  assert (Hpre : forall k, Crash (h ++ firstn k (trace (process_ticker e status yf_ticker)))).
  { intros k doc Hdoc Hev.
    rewrite replay_app, durable_status_quiet in Hdoc by now apply Forall_firstn_of.
    apply Hcrash; auto. eapply ever_terminal_quiet; [|exact Hev].
    now apply Forall_firstn_of. }
  split; [exact Hpre|].
  destruct (todo_pending_head _ _ _ Htodo) as [ti [Hget _]].
  destruct (process_ticker_spec e status yf_ticker ti Hget)
    as [ti' [writes [Hrun [Hterm _]]]].
  eexists. split; [rewrite Hrun; reflexivity|]. split; [|split].
  - now apply todo_pending_tail.
  - intros Hev. simpl. apply terminal_in_set; auto.
    apply Hmem. eapply ever_terminal_quiet; eauto.
  - specialize (Hpre (List.length (trace (process_ticker e status yf_ticker)))).
    now rewrite firstn_all in Hpre.
Qed.

Lemma terminal_save_triple status todo now :
  triple (Inv status todo) (save_status status now)
         Crash (fun status' => Inv status' todo).
Proof.
  intros h [Htodo [Hmem Hcrash]].
  assert (Hev : forall k, ever_terminal d id (h ++ firstn k (trace (save_status status now))) ->
                          terminal_in (Status.tickers status) id = true).
  { intros k Hev. destruct (ever_terminal_app _ _ _ _ Hev) as [H|[j [doc [H1 H2]]]]; auto.
    rewrite firstn_firstn in H1.
    destruct (durable_save_prefix _ _ _ _ _ H1) as [[_ H]| ->].
    - apply Hmem. eapply ever_terminal_now; eauto.
    - exact H2. }
  assert (Hpre : forall k, Crash (h ++ firstn k (trace (save_status status now)))).
  { intros k doc Hdoc Hever. specialize (Hev k Hever).
    rewrite replay_app in Hdoc.
    destruct (durable_save_prefix _ _ _ _ _ Hdoc) as [[-> H]| ->].
    - apply Hcrash; auto. simpl in Hever. now rewrite app_nil_r in Hever.
    - exact Hev. }
  split; [exact Hpre|].
  eexists. split; [reflexivity|]. split; [exact Htodo|split].
  - intros Hever. simpl. apply (Hev (List.length (trace (save_status status now)))).
    now rewrite firstn_all.
  - specialize (Hpre (List.length (trace (save_status status now)))).
    now rewrite firstn_all in Hpre.
Qed.

Lemma terminal_run e k :
  disk_wf d = true ->
  Crash (firstn k (trace (main e d))).
Proof.
  intros Hwf. apply (main_crash e d Inv).
  - apply terminal_crash_nil.
  - intros status todo h [_ [_ H]]. exact H.
  - apply terminal_body_triple.
  - apply terminal_save_triple.
  - intros all_tickers status0 Hcat Hload.
    eapply triple_weaken.
    + apply (terminal_save_triple _ (pending_tickers
               (merge_tickers (Status.tickers status0) all_tickers))).
    + intros h ->. split; [|split].
      * apply todo_pending_init; [|reflexivity].
        apply merge_tickers_wf. eapply load_status_wf; eauto.
      * intros [j [doc [H1 H2]]]. rewrite firstn_nil in H1. simpl in H1.
        simpl. apply terminal_in_merge.
        now rewrite <- (load_status_durable _ _ _ _ Hload H1).
      * apply terminal_crash_nil.
    + intros status h H. exact H.
Qed.

End TerminalMonotone.

(** C6. Merging the catalog, processing any batch, the whole loop and a
    save each leave a ticker that is completed, skipped or failed in one
    of these statuses; and along a run, once a status document that could
    be loaded had the ticker terminal (the one found at the start
    included), every later status document that can be loaded has it
    terminal too. *)
Theorem terminal_monotone (e : env) (d : disk) (id : string) :
  disk_wf d = true ->
  (forall tickers all_tickers,
      terminal_in tickers id = true ->
      terminal_in (merge_tickers tickers all_tickers) id = true)
  /\ (forall status now,
        terminal_in (Status.tickers (stamp_status status now)) id
        = terminal_in (Status.tickers status) id)
  /\ (forall status batch tr status',
        process_batch e status batch = (tr, Some status') ->
        terminal_in (Status.tickers status) id = true ->
        terminal_in (Status.tickers status') id = true)
  /\ (forall status bs batch_num tr status',
        run_batches e status bs batch_num = (tr, Some status') ->
        terminal_in (Status.tickers status) id = true ->
        terminal_in (Status.tickers status') id = true)
  /\ (forall j k doc_j doc_k,
        (j <= k)%nat ->
        durable_status (crash_at j (trace (main e d)) d) = Some doc_j ->
        durable_status (crash_at k (trace (main e d)) d) = Some doc_k ->
        terminal_in (Status.tickers doc_j) id = true ->
        terminal_in (Status.tickers doc_k) id = true).
Proof.
  intros Hwf. split; [|split; [|split; [|split]]].
  - intros tickers all_tickers. apply terminal_in_merge.
  - reflexivity.
  - intros status batch tr status'. apply process_batch_terminal.
  - intros status bs batch_num tr status'. apply run_batches_terminal.
  - intros j k doc_j doc_k Hjk Hj Hk Hterm.
    apply (terminal_run d id e k Hwf doc_k Hk).
    exists j, doc_j. split; auto.
    rewrite firstn_firstn. now rewrite Nat.min_l by exact Hjk.
Qed.

Lemma terminal_monotone_witness :
  let d := disk_with_status demo_status_failed Dict.empty in
  terminal_in (merge_tickers (Status.tickers demo_status_failed) demo_catalog) "A.TO" = true
  /\ match durable_status (replay (trace (main demo_env d)) d) with
     | Some doc => terminal_in (Status.tickers doc) "A.TO" = true
     | None => False
     end.
Proof.
  intros d.
  destruct (terminal_monotone demo_env d "A.TO" eq_refl) as [Hm [_ [_ [_ Hd]]]].
  split; [apply Hm; reflexivity|].
  destruct (durable_status (replay (trace (main demo_env d)) d)) as [doc|] eqn:E;
    [|vm_compute in E; discriminate].
  apply (Hd 0%nat (List.length (trace (main demo_env d))) demo_status_failed doc).
  - lia.
  - vm_compute. reflexivity.
  - unfold crash_at. rewrite firstn_all. exact E.
  - reflexivity.
Defined.

(** ** Output records and completed statuses *)

Lemma replay_outputs_other yf_ticker id tr : forall d,
  Forall (output_only yf_ticker) tr ->
  id <> yf_ticker ->
  Dict.get (STOCK_DATA_DIR (replay tr d)) id = Dict.get (STOCK_DATA_DIR d) id.
Proof.
  induction tr as [|ev r IH]; intros d H Hne; [reflexivity|].
  inversion H; subst. change (replay (ev :: r) d) with (replay r (apply_event d ev)).
  rewrite IH by assumption.
  destruct ev; simpl in *; auto.
  - subst. now rewrite DictFacts.get_set_other by congruence.
  - subst. destruct (Dict.get (STOCK_DATA_DIR d) yf_ticker); auto.
    now rewrite DictFacts.get_set_other by congruence.
Qed.

Lemma durable_completed_ext d1 d2 id :
  STATUS_FILE d1 = STATUS_FILE d2 ->
  durable_completed d1 id = durable_completed d2 id.
Proof. unfold durable_completed, durable_status. now intros ->. Qed.

Lemma output_present_ext d1 d2 id :
  Dict.get (STOCK_DATA_DIR d1) id = Dict.get (STOCK_DATA_DIR d2) id ->
  output_present d1 id = output_present d2 id.
Proof. unfold output_present. now intros ->. Qed.

Lemma process_ticker_output_only e status yf_ticker :
  Forall (output_only yf_ticker) (trace (process_ticker e status yf_ticker)).
Proof.
  destruct (Dict.get (Status.tickers status) yf_ticker) as [ti|] eqn:Hget.
  - destruct (process_ticker_spec e status yf_ticker ti Hget)
      as [ti' [writes [Hrun [_ Hwrites]]]].
    rewrite Hrun. unfold trace, fst. constructor; [exact Logic.I|].
    apply Forall_app. split.
    + destruct Hwrites as [[-> _]|[data [-> _]]]; repeat constructor.
    + repeat constructor.
  - unfold process_ticker. rewrite Hget. constructor.
Qed.

Lemma output_written d yf_ticker data ti_old ti_new :
  output_present
    (replay (Fetch yf_ticker :: [OpenOutput yf_ticker data; PutOutput yf_ticker]
             ++ [Assign yf_ticker ti_old ti_new; Processed yf_ticker])%list d)
    yf_ticker = true.
Proof.
  unfold output_present. simpl.
  rewrite DictFacts.get_set_same. simpl. now rewrite DictFacts.get_set_same.
Qed.

Lemma status_of_merge_completed all_tickers tickers id :
  status_of (merge_tickers tickers all_tickers) id = Some "completed" ->
  status_of tickers id = Some "completed".
Proof.
  destruct (merge_tickers_extends all_tickers tickers) as [added [E Hadd]].
  rewrite E. unfold status_of. clear E.
  induction tickers as [|[k v] r IH]; simpl.
  - induction added as [|[k v] r IH]; simpl; [discriminate|].
    inversion Hadd; subst. destruct (String.eqb k id); auto.
    simpl in *. congruence.
  - destruct (String.eqb k id); auto.
Qed.

Section OutputBeforeStatus.

Variable d : disk.

Let Crash (h : list event) : Prop := consistent (replay h d).

(** What a save needs: the disk is consistent and every ticker completed
    in memory has its output record. *)
Let Backed (status : Status.t) (todo : list string) (h : list event) : Prop :=
  todo_pending status todo
  /\ consistent (replay h d)
  /\ (forall id, status_of (Status.tickers status) id = Some "completed" ->
                 output_present (replay h d) id = true).

Let Inv (status : Status.t) (todo : list string) (h : list event) : Prop :=
  Backed status todo h
  /\ (forall id, In id todo -> durable_completed (replay h d) id = false).

Lemma consistent_body_triple e status yf_ticker rest :
  triple (Inv status (yf_ticker :: rest)) (process_ticker e status yf_ticker)
         Crash (fun status' => Inv status' rest).
Proof.
  intros h [[Htodo [Hcons Hmem]] Hdur].
  pose proof (process_ticker_quiet e status yf_ticker) as Hq.
  pose proof (process_ticker_output_only e status yf_ticker) as Ho.
  set (tr := trace (process_ticker e status yf_ticker)) in *.
  assert (Hsf : forall k id, durable_completed (replay (h ++ firstn k tr) d) id
                             = durable_completed (replay h d) id).
  { intros k id. apply durable_completed_ext. rewrite replay_app.
    apply replay_quiet. now apply Forall_firstn_of. }
  assert (Hout : forall k id, id <> yf_ticker ->
                              output_present (replay (h ++ firstn k tr) d) id
                              = output_present (replay h d) id).
  { intros k id Hne. apply output_present_ext. rewrite replay_app.
    apply replay_outputs_other with (yf_ticker := yf_ticker); auto.
    now apply Forall_firstn_of. }
  assert (Hpre : forall k, Crash (h ++ firstn k tr)).
  { intros k id Hc. rewrite Hsf in Hc.
    destruct (String.eqb_spec id yf_ticker) as [->|Hne].
    - rewrite Hdur in Hc by now left. discriminate.
    - rewrite Hout by exact Hne. now apply Hcons. }
  split; [exact Hpre|].
  destruct (todo_pending_head _ _ _ Htodo) as [ti [Hget _]].
  destruct (process_ticker_spec e status yf_ticker ti Hget)
    as [ti' [writes [Hrun [Hterm Hwrites]]]].
  assert (Hall : firstn (List.length tr) tr = tr) by apply firstn_all.
  eexists. split; [rewrite Hrun; reflexivity|].
  split; [split; [|split]|].
  - now apply todo_pending_tail.
  - specialize (Hpre (List.length tr)). now rewrite Hall in Hpre.
  - intros id Hc. simpl in Hc.
    destruct (String.eqb_spec yf_ticker id) as [->|Hne].
    + rewrite status_of_set_same in Hc.
      destruct Hwrites as [[_ Hn]|[data [-> _]]]; [congruence|].
      rewrite replay_app. unfold tr. rewrite Hrun. unfold trace, fst.
      apply output_written.
    + rewrite status_of_set_other in Hc by exact Hne.
      rewrite <- Hall, Hout by congruence. now apply Hmem.
  - intros id Hin. rewrite <- Hall, Hsf. apply Hdur. now right.
Qed.

Lemma consistent_save status todo now :
  triple (Backed status todo) (save_status status now)
         Crash (fun status' => Inv status' todo).
Proof.
  intros h [Htodo [Hcons Hmem]].
  assert (Hk : forall k id,
             durable_completed
               (replay (h ++ firstn (S k) (trace (save_status status now))) d) id = true ->
             status_of (Status.tickers status) id = Some "completed").
  { intros k id. rewrite replay_app.
    pose proof (crash_at_save status now (replay h d) k) as E. unfold crash_at in E.
    rewrite E. unfold durable_completed, durable_status, json_load. cbn [STATUS_FILE].
    destruct (status_file_complete _); [|discriminate]. cbn [sf_doc]. simpl.
    destruct (status_of (Status.tickers status) id) as [s|]; [|discriminate].
    intros H. apply String.eqb_eq in H. now subst. }
  assert (Hout : forall k id,
             output_present
               (replay (h ++ firstn (S k) (trace (save_status status now))) d) id
             = output_present (replay h d) id).
  { intros k id. rewrite replay_app.
    pose proof (crash_at_save status now (replay h d) k) as E. unfold crash_at in E.
    now rewrite E. }
  assert (Hpre : forall k, Crash (h ++ firstn k (trace (save_status status now)))).
  { intros [|k].
    - simpl. now rewrite app_nil_r.
    - intros id Hc. rewrite Hout. apply Hmem. eapply Hk; eauto. }
  assert (Hall : firstn (S (String.length (json_dump (stamp_status status now))))
                        (trace (save_status status now))
                 = trace (save_status status now)).
  { apply firstn_all2. unfold save_status, trace, fst. simpl.
    rewrite repeat_length. lia. }
  split; [exact Hpre|].
  eexists. split; [reflexivity|]. split; [split; [|split]|].
  - exact Htodo.
  - rewrite <- Hall. apply Hpre.
  - intros id Hc. rewrite <- Hall, Hout. now apply Hmem.
  - intros id Hin.
    destruct (durable_completed (replay (h ++ trace (save_status status now)) d) id) eqn:E; auto.
    rewrite <- Hall in E. apply Hk in E.
    destruct Htodo as [_ Hp]. rewrite (Hp id Hin) in E. discriminate.
Qed.

Lemma consistent_run e k :
  disk_wf d = true ->
  consistent d ->
  Crash (firstn k (trace (main e d))).
Proof.
  intros Hwf Hd. apply (main_crash e d Inv).
  - exact Hd.
  - intros status todo h [[_ [H _]] _]. exact H.
  - apply consistent_body_triple.
  - intros status todo now. eapply triple_weaken.
    + apply consistent_save.
    + intros h [H _]. exact H.
    + intros a h H. exact H.
  - intros all_tickers status0 Hcat Hload. eapply triple_weaken.
    + apply (consistent_save _ (pending_tickers
               (merge_tickers (Status.tickers status0) all_tickers))).
    + intros h ->. split; [|split].
      * apply todo_pending_init; [|reflexivity].
        apply merge_tickers_wf. eapply load_status_wf; eauto.
      * exact Hd.
      * intros id Hc. simpl in Hc. apply status_of_merge_completed in Hc.
        apply Hd. simpl. unfold durable_completed, durable_status.
        unfold load_status in Hload. destruct (STATUS_FILE d) as [f|].
        -- destruct (json_load f) as [doc|]; [|discriminate].
           injection Hload as ->. rewrite Hc. reflexivity.
        -- injection Hload as <-. discriminate.
    + intros a h H. exact H.
Qed.

End OutputBeforeStatus.

(** C9. Started on a disk where every ticker the status document marks
    completed has its output record, a run keeps the disk so at every
    point it can be cut at: the output file is opened and written before
    the ticker is marked completed in memory, and the status document is
    saved after that.  When the output file cannot be opened, nothing is
    written and the ticker is not marked completed. *)
Theorem output_before_completed (e : env) (d : disk) :
  disk_wf d = true ->
  consistent d ->
  (forall k, consistent (crash_at k (trace (main e d)) d))
  /\ (forall yf_ticker ticker_info r msg,
        output_error e yf_ticker = Some msg ->
        snd (handle_result e yf_ticker ticker_info r) = []
        /\ TickerInfo.status (fst (handle_result e yf_ticker ticker_info r)) <> "completed").
Proof.
  intros Hwf Hd. split.
  - intros k. now apply consistent_run.
  - intros yf_ticker ticker_info [[data result_status] reason] msg Herr.
    unfold handle_result. rewrite Herr.
    destruct (String.eqb result_status "completed"), data as [data|];
      try (split; [reflexivity | apply classify_other_terminal]).
    simpl. split; [reflexivity | discriminate].
Qed.

Lemma output_before_completed_witness :
  let d := replay (trace (main demo_env empty_disk)) empty_disk in
  consistent d
  /\ durable_completed d "A.TO" = true
  /\ output_present d "A.TO" = true.
Proof.
  intros d. split; [|split; vm_compute; reflexivity].
  assert (Hd : consistent empty_disk) by (intros id H; discriminate H).
  destruct (output_before_completed demo_env empty_disk eq_refl Hd) as [H _].
  specialize (H (List.length (trace (main demo_env empty_disk)))).
  unfold crash_at in H. rewrite firstn_all in H. exact H.
Defined.

(** ** Resuming an interrupted run *)

Lemma fetched_app tr1 tr2 :
  fetched (tr1 ++ tr2)%list = (fetched tr1 ++ fetched tr2)%list.
Proof.
  induction tr1 as [|ev r IH]; [reflexivity|].
  destruct ev; simpl; rewrite IH; reflexivity.
Qed.

Lemma fetched_put_status n : fetched (repeat PutStatus n) = [].
Proof. induction n as [|n IH]; simpl; auto. Qed.

Lemma fetched_save status now : fetched (trace (save_status status now)) = [].
Proof.
  unfold save_status, trace, fst. simpl. apply fetched_put_status.
Qed.

Lemma pending_set_first e_status : forall tickers x rest ti',
  NoDup (Dict.keys tickers) ->
  pending_tickers tickers = x :: rest ->
  String.eqb (TickerInfo.status ti') "pending" = e_status ->
  e_status = false ->
  pending_tickers (Dict.set tickers x ti') = rest.
Proof.
  intros tickers x rest ti' Hnd Hp He ->. revert Hnd Hp.
  unfold pending_tickers, Dict.keys.
  induction tickers as [|[k v] r IH]; simpl; intros Hnd Hp; [discriminate|].
  inversion Hnd; subst.
  destruct (String.eqb (TickerInfo.status v) "pending") eqn:Ev; simpl in Hp.
  - injection Hp as -> <-. rewrite String.eqb_refl. simpl. now rewrite He.
  - assert (Hne : String.eqb k x = false).
    { apply String.eqb_neq. intros ->. apply H1.
      apply (pending_tickers_incl r x). unfold pending_tickers. rewrite Hp. now left. }
    rewrite Hne. simpl. rewrite Ev. now apply IH.
Qed.

Lemma terminal_not_pending s : terminalb s = true -> String.eqb s "pending" = false.
Proof.
  unfold terminalb. intros H. destruct (String.eqb_spec s "pending") as [->|]; auto.
Qed.

Lemma process_batch_resume e : forall a b status,
  NoDup (Dict.keys (Status.tickers status)) ->
  pending_tickers (Status.tickers status) = (a ++ b)%list ->
  exists tr status',
    process_batch e status a = (tr, Some status')
    /\ NoDup (Dict.keys (Status.tickers status'))
    /\ Dict.keys (Status.tickers status') = Dict.keys (Status.tickers status)
    /\ pending_tickers (Status.tickers status') = b
    /\ fetched tr = a
    /\ Forall status_quiet tr.
Proof.
  induction a as [|x a IH]; intros b status Hnd Hp.
  - exists [], status. repeat split; auto.
  - assert (Hin : In x (pending_tickers (Status.tickers status)))
      by (rewrite Hp; now left).
    pose proof (pending_tickers_pending _ _ Hnd Hin) as Hs.
    unfold status_of in Hs.
    destruct (Dict.get (Status.tickers status) x) as [ti|] eqn:Hget; [|discriminate].
    destruct (process_ticker_spec e status x ti Hget)
      as [ti' [writes [Hrun [Hterm Hwrites]]]].
    set (status1 := with_tickers status (Dict.set (Status.tickers status) x ti')) in *.
    assert (Hk : Dict.keys (Status.tickers status1) = Dict.keys (Status.tickers status)).
    { simpl. apply DictFacts.keys_set_present. unfold Dict.mem. now rewrite Hget. }
    destruct (IH b status1) as [tr2 [status' [Hrun2 [Hnd2 [Hk2 [Hp2 [Hf2 Hq2]]]]]]].
    + now rewrite Hk.
    + simpl. eapply pending_set_first; eauto. now apply terminal_not_pending.
    + eexists. exists status'. rewrite process_batch_cons, Hrun.
      unfold bind. rewrite Hrun2. split; [reflexivity|].
      split; [exact Hnd2|]. split; [congruence|]. split; [exact Hp2|]. split.
      * simpl. rewrite fetched_app, fetched_app. rewrite Hf2.
        destruct Hwrites as [[-> _]|[data [-> _]]]; reflexivity.
      * pose proof (process_ticker_quiet e status x) as Hq. rewrite Hrun in Hq.
        apply Forall_app. split; assumption.
Qed.

Lemma saved_tickers_save status now d :
  saved_tickers (replay (trace (save_status status now)) d) (stamp_status status now).
Proof.
  rewrite replay_save. eexists. split; reflexivity.
Qed.

Lemma saved_tickers_quiet tr d status status' :
  Forall status_quiet tr ->
  saved_tickers d status ->
  Status.tickers status' = Status.tickers status ->
  saved_tickers (replay tr d) status'.
Proof.
  intros Hq [doc [H1 H2]] E. exists doc. rewrite replay_quiet by exact Hq.
  split; congruence.
Qed.

Lemma run_batches_resume e : forall bs b status batch_num d,
  NoDup (Dict.keys (Status.tickers status)) ->
  pending_tickers (Status.tickers status) = (List.concat bs ++ b)%list ->
  saved_tickers d status ->
  exists tr status',
    run_batches e status bs batch_num = (tr, Some status')
    /\ NoDup (Dict.keys (Status.tickers status'))
    /\ Dict.keys (Status.tickers status') = Dict.keys (Status.tickers status)
    /\ pending_tickers (Status.tickers status') = b
    /\ fetched tr = List.concat bs
    /\ saved_tickers (replay tr d) status'.
Proof.
  induction bs as [|batch bs IH]; intros b status batch_num d Hnd Hp Hsaved.
  - exists [], status. repeat split; auto.
  - simpl List.concat in Hp. rewrite <- app_assoc in Hp.
    destruct (process_batch_resume e batch _ status Hnd Hp)
      as [tr1 [status1 [Hrun1 [Hnd1 [Hk1 [Hp1 [Hf1 Hq1]]]]]]].
    set (status2 := stamp_status status1 (clock_save e (S batch_num))).
    destruct (IH b status2 (S batch_num)
                 (replay (trace (save_status status1 (clock_save e (S batch_num))))
                         (replay tr1 d)))
      as [tr3 [status' [Hrun3 [Hnd3 [Hk3 [Hp3 [Hf3 Hs3]]]]]]]; auto.
    + apply saved_tickers_save.
    + eexists. exists status'. rewrite run_batches_cons, Hrun1.
      unfold bind at 1. unfold save_status at 1. unfold bind at 1.
      fold status2. rewrite Hrun3. split; [reflexivity|].
      split; [exact Hnd3|]. split; [simpl in Hk3; congruence|].
      split; [exact Hp3|]. split.
      * rewrite fetched_app.
        change (OpenStatus status2 :: repeat PutStatus (String.length (json_dump status2)))
          with (trace (save_status status1 (clock_save e (S batch_num)))).
        rewrite fetched_app, fetched_save, Hf1, Hf3. reflexivity.
      * rewrite replay_app.
        change (OpenStatus status2 :: repeat PutStatus (String.length (json_dump status2)))
          with (trace (save_status status1 (clock_save e (S batch_num)))).
        rewrite replay_app. exact Hs3.
Qed.

Arguments bind : simpl never.
Arguments save_status : simpl never.
Arguments json_dump : simpl never.

Lemma tickers_stamp status now :
  Status.tickers (stamp_status status now) = Status.tickers status.
Proof. reflexivity. Qed.

Lemma tickers_with status tickers : Status.tickers (with_tickers status tickers) = tickers.
Proof. reflexivity. Qed.

Lemma bind_ret_l {A B : Type} (a : A) (k : A -> M B) : bind (ret a) k = k a.
Proof. unfold bind, ret. destruct (k a); reflexivity. Qed.

Lemma trace_pair {A : Type} (tr : list event) (r : option A) : trace (tr, r) = tr.
Proof. reflexivity. Qed.

Lemma trace_bind_ok {A B : Type} (m : M A) (k : A -> M B) tr a :
  m = (tr, Some a) -> trace (bind m k) = (tr ++ trace (k a))%list.
Proof. intros ->. now rewrite trace_bind. Qed.

Lemma snd_bind_ok {A B : Type} (m : M A) (k : A -> M B) tr a :
  m = (tr, Some a) -> snd (bind m k) = snd (k a).
Proof. intros ->. now rewrite snd_bind. Qed.

Lemma bind_save status now {B : Type} (k : Status.t -> M B) :
  bind (save_status status now) k
  = ((trace (save_status status now) ++ trace (k (stamp_status status now)))%list,
     snd (k (stamp_status status now))).
Proof.
  unfold bind, save_status, trace, fst, snd.
  destruct (k (stamp_status status now)); reflexivity.
Qed.

Lemma skipn_nth_cons {A : Type} (default : A) : forall (l : list A) j,
  (j < List.length l)%nat -> skipn j l = nth j l default :: skipn (S j) l.
Proof.
  induction l as [|x r IH]; intros j Hj; simpl in Hj; [lia|].
  destruct j as [|j]; [reflexivity|]. simpl. apply IH. lia.
Qed.

(** The batches from number [j] on start with the first [k] tickers of
    batch [j]. *)
Lemma batches_tail_split (bs : list (list string)) j k :
  exists rest,
    List.concat (skipn j bs) = (firstn k (nth j bs []) ++ rest)%list.
Proof.
  destruct (Nat.lt_ge_cases j (List.length bs)) as [H|H].
  - rewrite (skipn_nth_cons [] bs j H). simpl List.concat.
    exists (skipn k (nth j bs []) ++ List.concat (skipn (S j) bs))%list.
    now rewrite app_assoc, firstn_skipn.
  - rewrite nth_overflow by exact H. rewrite firstn_nil. simpl. eauto.
Qed.

(** What a run does after a successful load: it asks the provider about
    the pending tickers of the merged store, in order. *)
Lemma main_after_load_fetched e all_tickers status0 :
  NoDup (Dict.keys (Status.tickers status0)) ->
  fetched (trace (main_after_load e all_tickers status0))
  = pending_tickers (merge_tickers (Status.tickers status0) all_tickers).
Proof.
  intros Hnd. unfold main_after_load.
  rewrite bind_save, trace_pair, fetched_app, fetched_save, app_nil_l.
  set (status1 := stamp_status _ _).
  change (Status.tickers status1)
    with (merge_tickers (Status.tickers status0) all_tickers).
  destruct (pending_tickers (merge_tickers (Status.tickers status0) all_tickers))
    as [|p ps] eqn:Hp; [reflexivity|].
  rewrite <- Hp.
  destruct (run_batches_resume e
              (batches BATCH_SIZE
                 (pending_tickers (merge_tickers (Status.tickers status0) all_tickers)))
              [] status1 0%nat (disk_with_status status1 Dict.empty))
    as [tr [status' [Hrun [_ [_ [_ [Hf _]]]]]]].
  - unfold status1. rewrite tickers_stamp, tickers_with. now apply merge_tickers_wf.
  - now rewrite batches_concat, app_nil_r.
  - exists status1. split; reflexivity.
  - rewrite (trace_bind_ok _ _ _ _ Hrun), fetched_app, Hf.
    rewrite bind_save, trace_pair, fetched_app, fetched_save.
    change (trace (ret tt)) with (@nil event).
    change (fetched []) with (@nil string).
    now rewrite !app_nil_r, batches_concat.
Qed.

Lemma main_fetched e d all_tickers status0 :
  TICKERS_FILE e = Some all_tickers ->
  load_status e d = ret status0 ->
  NoDup (Dict.keys (Status.tickers status0)) ->
  fetched (trace (main e d))
  = pending_tickers (merge_tickers (Status.tickers status0) all_tickers).
Proof.
  intros Hcat Hload Hnd. rewrite main_unfold, Hcat, Hload, bind_ret_l.
  now apply main_after_load_fetched.
Qed.

Lemma bind_ok {A B : Type} (m : M A) (k : A -> M B) tr a tr' r :
  m = (tr, Some a) -> k a = (tr', r) -> bind m k = ((tr ++ tr')%list, r).
Proof. intros -> H. unfold bind. now rewrite H. Qed.

(** The state an interrupted run leaves behind: the provider has been
    asked about [j] whole batches and [k] more tickers, and the status
    file holds a whole document in which exactly the tickers of batch [j]
    and of the later batches are pending. *)
Lemma main_interrupted_spec e d all_tickers status0 j k :
  TICKERS_FILE e = Some all_tickers ->
  load_status e d = ret status0 ->
  NoDup (Dict.keys (Status.tickers status0)) ->
  let tickers1 := merge_tickers (Status.tickers status0) all_tickers in
  let bs := batches BATCH_SIZE (pending_tickers tickers1) in
  exists tr status',
    main_interrupted e d j k = (tr, Some status')
    /\ fetched tr = (List.concat (firstn j bs) ++ firstn k (nth j bs []))%list
    /\ exists doc,
         STATUS_FILE (replay tr d)
         = Some (mk_status_file doc (String.length (json_dump doc)))
         /\ NoDup (Dict.keys (Status.tickers doc))
         /\ Dict.keys (Status.tickers doc) = Dict.keys tickers1
         /\ pending_tickers (Status.tickers doc) = List.concat (skipn j bs).
Proof.
  intros Hcat Hload Hnd tickers1 bs.
  unfold main_interrupted. rewrite Hcat, Hload, bind_ret_l. fold tickers1.
  set (now0 := clock_save e 0).
  set (status1 := stamp_status (with_tickers status0 tickers1) now0).
  assert (Hnd1 : NoDup (Dict.keys (Status.tickers status1)))
    by (apply merge_tickers_wf; exact Hnd).
  assert (Hsplit : pending_tickers (Status.tickers status1)
                   = (List.concat (firstn j bs) ++ List.concat (skipn j bs))%list).
  { rewrite <- concat_app, firstn_skipn. unfold bs. now rewrite batches_concat. }
  destruct (run_batches_resume e (firstn j bs) (List.concat (skipn j bs)) status1 0%nat
              (replay (trace (save_status (with_tickers status0 tickers1) now0)) d)
              Hnd1 Hsplit (saved_tickers_save _ _ _))
    as [tr2 [status2 [Hrun2 [Hnd2 [Hk2 [Hp2 [Hf2 Hs2]]]]]]].
  destruct (batches_tail_split bs j k) as [rest Hrest].
  rewrite Hrest in Hp2.
  destruct (process_batch_resume e (firstn k (nth j bs [])) rest status2 Hnd2 Hp2)
    as [tr3 [status3 [Hrun3 [Hnd3 [Hk3 [Hp3 [Hf3 Hq3]]]]]]].
  exists (trace (save_status (with_tickers status0 tickers1) now0) ++ tr2 ++ tr3)%list,
         status3.
  split; [|split].
  - rewrite bind_save. fold status1.
    change (Status.tickers status1) with tickers1. fold bs.
    rewrite (bind_ok _ _ _ _ _ _ Hrun2 Hrun3). reflexivity.
  - rewrite !fetched_app, fetched_save, Hf2, Hf3. reflexivity.
  - destruct Hs2 as [doc [Hfile Hdoc]]. exists doc.
    rewrite app_assoc, replay_app, replay_quiet by exact Hq3.
    rewrite <- replay_app in Hfile.
    split; [exact Hfile|]. rewrite Hdoc.
    split; [exact Hnd2|]. split; [exact Hk2|]. now rewrite Hrest.
Qed.

Lemma mem_same_keys {V : Type} (d1 d2 : Dict.t V) k :
  Dict.keys d1 = Dict.keys d2 -> Dict.mem d1 k = Dict.mem d2 k.
Proof.
  intros E. destruct (Dict.mem d1 k) eqn:E1; destruct (Dict.mem d2 k) eqn:E2; auto.
  - apply DictFacts.mem_In_keys in E1. rewrite E in E1.
    apply DictFacts.mem_In_keys in E1. congruence.
  - apply DictFacts.mem_In_keys in E2. rewrite <- E in E2.
    apply DictFacts.mem_In_keys in E2. congruence.
Qed.

(** ** An interrupted run is the beginning of the run *)

Lemma starts_with_bind_l {A B : Type} (m : M A) (k : A -> M B) :
  starts_with (trace (bind m k)) (trace m).
Proof. rewrite trace_bind. eexists. reflexivity. Qed.

Lemma starts_with_bind_r {A B C : Type} (m : M A) (k1 : A -> M B) (k2 : A -> M C) :
  (forall a, snd m = Some a -> starts_with (trace (k2 a)) (trace (k1 a))) ->
  starts_with (trace (bind m k2)) (trace (bind m k1)).
Proof.
  intros H. rewrite !trace_bind. destruct (snd m) as [a|].
  - destruct (H a eq_refl) as [rest ->]. exists rest. now rewrite app_assoc.
  - exists []. now rewrite !app_nil_r.
Qed.

Lemma bind_assoc {A B C : Type} (m : M A) (f : A -> M B) (g : B -> M C) :
  bind (bind m f) g = bind m (fun x => bind (f x) g).
Proof.
  destruct m as [tr [a|]]; unfold bind; [|reflexivity].
  destruct (f a) as [tr' [b|]]; [|reflexivity].
  destruct (g b) as [tr'' r]. now rewrite app_assoc.
Qed.

Lemma bind_ext {A B : Type} (m : M A) (f g : A -> M B) :
  (forall a, f a = g a) -> bind m f = bind m g.
Proof.
  intros H. destruct m as [tr [a|]]; unfold bind; [|reflexivity]. now rewrite H.
Qed.

Lemma process_batch_app e : forall a b status,
  process_batch e status (a ++ b)%list
  = bind (process_batch e status a) (fun status' => process_batch e status' b).
Proof.
  induction a as [|x a IH]; intros b status.
  - change (process_batch e status []) with (ret status). now rewrite bind_ret_l.
  - change ((x :: a) ++ b)%list with (x :: (a ++ b))%list.
    rewrite !process_batch_cons, bind_assoc. apply bind_ext. intros status'. apply IH.
Qed.

Lemma run_batches_app e : forall bs1 bs2 status batch_num,
  run_batches e status (bs1 ++ bs2)%list batch_num
  = bind (run_batches e status bs1 batch_num)
      (fun status' => run_batches e status' bs2 (List.length bs1 + batch_num)).
Proof.
  induction bs1 as [|batch bs1 IH]; intros bs2 status batch_num.
  - change (run_batches e status [] batch_num) with (ret status).
    now rewrite bind_ret_l.
  - change ((batch :: bs1) ++ bs2)%list with (batch :: (bs1 ++ bs2))%list.
    rewrite !run_batches_cons, bind_assoc. apply bind_ext. intros status1.
    rewrite bind_assoc. apply bind_ext. intros status2. rewrite IH.
    apply bind_ext. intros status3. f_equal. simpl. lia.
Qed.

(** The history of an interrupted run is the beginning of the history of
    the whole run, for every batch number [j] the run has. *)
Lemma main_interrupted_starts e d j k :
  (j < List.length
         (batches BATCH_SIZE
            (pending_tickers
               (merge_tickers
                  (match snd (load_status e d) with
                   | Some status0 => Status.tickers status0
                   | None => Dict.empty
                   end)
                  (match TICKERS_FILE e with Some c => c | None => [] end)))))%nat ->
  starts_with (trace (main e d)) (trace (main_interrupted e d j k)).
Proof.
  intros Hj. rewrite main_unfold. unfold main_interrupted.
  destruct (TICKERS_FILE e) as [all_tickers|]; [|exists []; reflexivity].
  apply starts_with_bind_r. intros status0 Hs0. rewrite Hs0 in Hj.
  unfold main_after_load.
  apply starts_with_bind_r. intros status1 Hs1.
  assert (E : Status.tickers status1
              = merge_tickers (Status.tickers status0) all_tickers).
  { unfold save_status, snd in Hs1. injection Hs1 as <-. reflexivity. }
  rewrite E. set (bs := batches BATCH_SIZE _) in *.
  assert (Hne : pending_tickers (merge_tickers (Status.tickers status0) all_tickers) <> []).
  { intros Hnil. unfold bs in Hj. rewrite Hnil in Hj. simpl in Hj. lia. }
  destruct (pending_tickers (merge_tickers (Status.tickers status0) all_tickers))
    as [|p ps] eqn:Hp; [congruence|].
  rewrite <- (firstn_skipn j bs) at 1.
  rewrite (skipn_nth_cons [] bs j Hj), run_batches_app, bind_assoc.
  apply starts_with_bind_r. intros status2 _.
  rewrite run_batches_cons.
  rewrite <- (firstn_skipn k (nth j bs [])) at 1.
  rewrite process_batch_app, !bind_assoc.
  apply starts_with_bind_l.
Qed.

(** C2 (as the code has it). A run interrupted after [k] tickers of
    batch [j] leaves a status document in which the tickers of the [j]
    batches saved before are terminal and all the tickers of batch [j],
    the [k] processed ones included, are still pending.  A second run
    with the same catalog asks the provider about exactly these pending
    tickers: the whole of batch [j] again and the later batches, and none
    of the tickers of the batches saved before.  The interrupted run is
    the beginning of the whole run. *)
Theorem resume_replays_batch (e1 e2 : env) (d : disk) all_tickers status0 (j k : nat) :
  disk_wf d = true ->
  TICKERS_FILE e1 = Some all_tickers ->
  TICKERS_FILE e2 = Some all_tickers ->
  load_status e1 d = ret status0 ->
  let bs := batches BATCH_SIZE
              (pending_tickers (merge_tickers (Status.tickers status0) all_tickers)) in
  let d' := replay (trace (main_interrupted e1 d j k)) d in
  fetched (trace (main_interrupted e1 d j k))
  = (List.concat (firstn j bs) ++ firstn k (nth j bs []))%list
  /\ (exists doc,
        durable_status d' = Some doc
        /\ pending_tickers (Status.tickers doc) = List.concat (skipn j bs))
  /\ fetched (trace (main e2 d')) = List.concat (skipn j bs)
  /\ ((j < List.length bs)%nat ->
      starts_with (trace (main e1 d)) (trace (main_interrupted e1 d j k))).
Proof.
  intros Hwf Hcat1 Hcat2 Hload bs d'.
  pose proof (load_status_wf e1 d status0 Hwf Hload) as Hnd.
  destruct (main_interrupted_spec e1 d all_tickers status0 j k Hcat1 Hload Hnd)
    as [tr [status' [Hrun [Hf [doc [Hfile [Hnd' [Hkeys Hp]]]]]]]].
  unfold d'. rewrite Hrun, !trace_pair.
  assert (Hdur : durable_status (replay tr d) = Some doc).
  { unfold durable_status. rewrite Hfile. now rewrite json_load_whole. }
  assert (Hload2 : load_status e2 (replay tr d) = ret doc).
  { unfold load_status. rewrite Hfile. now rewrite json_load_whole. }
  split; [exact Hf|]. split; [exists doc; split; [exact Hdur | exact Hp]|].
  split.
  - rewrite (main_fetched e2 (replay tr d) all_tickers doc Hcat2 Hload2 Hnd').
    rewrite merge_tickers_known; [exact Hp|].
    pose proof (merge_tickers_covers all_tickers (Status.tickers status0)) as Hcov.
    eapply Forall_impl; [|exact Hcov].
    intros t Ht. cbv beta in Ht. now rewrite (mem_same_keys _ _ _ Hkeys).
  - intros Hj.
    replace tr with (trace (main_interrupted e1 d j k)) by now rewrite Hrun.
    apply main_interrupted_starts.
    rewrite Hload, Hcat1. exact Hj.
Qed.

Lemma resume_replays_batch_witness :
  let d' := replay (trace (main_interrupted demo_env empty_disk 0 1)) empty_disk in
  fetched (trace (main_interrupted demo_env empty_disk 0 1)) = ["A.TO"]
  /\ fetched (trace (main demo_env d')) = ["A.TO"; "B.V"; "C.CN"].
Proof.
  destruct (resume_replays_batch demo_env demo_env empty_disk demo_catalog
              (fresh_status (clock_start demo_env)) 0 1
              eq_refl eq_refl eq_refl eq_refl) as [H1 [_ [H3 _]]].
  split; [exact H1 | exact H3].
Defined.

(** C2 fails as stated: interrupted after one ticker of a batch of
    three, the run has asked the provider about A and written its record,
    but the status document still has A pending, and the second run asks
    about A again before B and C. *)
Lemma resume_refetches_processed :
  let m := main_interrupted demo_env empty_disk 0 1 in
  let d' := replay (trace m) empty_disk in
  firstn (List.length (trace m)) (trace (main demo_env empty_disk)) = trace m
  /\ fetched (trace m) = ["A.TO"]
  /\ output_present d' "A.TO" = true
  /\ option_map (fun doc => status_of (Status.tickers doc) "A.TO") (durable_status d')
     = Some (Some "pending")
  /\ fetched (trace (main demo_env d')) = ["A.TO"; "B.V"; "C.CN"]
  /\ fetched (trace (main demo_env d')) <> ["B.V"; "C.CN"].
Proof.
  vm_compute. repeat split. discriminate.
Qed.

(** * Further properties of the ingestion script *)

(** ** Batches *)

Lemma batches_from_shape (size : nat) :
  (0 < size)%nat ->
  forall fuel pending, (List.length pending <= fuel)%nat ->
    Forall (fun b => b <> [] /\ (List.length b <= size)%nat) (batches_from fuel size pending)
    /\ (forall i, (S i < List.length (batches_from fuel size pending))%nat ->
                  List.length (nth i (batches_from fuel size pending) []) = size).
Proof.
  intros Hs. induction fuel as [|fuel IH]; intros pending Hlen.
  - simpl. split; [constructor | intros i Hi; simpl in Hi; lia].
  - destruct pending as [|x r]; [simpl; split; [constructor | intros i Hi; simpl in Hi; lia]|].
    change (batches_from (S fuel) size (x :: r))
      with (firstn size (x :: r) :: batches_from fuel size (skipn size (x :: r))).
    assert (Hsk : (List.length (skipn size (x :: r)) <= fuel)%nat).
    { pose proof (skipn_length_lt size (x :: r) Hs ltac:(discriminate)) as H.
      change (List.length (x :: r)) with (S (List.length r)) in *. lia. }
    destruct (IH _ Hsk) as [IH1 IH2]. split.
    + constructor; [|exact IH1]. split.
      * destruct size; [lia | discriminate].
      * rewrite length_firstn. lia.
    + intros [|i] Hi.
      * cbn [nth]. rewrite length_firstn.
        cbn [List.length] in Hi.
        destruct (skipn size (x :: r)) as [|y s] eqn:E.
        { destruct fuel; simpl in Hi; lia. }
        assert (List.length (skipn size (x :: r)) <> 0)%nat by (rewrite E; discriminate).
        rewrite length_skipn in H. lia.
      * cbn [nth]. apply IH2. cbn [List.length] in Hi. lia.
Qed.

(** X1. The batches of the pending snapshot, joined, are the snapshot;
    no batch is empty or longer than 20; every batch but the last has
    exactly 20 tickers. *)
Theorem batches_partition (pending : list string) :
  let bs := batches BATCH_SIZE pending in
  List.concat bs = pending
  /\ Forall (fun b => b <> [] /\ (List.length b <= BATCH_SIZE)%nat) bs
  /\ (forall i, (S i < List.length bs)%nat -> List.length (nth i bs []) = BATCH_SIZE).
Proof.
  intros bs. split; [apply batches_concat|].
  apply batches_from_shape; [unfold BATCH_SIZE; lia | lia].
Qed.

(** ** What a fetch returns *)

Lemma fetch_ticker_data_cases (t : Ticker.t) (now : stamp)
    (yf_ticker symbol exchange : string) :
  let r := fetch_ticker_data t now yf_ticker symbol exchange in
  (exists data, r = (Some data, "completed", None))
  \/ (exists s reason,
        r = (None, s, Some reason)
        /\ (s = "no_data" \/ s = "skipped" \/ s = "failed")).
Proof.
  unfold fetch_ticker_data.
  destruct (Ticker.info t) as [info|e]; [|right; eauto 6].
  destruct (no_market_data info); [right; eauto 6|].
  destruct (Info.marketCap info) as [cap|]; [|right; eauto 6].
  destruct (py_lt_int cap MARKET_CAP_MIN);
    [destruct (format_comma_0f cap); right; eauto 6|].
  destruct (py_gt_int cap MARKET_CAP_MAX);
    [destruct (format_comma_0f cap); right; eauto 6|].
  destruct (compute_days_since_last_pr _ _) as [days|e]; [|right; eauto 6].
  destruct (compute_derived _ _ _ _ _ _) as [[[pc mb] ins]|e]; [|right; eauto 6].
  left. eexists. reflexivity.
Qed.

(** X2. A fetch returns a record exactly when it answers completed, and
    then no reason; every other answer is no_data, skipped or failed
    with a reason and no record. *)
Theorem fetch_ticker_data_shape (t : Ticker.t) (now : stamp)
    (yf_ticker symbol exchange : string) :
  let r := fetch_ticker_data t now yf_ticker symbol exchange in
  (exists data, r = (Some data, "completed", None))
  \/ (exists s reason,
        r = (None, s, Some reason)
        /\ (s = "no_data" \/ s = "skipped" \/ s = "failed")).
Proof. apply fetch_ticker_data_cases. Qed.

Lemma nth_error_map_firstn {A B : Type} (f : A -> B) (k : nat) (l : list A) :
  forall i x, (i < k)%nat -> nth_error l i = Some x ->
              nth_error (map f (firstn k l)) i = Some (f x).
Proof.
  revert l. induction k as [|k IH]; intros l i x Hi Hx; [lia|].
  destruct l as [|a l]; [now destruct i|].
  destruct i as [|i]; simpl in *.
  - now injection Hx as ->.
  - apply IH; [lia | exact Hx].
Qed.

(** X3. The news items of a returned record are the first ten items
    the provider lists, in the same order, an absent title, publisher or
    link reading as the empty text and an absent publication time as 0,
    and no other item; there is none when reading the news raises.  Its
    officers are the first five officers of the bundle, in the same
    order, an absent name reading as Unknown and an absent title as
    Officer, and no other; there is none when the bundle lists none. *)
Theorem fetch_ticker_data_bounds t now yf_ticker symbol exchange data s reason :
  fetch_ticker_data t now yf_ticker symbol exchange = (Some data, s, reason) ->
  (forall n, Ticker.news t = Ok n ->
     List.length (Data.news_items data) = Nat.min 10 (List.length n)
     /\ forall i item, (i < 10)%nat -> nth_error n i = Some item ->
          nth_error (Data.news_items data) i
          = Some {| NewsItem.title :=
                      match NewsRaw.title item with Some x => x | None => "" end;
                    NewsItem.publisher :=
                      match NewsRaw.publisher item with Some x => x | None => "" end;
                    NewsItem.link :=
                      match NewsRaw.link item with Some x => x | None => "" end;
                    NewsItem.published :=
                      match NewsRaw.providerPublishTime item with
                      | Some z => z
                      | None => 0%Z
                      end |})
  /\ (forall e, Ticker.news t = Raise e -> Data.news_items data = [])
  /\ exists info,
       Ticker.info t = Ok info
       /\ (forall l, Info.companyOfficers info = Some l ->
             List.length (Data.officers data) = Nat.min 5 (List.length l)
             /\ forall i o, (i < 5)%nat -> nth_error l i = Some o ->
                  nth_error (Data.officers data) i
                  = Some (match Officer.name o with Some x => x | None => "Unknown" end,
                          match Officer.title o with Some x => x | None => "Officer" end))
       /\ (Info.companyOfficers info = None -> Data.officers data = []).
Proof.
  unfold fetch_ticker_data. intros H.
  destruct (Ticker.info t) as [info|e]; [|discriminate].
  destruct (no_market_data info); [discriminate|].
  destruct (Info.marketCap info) as [cap|]; [|discriminate].
  destruct (py_lt_int cap MARKET_CAP_MIN);
    [destruct (format_comma_0f cap); discriminate|].
  destruct (py_gt_int cap MARKET_CAP_MAX);
    [destruct (format_comma_0f cap); discriminate|].
  destruct (compute_days_since_last_pr _ _) as [days|e]; [|discriminate].
  destruct (compute_derived _ _ _ _ _ _) as [[[pc mb] ins]|e]; [|discriminate].
  injection H as <- _ _.
  cbn [Data.news_items Data.officers]. split; [|split].
  - intros n Hn. rewrite Hn. unfold read_news. split.
    + now rewrite length_map, length_firstn.
    + intros i item Hi Hitem.
      apply (nth_error_map_firstn news_item 10 n i item Hi Hitem).
  - intros e Hn. now rewrite Hn.
  - exists info. split; [reflexivity|]. split.
    + intros l Hl. rewrite Hl. unfold read_officers. split.
      * now rewrite length_map, length_firstn.
      * intros i o Hi Ho.
        apply (nth_error_map_firstn
                 (fun o => (match Officer.name o with Some x => x | None => "Unknown" end,
                            match Officer.title o with Some x => x | None => "Officer" end))
                 5 l i o Hi Ho).
    + intros Hl. now rewrite Hl.
Qed.

(** A provider that lists twelve news items and seven officers: the
    record has ten items, the tenth being the tenth listed, and five
    officers, the fifth being the fifth listed. *)
Lemma fetch_ticker_data_bounds_witness :
  exists data,
    fetch_ticker_data busy_ticker (mk_stamp "t" 1704067202) "A.TO" "A" "TSX"
    = (Some data, "completed", None)
    /\ List.length (Data.news_items data) = 10%nat
    /\ nth_error (Data.news_items data) 9
       = Some (NewsItem.mk "headline 10" "" "https://example.com/10" 1700000010)
    /\ nth_error (Data.news_items data) 10 = None
    /\ List.length (Data.officers data) = 5%nat
    /\ nth_error (Data.officers data) 4 = Some ("officer 5", "Officer")
    /\ nth_error (Data.officers data) 5 = None.
Proof.
  destruct (fetch_ticker_data busy_ticker (mk_stamp "t" 1704067202) "A.TO" "A" "TSX")
    as [[[data|] s] reason] eqn:E; [|vm_compute in E; discriminate].
  destruct (fetch_ticker_data_bounds _ _ _ _ _ _ _ _ E) as [Hn [_ [info [Hi [Ho _]]]]].
  destruct (Hn (map demo_news (seq 1 12)) eq_refl) as [Hlen Hitem].
  injection Hi as <-.
  destruct (Ho (map demo_officer (seq 1 7)) eq_refl) as [Holen Hoitem].
  exists data.
  split; [vm_compute in E; now injection E as _ <- <-|].
  split; [exact Hlen|].
  split; [exact (Hitem 9%nat (demo_news 10) ltac:(lia) eq_refl)|].
  split; [apply nth_error_None; rewrite Hlen; simpl; lia|].
  split; [exact Holen|].
  split; [exact (Hoitem 4%nat (demo_officer 5) ltac:(lia) eq_refl)|].
  apply nth_error_None. rewrite Holen. simpl. lia.
Defined.

(** ** The record of a processed ticker *)

Lemma or_str_default (x : option string) (default : string) :
  exists r, or_str x (Some default) = Some r.
Proof. destruct x as [[|c s]|]; simpl; eauto. Qed.

(** The new record after the result of a fetch has been applied. *)
Lemma handle_result_record e yf_ticker ticker_info t now symbol exchange :
  let ti' :=
    fst (handle_result e yf_ticker ticker_info
           (fetch_ticker_data t now yf_ticker symbol exchange)) in
  TickerInfo.symbol ti' = TickerInfo.symbol ticker_info
  /\ TickerInfo.exchange ti' = TickerInfo.exchange ticker_info
  /\ ((TickerInfo.status ti' = "completed"
       /\ TickerInfo.reason ti' = None
       /\ exists data,
            fetch_ticker_data t now yf_ticker symbol exchange = (Some data, "completed", None)
            /\ TickerInfo.market_cap ti' = Some (Data.market_cap data)
            /\ TickerInfo.vettr_ticker ti' = Some (Data.vettr_ticker data))
      \/ ((TickerInfo.status ti' = "skipped" \/ TickerInfo.status ti' = "failed")
          /\ (exists reason, TickerInfo.reason ti' = Some reason)
          /\ TickerInfo.market_cap ti' = TickerInfo.market_cap ticker_info
          /\ TickerInfo.vettr_ticker ti' = TickerInfo.vettr_ticker ticker_info)).
Proof.
  destruct (fetch_ticker_data_cases t now yf_ticker symbol exchange)
    as [[data ->]|[s [reason [-> Hs]]]].
  - unfold handle_result. rewrite String.eqb_refl.
    destruct (output_error e yf_ticker) as [msg|]; cbn [fst].
    + split; [reflexivity|]. split; [reflexivity|]. right. simpl. eauto 8.
    + split; [reflexivity|]. split; [reflexivity|]. left. simpl.
      split; [reflexivity|]. split; [reflexivity|]. exists data. auto.
  - unfold handle_result.
    assert (E : String.eqb s "completed" = false)
      by (destruct Hs as [->|[->| ->]]; reflexivity).
    rewrite E. cbn [fst]. unfold classify_other.
    destruct (or_str_default (Some reason) "No data") as [r1 Hr1].
    destruct (or_str_default (Some reason) "Unknown error") as [r2 Hr2].
    destruct Hs as [->|[->| ->]]; cbn [String.eqb Ascii.eqb Bool.eqb];
      unfold set_outcome;
      cbn [TickerInfo.symbol TickerInfo.exchange TickerInfo.status TickerInfo.reason
           TickerInfo.market_cap TickerInfo.vettr_ticker];
      (split; [reflexivity|]); (split; [reflexivity|]); right;
      (split; [auto|]); (split; [eauto|]); split; reflexivity.
Qed.



(** ** A whole run *)

Lemma process_ticker_success e status yf_ticker tr status' :
  process_ticker e status yf_ticker = (tr, Some status') ->
  exists ti ti',
    Dict.get (Status.tickers status) yf_ticker = Some ti
    /\ status' = with_tickers status (Dict.set (Status.tickers status) yf_ticker ti')
    /\ terminalb (TickerInfo.status ti') = true.
Proof.
  intros Hrun.
  destruct (Dict.get (Status.tickers status) yf_ticker) as [ti|] eqn:Hget.
  - destruct (process_ticker_spec e status yf_ticker ti Hget)
      as [ti' [writes [Hrun' [Hterm _]]]].
    rewrite Hrun' in Hrun. injection Hrun as _ <-. eauto.
  - unfold process_ticker in Hrun. rewrite Hget in Hrun. discriminate.
Qed.

Lemma bind_success {A B : Type} (m : M A) (k : A -> M B) tr b :
  bind m k = (tr, Some b) ->
  exists tr1 a tr2, m = (tr1, Some a) /\ k a = (tr2, Some b) /\ tr = (tr1 ++ tr2)%list.
Proof.
  destruct m as [tr1 [a|]]; unfold bind; [|discriminate].
  destruct (k a) as [tr2 r] eqn:E. intros H. injection H as <- ->.
  exists tr1, a, tr2. auto.
Qed.

Lemma saves_app tr1 tr2 : saves (tr1 ++ tr2)%list = (saves tr1 + saves tr2)%nat.
Proof.
  induction tr1 as [|ev a IHa]; [reflexivity|].
  destruct ev; simpl; rewrite IHa; reflexivity.
Qed.

Lemma saves_quiet tr : Forall status_quiet tr -> saves tr = 0%nat.
Proof.
  induction tr as [|ev l IHl]; intros Hl; [reflexivity|].
  inversion Hl; subst. destruct ev; simpl in *; tauto.
Qed.

(** A batch leaves alone the records and the output files of the tickers
    it does not name, and makes terminal those it names. *)
Lemma process_batch_effect e : forall batch status tr status',
  process_batch e status batch = (tr, Some status') ->
  (forall id, ~ In id batch ->
              Dict.get (Status.tickers status') id = Dict.get (Status.tickers status) id
              /\ forall d, Dict.get (STOCK_DATA_DIR (replay tr d)) id
                           = Dict.get (STOCK_DATA_DIR d) id)
  /\ (forall id, In id batch -> terminal_in (Status.tickers status') id = true)
  /\ saves tr = 0%nat
  /\ Forall status_quiet tr.
Proof.
  induction batch as [|x rest IH]; intros status tr status' Hrun.
  - injection Hrun as <- <-. repeat split; auto; try contradiction.
  - rewrite process_batch_cons in Hrun.
    destruct (bind_success _ _ _ _ Hrun) as [tr1 [status1 [tr2 [H1 [H2 ->]]]]].
    destruct (process_ticker_success _ _ _ _ _ H1) as [ti [ti' [Hget [-> Hterm]]]].
    destruct (IH _ _ _ H2) as [IHo [IHt [IHs IHq]]].
    pose proof (process_ticker_quiet e status x) as Hq. rewrite H1 in Hq.
    pose proof (process_ticker_output_only e status x) as Ho. rewrite H1 in Ho.
    change (trace (tr1, Some (with_tickers status (Dict.set (Status.tickers status) x ti'))))
      with tr1 in Hq, Ho.
    split; [|split; [|split]].
    + intros id Hid. simpl in Hid.
      destruct (IHo id ltac:(tauto)) as [Hg Hd]. split.
      * rewrite Hg. simpl. apply DictFacts.get_set_other. tauto.
      * intros d. rewrite replay_app, Hd.
        apply replay_outputs_other with (yf_ticker := x); auto.
    + intros id [<-|Hin].
      * eapply process_batch_terminal; [exact H2|].
        unfold terminal_in. simpl. now rewrite status_of_set_same.
      * now apply IHt.
    + rewrite saves_app, IHs, (saves_quiet _ Hq). reflexivity.
    + apply Forall_app. split; assumption.
Qed.

Lemma saves_put_status n : saves (repeat PutStatus n) = 0%nat.
Proof. induction n; simpl; auto. Qed.

Lemma saves_save status now : saves (trace (save_status status now)) = 1%nat.
Proof.
  unfold save_status, trace, fst. simpl. now rewrite saves_put_status.
Qed.

Lemma outputs_save status now d :
  STOCK_DATA_DIR (replay (trace (save_status status now)) d) = STOCK_DATA_DIR d.
Proof. now rewrite replay_save. Qed.

Lemma save_status_success status now tr status' :
  save_status status now = (tr, Some status') ->
  tr = trace (save_status status now) /\ status' = stamp_status status now.
Proof.
  intros H. rewrite H. unfold save_status in H. injection H as _ <-.
  split; reflexivity.
Qed.

Lemma run_batches_effect e : forall bs status batch_num tr status',
  run_batches e status bs batch_num = (tr, Some status') ->
  (forall id, ~ In id (List.concat bs) ->
              Dict.get (Status.tickers status') id = Dict.get (Status.tickers status) id
              /\ forall d, Dict.get (STOCK_DATA_DIR (replay tr d)) id
                           = Dict.get (STOCK_DATA_DIR d) id)
  /\ (forall id, In id (List.concat bs) -> terminal_in (Status.tickers status') id = true)
  /\ saves tr = List.length bs.
Proof.
  induction bs as [|batch rest IH]; intros status batch_num tr status' Hrun.
  - injection Hrun as <- <-. repeat split; auto; try contradiction.
  - rewrite run_batches_cons in Hrun.
    destruct (bind_success _ _ _ _ Hrun) as [tr1 [status1 [tr2 [H1 [H2 ->]]]]].
    destruct (bind_success _ _ _ _ H2) as [trs [status2 [tr3 [Hsave [H4 ->]]]]].
    destruct (save_status_success _ _ _ _ Hsave) as [-> ->].
    destruct (process_batch_effect e _ _ _ _ H1) as [Ho1 [Ht1 [Hs1 _]]].
    destruct (IH _ _ _ _ H4) as [Ho3 [Ht3 Hs3]].
    simpl List.concat. split; [|split].
    + intros id Hid. rewrite in_app_iff in Hid.
      destruct (Ho1 id ltac:(tauto)) as [Hg1 Hd1].
      destruct (Ho3 id ltac:(tauto)) as [Hg3 Hd3]. split.
      * rewrite Hg3. exact Hg1.
      * intros d. rewrite !replay_app, Hd3, outputs_save. apply Hd1.
    + intros id Hid. rewrite in_app_iff in Hid. destruct Hid as [Hin|Hin].
      * eapply run_batches_terminal; [exact H4|].
        rewrite tickers_stamp. now apply Ht1.
      * now apply Ht3.
    + rewrite !saves_app, Hs1, saves_save, Hs3. reflexivity.
Qed.

Lemma count_pending tickers :
  count_status "pending" tickers = List.length (pending_tickers tickers).
Proof.
  unfold count_status, pending_tickers, Dict.values.
  rewrite length_map. induction tickers as [|[k v] r IH]; [reflexivity|].
  simpl. destruct (String.eqb (TickerInfo.status v) "pending"); simpl; now rewrite IH.
Qed.

Lemma save_status_eq status now :
  save_status status now = (trace (save_status status now), Some (stamp_status status now)).
Proof. reflexivity. Qed.

(** What a run does when the tickers file is there and the status loads:
    the history, the document it leaves, and what it did not touch. *)
Lemma main_run_spec e d all_tickers status0 :
  TICKERS_FILE e = Some all_tickers ->
  load_status e d = ret status0 ->
  NoDup (Dict.keys (Status.tickers status0)) ->
  let tickers1 := merge_tickers (Status.tickers status0) all_tickers in
  let pending0 := pending_tickers tickers1 in
  exists tr doc,
    main e d = (tr, Some tt)
    /\ STATUS_FILE (replay tr d) = Some (mk_status_file doc (String.length (json_dump doc)))
    /\ NoDup (Dict.keys (Status.tickers doc))
    /\ Dict.keys (Status.tickers doc) = Dict.keys tickers1
    /\ pending_tickers (Status.tickers doc) = []
    /\ Status.stats doc = summarize (Status.tickers doc)
    /\ fetched tr = pending0
    /\ saves tr = match pending0 with
                  | [] => 1%nat
                  | _ => (List.length (batches BATCH_SIZE pending0) + 2)%nat
                  end
    /\ (forall id, In id pending0 -> terminal_in (Status.tickers doc) id = true)
    /\ (forall id, ~ In id pending0 ->
                   Dict.get (Status.tickers doc) id = Dict.get tickers1 id
                   /\ Dict.get (STOCK_DATA_DIR (replay tr d)) id
                      = Dict.get (STOCK_DATA_DIR d) id).
Proof.
  intros Hcat Hload Hnd tickers1 pending0.
  assert (Hnd1 : NoDup (Dict.keys tickers1)) by now apply merge_tickers_wf.
  set (now0 := clock_save e 0).
  set (status1 := stamp_status (with_tickers status0 tickers1) now0).
  set (tr0 := trace (save_status (with_tickers status0 tickers1) now0)).
  rewrite main_unfold, Hcat, Hload, bind_ret_l. unfold main_after_load.
  fold tickers1. fold now0.
  destruct pending0 as [|p ps] eqn:Hp; unfold pending0 in Hp.
  - exists (tr0 ++ [])%list, status1. split.
    + erewrite bind_ok; [reflexivity | apply save_status_eq |].
      cbv beta zeta. rewrite tickers_stamp, tickers_with, Hp. reflexivity.
    + rewrite app_nil_r. unfold tr0. rewrite replay_save, fetched_save, saves_save.
      fold status1. change (Status.tickers status1) with tickers1.
      repeat split; auto; contradiction.
  - set (bs := batches BATCH_SIZE (p :: ps)).
    destruct (run_batches_resume e bs [] status1 0%nat (replay tr0 d))
      as [tr2 [status2 [Hrun2 [Hnd2 [Hk2 [Hp2 [Hf2 Hs2]]]]]]].
    + exact Hnd1.
    + change (Status.tickers status1) with tickers1.
      rewrite Hp. unfold bs. now rewrite batches_concat, app_nil_r.
    + apply saved_tickers_save.
    + destruct (run_batches_effect e _ _ _ _ _ Hrun2) as [Ho [Ht Hsv]].
      unfold bs in Ho, Ht. rewrite batches_concat in Ho, Ht.
      set (nowF := clock_save e (S (List.length bs))).
      set (trF := trace (save_status status2 nowF)).
      exists (tr0 ++ (tr2 ++ (trF ++ [])))%list, (stamp_status status2 nowF). split.
      * erewrite bind_ok; [reflexivity | apply save_status_eq |].
        cbv beta zeta. rewrite tickers_stamp, tickers_with, Hp. fold bs.
        erewrite bind_ok; [reflexivity | exact Hrun2 |].
        cbv beta. erewrite bind_ok; [reflexivity | apply save_status_eq | reflexivity].
      * rewrite app_nil_r, !replay_app. unfold trF. rewrite replay_save.
        rewrite !fetched_app, !saves_app, fetched_save, saves_save, Hsv, Hf2.
        unfold tr0. rewrite fetched_save, saves_save.
        rewrite tickers_stamp.
        split; [reflexivity|]. split; [exact Hnd2|]. split; [exact Hk2|].
        split; [exact Hp2|]. split; [reflexivity|].
        split; [unfold bs; now rewrite batches_concat, app_nil_r|].
        split; [lia|]. split; [exact Ht|].
        intros id Hid. destruct (Ho id Hid) as [Hg Hd]. split; [exact Hg|].
        cbn [STOCK_DATA_DIR]. rewrite Hd. now rewrite outputs_save.
Qed.

Lemma durable_whole d doc :
  STATUS_FILE d = Some (mk_status_file doc (String.length (json_dump doc))) ->
  durable_status d = Some doc.
Proof. intros H. unfold durable_status. now rewrite H, json_load_whole. Qed.

Lemma load_whole e d doc :
  STATUS_FILE d = Some (mk_status_file doc (String.length (json_dump doc))) ->
  load_status e d = ret doc.
Proof. intros H. unfold load_status. now rewrite H, json_load_whole. Qed.

(** X5. A run that finds its tickers file and can load the status runs
    to its end and leaves a status document that loads, in which no
    ticker is pending, the pending counter is 0 and every ticker of
    the pending snapshot is completed, skipped or failed. *)
Theorem run_leaves_no_pending (e : env) (d : disk) all_tickers status0 :
  disk_wf d = true ->
  TICKERS_FILE e = Some all_tickers ->
  load_status e d = ret status0 ->
  snd (main e d) = Some tt
  /\ exists doc,
       durable_status (disk_after_main e d) = Some doc
       /\ pending_tickers (Status.tickers doc) = []
       /\ Stats.pending (Status.stats doc) = 0%nat
       /\ Stats.total (Status.stats doc) = List.length (Status.tickers doc)
       /\ Forall (fun id => terminal_in (Status.tickers doc) id = true)
                 (pending_tickers (merge_tickers (Status.tickers status0) all_tickers)).
Proof.
  intros Hwf Hcat Hload.
  pose proof (load_status_wf e d status0 Hwf Hload) as Hnd.
  destruct (main_run_spec e d all_tickers status0 Hcat Hload Hnd)
    as [tr [doc [Hmain [Hfile [_ [_ [Hp [Hstats [_ [_ [Hterm _]]]]]]]]]]].
  unfold disk_after_main. rewrite Hmain. cbn [snd trace fst].
  split; [reflexivity|]. exists doc. split; [now apply durable_whole|].
  split; [exact Hp|]. rewrite Hstats. cbn [Stats.pending Stats.total summarize].
  rewrite count_pending, Hp. split; [reflexivity|]. split; [reflexivity|].
  apply Forall_forall. exact Hterm.
Qed.

Lemma run_leaves_no_pending_witness :
  snd (main demo_env empty_disk) = Some tt
  /\ exists doc,
       durable_status (disk_after_main demo_env empty_disk) = Some doc
       /\ pending_tickers (Status.tickers doc) = [].
Proof.
  destruct (run_leaves_no_pending demo_env empty_disk demo_catalog
              (fresh_status (clock_start demo_env)) eq_refl eq_refl eq_refl)
    as [H [doc [H1 [H2 _]]]].
  split; [exact H|]. exists doc. split; assumption.
Defined.

(** X6. A run asks the provider about the tickers that are pending once
    the catalog is merged, each exactly once, in the order of the store,
    and about no other ticker. *)
Theorem run_fetches_pending_once (e : env) (d : disk) all_tickers status0 :
  disk_wf d = true ->
  TICKERS_FILE e = Some all_tickers ->
  load_status e d = ret status0 ->
  let tickers1 := merge_tickers (Status.tickers status0) all_tickers in
  fetched (trace (main e d)) = pending_tickers tickers1
  /\ NoDup (fetched (trace (main e d)))
  /\ Forall (fun id => status_of tickers1 id = Some "pending") (fetched (trace (main e d))).
Proof.
  intros Hwf Hcat Hload tickers1.
  pose proof (load_status_wf e d status0 Hwf Hload) as Hnd.
  destruct (main_run_spec e d all_tickers status0 Hcat Hload Hnd)
    as [tr [doc [Hmain [_ [_ [_ [_ [_ [Hf _]]]]]]]]].
  rewrite Hmain. cbn [trace fst]. rewrite Hf.
  assert (Hnd1 : NoDup (Dict.keys tickers1)) by now apply merge_tickers_wf.
  split; [reflexivity|]. split; [now apply pending_tickers_NoDup|].
  apply Forall_forall. intros id Hin. now apply pending_tickers_pending.
Qed.

Lemma run_fetches_pending_once_witness :
  fetched (trace (main demo_env empty_disk)) = ["A.TO"; "B.V"; "C.CN"].
Proof.
  apply (run_fetches_pending_once demo_env empty_disk demo_catalog
           (fresh_status (clock_start demo_env)) eq_refl eq_refl eq_refl).
Defined.

(** X7. A ticker that the loaded store has in a status other than
    pending is not touched by a run: its record in the final document is
    the record that was loaded, and its output file is as it was. *)
Theorem run_keeps_settled_records (e : env) (d : disk) all_tickers status0 id ticker_info :
  disk_wf d = true ->
  TICKERS_FILE e = Some all_tickers ->
  load_status e d = ret status0 ->
  Dict.get (Status.tickers status0) id = Some ticker_info ->
  TickerInfo.status ticker_info <> "pending" ->
  ~ In id (fetched (trace (main e d)))
  /\ (exists doc,
        durable_status (disk_after_main e d) = Some doc
        /\ Dict.get (Status.tickers doc) id = Some ticker_info)
  /\ Dict.get (STOCK_DATA_DIR (disk_after_main e d)) id = Dict.get (STOCK_DATA_DIR d) id.
Proof.
  intros Hwf Hcat Hload Hget Hstatus.
  pose proof (load_status_wf e d status0 Hwf Hload) as Hnd.
  destruct (main_run_spec e d all_tickers status0 Hcat Hload Hnd)
    as [tr [doc [Hmain [Hfile [_ [_ [_ [_ [Hf [_ [_ Hothers]]]]]]]]]]].
  assert (Hmem : Dict.mem (Status.tickers status0) id = true)
    by (unfold Dict.mem; now rewrite Hget).
  assert (Hnot : ~ In id (pending_tickers
                            (merge_tickers (Status.tickers status0) all_tickers))).
  { intros Hin. apply pending_tickers_pending in Hin; [|now apply merge_tickers_wf].
    unfold status_of in Hin.
    rewrite merge_tickers_keeps_get, Hget in Hin by exact Hmem.
    simpl in Hin. congruence. }
  destruct (Hothers id Hnot) as [Hg Hd].
  unfold disk_after_main. rewrite Hmain. cbn [trace fst]. rewrite Hf.
  split; [exact Hnot|]. split; [|exact Hd].
  exists doc. split; [now apply durable_whole|].
  rewrite Hg, merge_tickers_keeps_get by exact Hmem. exact Hget.
Qed.

Lemma run_keeps_settled_records_witness :
  let d := disk_with_status demo_status_failed Dict.empty in
  ~ In "A.TO" (fetched (trace (main demo_env d)))
  /\ exists doc,
       durable_status (disk_after_main demo_env d) = Some doc
       /\ Dict.get (Status.tickers doc) "A.TO"
          = Some (TickerInfo.mk "failed" "A" "TSX" (Some "provider error") None None).
Proof.
  intros d.
  destruct (run_keeps_settled_records demo_env d demo_catalog demo_status_failed "A.TO"
              (TickerInfo.mk "failed" "A" "TSX" (Some "provider error") None None)
              eq_refl eq_refl) as [H1 [H2 _]].
  - unfold d. apply load_whole. reflexivity.
  - reflexivity.
  - discriminate.
  - split; assumption.
Defined.

Lemma merge_tickers_added all_tickers : forall tickers,
  exists added,
    merge_tickers tickers all_tickers = (tickers ++ added)%list
    /\ incl (Dict.keys added) (map Entity.yfinance_ticker all_tickers).
Proof.
  induction all_tickers as [|t r IH]; intros tickers.
  - exists []. split; [simpl; now rewrite app_nil_r | intros k []].
  - rewrite merge_tickers_cons. destruct (IH (merge_step tickers t)) as [a2 [E2 I2]].
    unfold merge_step in *.
    destruct (Dict.mem tickers (Entity.yfinance_ticker t)) eqn:E.
    + exists a2. split; [exact E2|]. intros k Hk. right. now apply I2.
    + rewrite DictFacts.set_absent in E2 |- * by exact E.
      exists ((Entity.yfinance_ticker t, pending_info t) :: a2). split.
      * rewrite E2, <- app_assoc. reflexivity.
      * intros k [<-|Hk]; [now left | right; now apply I2].
Qed.

(** X8. A run never removes a ticker from the store nor moves one: the
    keys of the final document are the keys of the loaded store, in the
    same order, followed by keys of the catalog, without repetition. *)
Theorem run_keeps_keys (e : env) (d : disk) all_tickers status0 :
  disk_wf d = true ->
  TICKERS_FILE e = Some all_tickers ->
  load_status e d = ret status0 ->
  exists doc added,
    durable_status (disk_after_main e d) = Some doc
    /\ Dict.keys (Status.tickers doc) = (Dict.keys (Status.tickers status0) ++ added)%list
    /\ NoDup (Dict.keys (Status.tickers doc))
    /\ incl added (map Entity.yfinance_ticker all_tickers)
    /\ incl (map Entity.yfinance_ticker all_tickers) (Dict.keys (Status.tickers doc)).
Proof.
  intros Hwf Hcat Hload.
  pose proof (load_status_wf e d status0 Hwf Hload) as Hnd.
  destruct (main_run_spec e d all_tickers status0 Hcat Hload Hnd)
    as [tr [doc [Hmain [Hfile [Hnd' [Hkeys _]]]]]].
  destruct (merge_tickers_added all_tickers (Status.tickers status0))
    as [added [Eadd Hincl]].
  exists doc, (Dict.keys added).
  unfold disk_after_main. rewrite Hmain. cbn [trace fst].
  split; [now apply durable_whole|]. rewrite Hkeys.
  split; [rewrite Eadd; unfold Dict.keys; now rewrite map_app|].
  split; [rewrite <- Hkeys; exact Hnd'|]. split.
  - exact Hincl.
  - intros k Hin. apply in_map_iff in Hin. destruct Hin as [t [<- Ht]].
    apply DictFacts.mem_In_keys.
    pose proof (merge_tickers_covers all_tickers (Status.tickers status0)) as Hcov.
    rewrite Forall_forall in Hcov. now apply Hcov.
Qed.

Lemma run_keeps_keys_witness :
  exists doc,
    durable_status (disk_after_main demo_env empty_disk) = Some doc
    /\ Dict.keys (Status.tickers doc) = ["A.TO"; "B.V"; "C.CN"].
Proof.
  destruct (run_keeps_keys demo_env empty_disk demo_catalog
              (fresh_status (clock_start demo_env)) eq_refl eq_refl eq_refl)
    as [doc [added [H1 _]]].
  exists doc. split; [exact H1|].
  vm_compute in H1. injection H1 as <-. reflexivity.
Defined.

Lemma get_not_in_keys {V : Type} (d : Dict.t V) (k : string) :
  ~ In k (Dict.keys d) -> Dict.get d k = None.
Proof.
  intros H. destruct (Dict.get d k) as [v|] eqn:E; [|reflexivity].
  exfalso. apply H, DictFacts.mem_In_keys. unfold Dict.mem. now rewrite E.
Qed.

(** Two dictionaries with the same keys in the same order and the same
    value at every key are the same dictionary. *)
Lemma dict_ext {V : Type} : forall d1 d2 : Dict.t V,
  Dict.keys d1 = Dict.keys d2 ->
  NoDup (Dict.keys d1) ->
  (forall k, Dict.get d1 k = Dict.get d2 k) ->
  d1 = d2.
Proof.
  induction d1 as [|[k1 v1] r1 IH]; intros [|[k2 v2] r2] Hk Hnd Hg;
    try discriminate; [reflexivity|].
  simpl in Hk. injection Hk as -> Hk. simpl in Hnd. inversion Hnd; subst.
  pose proof (Hg k2) as H0. simpl in H0. rewrite String.eqb_refl in H0.
  injection H0 as ->. f_equal. apply IH; auto.
  intros k. destruct (String.eqb_spec k2 k) as [<-|Hne].
  - rewrite !get_not_in_keys; auto. now rewrite <- Hk.
  - specialize (Hg k). simpl in Hg. apply String.eqb_neq in Hne.
    now rewrite Hne in Hg.
Qed.

(** X9. After a run that reached its end, a second run over a catalog
    that brings no new ticker asks the provider for nothing, whatever
    the provider would now answer: skipped and failed tickers are not
    retried.  It saves the status once, with the same tickers and
    counters, and leaves every output file as it was. *)
Theorem rerun_fetches_nothing (e1 e2 : env) (d : disk) cat1 cat2 status0 :
  disk_wf d = true ->
  TICKERS_FILE e1 = Some cat1 ->
  load_status e1 d = ret status0 ->
  TICKERS_FILE e2 = Some cat2 ->
  incl (map Entity.yfinance_ticker cat2) (map Entity.yfinance_ticker cat1) ->
  let d1 := disk_after_main e1 d in
  fetched (trace (main e2 d1)) = []
  /\ saves (trace (main e2 d1)) = 1%nat
  /\ (forall id, Dict.get (STOCK_DATA_DIR (disk_after_main e2 d1)) id
                 = Dict.get (STOCK_DATA_DIR d1) id)
  /\ exists doc1 doc2,
       durable_status d1 = Some doc1
       /\ durable_status (disk_after_main e2 d1) = Some doc2
       /\ Status.tickers doc2 = Status.tickers doc1
       /\ Status.stats doc2 = Status.stats doc1.
Proof.
  intros Hwf Hcat1 Hload Hcat2 Hincl d1.
  pose proof (load_status_wf e1 d status0 Hwf Hload) as Hnd.
  destruct (main_run_spec e1 d cat1 status0 Hcat1 Hload Hnd)
    as [tr [doc [Hmain [Hfile [Hnd1 [Hkeys [Hp [Hstats _]]]]]]]].
  assert (Ed1 : d1 = replay tr d)
    by (unfold d1, disk_after_main; now rewrite Hmain).
  rewrite <- Ed1 in Hfile.
  assert (Hknown : merge_tickers (Status.tickers doc) cat2 = Status.tickers doc).
  { apply merge_tickers_known. apply Forall_forall. intros t Ht.
    apply DictFacts.mem_In_keys. rewrite Hkeys. apply DictFacts.mem_In_keys.
    pose proof (merge_tickers_covers cat1 (Status.tickers status0)) as Hcov.
    rewrite Forall_forall in Hcov.
    assert (Hin : In (Entity.yfinance_ticker t) (map Entity.yfinance_ticker cat1))
      by (apply Hincl, in_map, Ht).
    apply in_map_iff in Hin. destruct Hin as [t1 [E1 Ht1]].
    rewrite <- E1. now apply Hcov. }
  destruct (main_run_spec e2 d1 cat2 doc Hcat2 (load_whole e2 d1 doc Hfile) Hnd1)
    as [tr2 [doc2 [Hmain2 [Hfile2 [Hnd2 [Hkeys2 [Hp2 [Hstats2 [Hf2 [Hs2 [_ Ho2]]]]]]]]]]].
  rewrite Hknown, Hp in *.
  unfold disk_after_main. rewrite Hmain2. cbn [trace fst].
  split; [exact Hf2|]. split; [exact Hs2|].
  split; [intros id; now apply Ho2|].
  exists doc, doc2. split; [now apply durable_whole|].
  split; [now apply durable_whole|].
  assert (Et : Status.tickers doc2 = Status.tickers doc).
  { apply dict_ext; auto. intros k. now apply Ho2. }
  split; [exact Et|]. now rewrite Hstats2, Hstats, Et.
Qed.

Lemma rerun_fetches_nothing_witness :
  fetched (trace (main demo_env (disk_after_main demo_env empty_disk))) = [].
Proof.
  apply (rerun_fetches_nothing demo_env demo_env empty_disk demo_catalog demo_catalog
           (fresh_status (clock_start demo_env)) eq_refl eq_refl eq_refl eq_refl
           (incl_refl _)).
Defined.

Lemma batches_from_length (size : nat) :
  (0 < size)%nat ->
  forall fuel pending, (List.length pending <= fuel)%nat ->
    List.length (batches_from fuel size pending)
    = ((List.length pending + size - 1) / size)%nat.
Proof.
  intros Hs. induction fuel as [|fuel IH]; intros pending Hlen.
  - destruct pending; [|simpl in Hlen; lia].
    simpl. symmetry. apply Nat.div_small. lia.
  - destruct pending as [|x r].
    + simpl. symmetry. apply Nat.div_small. lia.
    + cbn [batches_from]. cbn [List.length] in Hlen.
      change (List.length (firstn size (x :: r)
                :: batches_from fuel size (skipn size (x :: r))))
        with (S (List.length (batches_from fuel size (skipn size (x :: r))))).
      rewrite IH by (rewrite length_skipn; cbn [List.length]; lia).
      rewrite length_skipn.
      set (n := List.length (x :: r)).
      assert (Hn : (1 <= n)%nat) by (unfold n; cbn [List.length]; lia).
      clearbody n.
      destruct (Nat.le_gt_cases n size) as [Hle|Hgt].
      * replace (n - size + size - 1)%nat with (size - 1)%nat by lia.
        rewrite Nat.div_small by lia.
        apply Nat.div_unique with (r := (n - 1)%nat); lia.
      * replace (n + size - 1)%nat with ((n - size + size - 1) + 1 * size)%nat by lia.
        rewrite Nat.div_add by lia. lia.
Qed.

Lemma batches_length (pending : list string) :
  List.length (batches BATCH_SIZE pending)
  = ((List.length pending + BATCH_SIZE - 1) / BATCH_SIZE)%nat.
Proof. apply batches_from_length; [unfold BATCH_SIZE; lia | lia]. Qed.

(** X10. A run writes the status file once after the merge, once after
    each batch and once at the end: one save when nothing is pending,
    and the number of batches plus two otherwise, where the number of
    batches is the number of pending tickers divided by the batch size,
    rounded up. *)
Theorem run_save_count (e : env) (d : disk) all_tickers status0 :
  disk_wf d = true ->
  TICKERS_FILE e = Some all_tickers ->
  load_status e d = ret status0 ->
  let pending := pending_tickers (merge_tickers (Status.tickers status0) all_tickers) in
  let n := List.length pending in
  saves (trace (main e d))
  = (if Nat.eqb n 0 then 1 else (n + BATCH_SIZE - 1) / BATCH_SIZE + 2)%nat.
Proof.
  intros Hwf Hcat Hload pending n.
  pose proof (load_status_wf e d status0 Hwf Hload) as Hnd.
  destruct (main_run_spec e d all_tickers status0 Hcat Hload Hnd)
    as [tr [doc [Hmain [_ [_ [_ [_ [_ [_ [Hs _]]]]]]]]]].
  rewrite Hmain. cbn [trace fst]. rewrite Hs. fold pending. unfold n.
  destruct pending as [|p ps] eqn:E; [reflexivity|].
  rewrite batches_length. cbn [List.length Nat.eqb]. reflexivity.
Qed.

Lemma run_save_count_witness :
  saves (trace (main demo_env empty_disk)) = 3%nat.
Proof.
  apply (run_save_count demo_env empty_disk demo_catalog
           (fresh_status (clock_start demo_env)) eq_refl eq_refl eq_refl).
Defined.

(** X11. Without the tickers file, or with a status file whose text is
    cut short, a run stops before it has fetched or written anything: the
    disk is as before.  In the second case the run ends with the decoding
    error. *)
Theorem run_stops_early (e : env) (d : disk) :
  (TICKERS_FILE e = None
   \/ exists f, STATUS_FILE d = Some f
                /\ (sf_written f < String.length (json_dump (sf_doc f)))%nat) ->
  trace (main e d) = []
  /\ disk_after_main e d = d
  /\ (TICKERS_FILE e <> None -> snd (main e d) = None).
Proof.
  intros H. unfold disk_after_main. rewrite main_unfold.
  destruct (TICKERS_FILE e) as [all_tickers|] eqn:Hcat.
  - destruct H as [H|[f [Hf Hcut]]]; [discriminate|].
    unfold load_status. rewrite Hf. unfold json_load, status_file_complete.
    destruct (Nat.leb_spec (String.length (json_dump (sf_doc f))) (sf_written f))
      as [E|E]; [lia|].
    repeat split; reflexivity.
  - repeat split; try reflexivity. intros Hne. now contradiction Hne.
Qed.

Lemma run_stops_early_witness :
  let d := {| STATUS_FILE := Some (mk_status_file demo_status_pending 10);
              STOCK_DATA_DIR := Dict.empty |} in
  trace (main demo_env d) = [] /\ snd (main demo_env d) = None.
Proof.
  intros d.
  destruct (run_stops_early demo_env d) as [H1 [_ H2]].
  - right. exists (mk_status_file demo_status_pending 10).
    split; [reflexivity|]. vm_compute. lia.
  - split; [exact H1 | apply H2; discriminate].
Defined.

(** ** A first run over a catalog *)

Lemma pending_tickers_all (tickers : Dict.t TickerInfo.t) :
  Forall (fun kv => TickerInfo.status (snd kv) = "pending") tickers ->
  pending_tickers tickers = Dict.keys tickers.
Proof.
  unfold pending_tickers, Dict.keys.
  induction tickers as [|[k v] r IH]; intros H; [reflexivity|].
  inversion H as [|? ? Hv Hr]; subst. simpl in Hv. simpl. rewrite Hv. simpl.
  now rewrite IH.
Qed.

(** X12. On a disk without a status file, a run asks the provider about
    every ticker of the catalog exactly once, also when the catalog
    lists a ticker several times, and about nothing else. *)
Theorem first_run_fetches_catalog (e : env) (d : disk) all_tickers :
  STATUS_FILE d = None ->
  TICKERS_FILE e = Some all_tickers ->
  NoDup (fetched (trace (main e d)))
  /\ (forall yf_ticker,
        In yf_ticker (fetched (trace (main e d)))
        <-> In yf_ticker (map Entity.yfinance_ticker all_tickers)).
Proof.
  intros Hd Hcat.
  assert (Hload : load_status e d = ret (fresh_status (clock_start e)))
    by (unfold load_status; now rewrite Hd).
  assert (Hnd : NoDup (Dict.keys (Status.tickers (fresh_status (clock_start e)))))
    by constructor.
  destruct (main_run_spec e d all_tickers _ Hcat Hload Hnd)
    as [tr [doc [Hmain [_ [_ [_ [_ [_ [Hf _]]]]]]]]].
  rewrite Hmain. cbn [trace fst]. rewrite Hf.
  cbn [Status.tickers fresh_status].
  assert (Hnd1 : NoDup (Dict.keys (merge_tickers Dict.empty all_tickers)))
    by (apply merge_tickers_wf; constructor).
  destruct (merge_tickers_extends all_tickers Dict.empty) as [added [E Hp]].
  destruct (merge_tickers_added all_tickers Dict.empty) as [added' [E' Hincl]].
  assert (added' = added) by (rewrite E in E'; simpl in E'; congruence). subst added'.
  pose proof (merge_tickers_covers all_tickers Dict.empty) as Hcov.
  rewrite E in *. simpl in *. rewrite pending_tickers_all by exact Hp.
  split; [exact Hnd1|]. intros k. split.
  - apply Hincl.
  - intros Hin. apply in_map_iff in Hin. destruct Hin as [t [<- Ht]].
    apply DictFacts.mem_In_keys. rewrite Forall_forall in Hcov. now apply Hcov.
Qed.

Lemma first_run_fetches_catalog_witness :
  NoDup (fetched (trace (main demo_env empty_disk)))
  /\ (In "B.V" (fetched (trace (main demo_env empty_disk)))
      <-> In "B.V" (map Entity.yfinance_ticker demo_catalog)).
Proof.
  destruct (first_run_fetches_catalog demo_env empty_disk demo_catalog eq_refl eq_refl)
    as [H1 H2].
  split; [exact H1 | apply H2].
Defined.

(** ** Strings *)

Lemma length_append (s t : string) :
  String.length (s ++ t) = (String.length s + String.length t)%nat.
Proof. induction s as [|c r IH]; simpl; [reflexivity | now rewrite IH]. Qed.

Lemma append_assoc (s t u : string) : ((s ++ t) ++ u = s ++ (t ++ u))%string.
Proof. induction s as [|c r IH]; simpl; [reflexivity | now rewrite IH]. Qed.

Lemma append_nil_r (s : string) : (s ++ "")%string = s.
Proof. induction s as [|c r IH]; simpl; [reflexivity | now rewrite IH]. Qed.

Lemma substring_whole (t : string) : substring 0 (String.length t) t = t.
Proof. induction t as [|c r IH]; simpl; [reflexivity | now rewrite IH]. Qed.

Lemma substring_skip (s t : string) (m : nat) :
  substring (String.length s) m (s ++ t) = substring 0 m t.
Proof. induction s as [|c r IH]; simpl; [reflexivity | exact IH]. Qed.

Lemma substring_split : forall (s : string) (k : nat),
  (k <= String.length s)%nat ->
  s = (substring 0 k s ++ substring k (String.length s - k) s)%string.
Proof.
  induction s as [|c r IH]; intros k Hk.
  - simpl in Hk. destruct k; [reflexivity | lia].
  - destruct k as [|k].
    + simpl. now rewrite substring_whole.
    + simpl in Hk. simpl. f_equal. apply IH. lia.
Qed.

Lemma endswith_append (s t : string) : endswith (s ++ t) t = true.
Proof.
  unfold endswith. rewrite length_append.
  replace (String.length s + String.length t - String.length t)%nat
    with (String.length s) by lia.
  rewrite substring_skip, substring_whole, String.eqb_refl.
  rewrite Bool.andb_true_r. apply Nat.leb_le. lia.
Qed.

Lemma endswith_split (s suffix : string) :
  endswith s suffix = true -> exists p, s = (p ++ suffix)%string.
Proof.
  unfold endswith. intros H. apply Bool.andb_true_iff in H. destruct H as [Hl He].
  apply Nat.leb_le in Hl. apply String.eqb_eq in He.
  exists (substring 0 (String.length s - String.length suffix) s).
  pose proof (substring_split s (String.length s - String.length suffix) ltac:(lia)) as Hs.
  replace (String.length s - (String.length s - String.length suffix))%nat
    with (String.length suffix) in Hs by lia.
  rewrite He in Hs. exact Hs.
Qed.

Lemma append_last_inj : forall (s p : string) (a b : ascii),
  (s ++ String a "")%string = (p ++ String b "")%string -> a = b.
Proof.
  induction s as [|c r IH]; intros [|c' r'] a b H; simpl in H.
  - congruence.
  - injection H as _ H. destruct r'; discriminate H.
  - injection H as _ H. destruct r; discriminate H.
  - injection H as _ H. eapply IH. exact H.
Qed.

(** Two texts that end in different characters are not a suffix of each
    other's extensions. *)
Lemma endswith_last_differs (s u v : string) (a b : ascii) :
  a <> b -> endswith (s ++ u ++ String a "") (v ++ String b "") = false.
Proof.
  intros Hab. destruct (endswith _ _) eqn:E; [|reflexivity].
  apply endswith_split in E. destruct E as [p E].
  rewrite <- !append_assoc in E. apply append_last_inj in E. contradiction.
Qed.

(** ** The helpers of the fetch script *)

Lemma compute_exchange_suffix (symbol : string) :
  compute_exchange (symbol ++ ".TO") = "TSX"
  /\ compute_exchange (symbol ++ ".V") = "TSXV"
  /\ compute_exchange (symbol ++ ".CN") = "CSE".
Proof.
  unfold compute_exchange. split; [|split].
  - now rewrite endswith_append.
  - change ".V" with ("." ++ String "V" "")%string.
    change ".TO" with (".T" ++ String "O" "")%string.
    rewrite endswith_last_differs by discriminate.
    change ("." ++ String "V" "")%string with ".V".
    now rewrite endswith_append.
  - change ".CN" with (".C" ++ String "N" "")%string.
    change ".TO" with (".T" ++ String "O" "")%string.
    change ".V" with ("." ++ String "V" "")%string.
    rewrite !endswith_last_differs by discriminate.
    change (".C" ++ String "N" "")%string with ".CN".
    now rewrite endswith_append.
Qed.


(** X13. The exchange is read back from the suffix that discovery
    appends: whatever the symbol, a ticker built with .TO, .V or .CN maps
    to TSX, TSXV or CSE. *)
Theorem compute_exchange_of_suffix (symbol : string) :
  compute_exchange (symbol ++ ".TO") = "TSX"
  /\ compute_exchange (symbol ++ ".V") = "TSXV"
  /\ compute_exchange (symbol ++ ".CN") = "CSE".
Proof. apply compute_exchange_suffix. Qed.

Lemma contains_dot_cons (c : ascii) (r : string) :
  contains "." (String c r) = Ascii.eqb c "."%char || contains "." r.
Proof.
  cbn [contains String.prefix]. destruct (ascii_dec "." c) as [<-|Hne].
  - now destruct r.
  - destruct (Ascii.eqb_spec c "."%char) as [->|_]; [now contradiction Hne | reflexivity].
Qed.

Lemma contains_dot_nil : contains "." "" = false.
Proof. reflexivity. Qed.

Lemma before_dot_no_dot (s : string) : contains "." (before_dot s) = false.
Proof.
  induction s as [|c r IH]; [reflexivity|].
  cbn [before_dot]. destruct (Ascii.eqb c ".") eqn:E; [reflexivity|].
  now rewrite contains_dot_cons, E, IH.
Qed.

Lemma before_dot_split (s : string) :
  s = before_dot s \/ exists rest, s = (before_dot s ++ "." ++ rest)%string.
Proof.
  induction s as [|c r IH]; [now left|].
  cbn [before_dot]. destruct (Ascii.eqb_spec c "."%char) as [->|Hne].
  - right. exists r. reflexivity.
  - destruct IH as [IH|[rest IH]].
    + left. now rewrite <- IH.
    + right. exists rest.
      change (String c r = String c (before_dot r ++ "." ++ rest)). f_equal. exact IH.
Qed.

Lemma before_dot_append (s rest : string) :
  contains "." s = false -> before_dot (s ++ "." ++ rest) = s.
Proof.
  induction s as [|c r IH]; intros H; [reflexivity|].
  rewrite contains_dot_cons in H. apply Bool.orb_false_iff in H. destruct H as [Hc Hr].
  simpl. rewrite Hc. f_equal. now apply IH.
Qed.

(** X14. The ticker stored by VETTR is the text before the first dot of
    the symbol it is computed from, whatever the exchange: it has no dot,
    and the symbol is either that text or that text, a dot and a rest.
    So a symbol without a dot comes back from its provider ticker, and
    a symbol with a dot (a share class) loses what follows the dot. *)
Theorem compute_vettr_ticker_before_dot (symbol exchange : string) :
  let r := compute_vettr_ticker symbol exchange in
  contains "." r = false
  /\ (symbol = r \/ exists rest, symbol = (r ++ "." ++ rest)%string)
  /\ (forall head rest,
        contains "." head = false ->
        symbol = (head ++ "." ++ rest)%string -> r = head).
Proof.
  unfold compute_vettr_ticker. cbv zeta. split; [apply before_dot_no_dot|].
  split; [apply before_dot_split|].
  intros head rest Hh ->. now apply before_dot_append.
Qed.

Lemma compute_vettr_ticker_before_dot_witness :
  compute_vettr_ticker "BBD.B.TO" "TSX" = "BBD".
Proof.
  destruct (compute_vettr_ticker_before_dot "BBD.B.TO" "TSX") as [_ [_ H]].
  apply (H "BBD" "B.TO"); reflexivity.
Defined.

(** ** Sectors *)

Lemma map_sector_cases (yf_info : Info.t) (P : string -> Prop) :
  (forall c, In c sector_categories -> P c) ->
  P (str_or (Info.sector yf_info) "Other") ->
  P (map_sector yf_info).
Proof.
  intros Hc Hs. unfold map_sector. cbv zeta.
  repeat match goal with
         | |- P (if ?b then _ else _) =>
             destruct b; [apply Hc; unfold sector_categories; simpl; tauto|]
         end.
  exact Hs.
Qed.

(** X15. The sector of a record is never empty: it is one of the
    twenty-two categories, or Other, or the sector text of the provider
    as it came, and the latter only when that text is not empty. *)
Theorem map_sector_never_empty (yf_info : Info.t) :
  map_sector yf_info <> ""
  /\ (In (map_sector yf_info) sector_categories
      \/ Info.sector yf_info = Some (map_sector yf_info)).
Proof.
  apply map_sector_cases.
  - intros c Hc. split; [|now left].
    unfold sector_categories in Hc. simpl in Hc.
    intros ->. repeat (destruct Hc as [Hc|Hc]; [discriminate Hc|]). exact Hc.
  - unfold str_or, or_str. destruct (Info.sector yf_info) as [[|c s]|].
    + split; [discriminate | left; unfold sector_categories; simpl; tauto].
    + split; [discriminate | now right].
    + split; [discriminate | left; unfold sector_categories; simpl; tauto].
Qed.

(** ** Days since the last press release *)

Lemma fold_max_spec : forall (l : list Z) (a : Z),
  let m := fold_left Z.max l a in
  (m = a \/ In m l) /\ (a <= m)%Z /\ Forall (fun x => (x <= m)%Z) l.
Proof.
  induction l as [|x r IH]; intros a; simpl.
  - repeat split; [now left | lia | constructor].
  - destruct (IH (Z.max a x)) as [Hin [Hle Hall]]. cbv zeta in *.
    set (m := fold_left Z.max r (Z.max a x)) in *.
    split; [|split].
    + destruct Hin as [Hin|Hin]; [|now right; right].
      destruct (Z.max_spec a x) as [[_ E]|[_ E]]; rewrite E in Hin; auto.
    + lia.
    + constructor; [lia | exact Hall].
Qed.

Lemma max_published_spec (first : NewsItem.t) (rest : list NewsItem.t) :
  exists item,
    In item (first :: rest)
    /\ NewsItem.published item = max_published first rest
    /\ Forall (fun i => (NewsItem.published i <= max_published first rest)%Z)
              (first :: rest).
Proof.
  unfold max_published.
  destruct (fold_max_spec (map NewsItem.published rest) (NewsItem.published first))
    as [Hin [Hle Hall]]. cbv zeta in *.
  assert (Hall' : Forall (fun i => (NewsItem.published i
                   <= fold_left Z.max (map NewsItem.published rest)
                        (NewsItem.published first))%Z) (first :: rest)).
  { constructor; [exact Hle|]. rewrite Forall_forall in *. intros i Hi.
    apply Hall. now apply in_map. }
  destruct Hin as [Hin|Hin].
  - exists first. split; [now left|]. split; [now rewrite Hin | exact Hall'].
  - apply in_map_iff in Hin. destruct Hin as [item [E Hi]].
    exists item. split; [now right|]. split; [exact E | exact Hall'].
Qed.

(** X16. The days since the last press release are counted from the
    most recent item: the result is null when there is no item or no
    item has a positive time; otherwise it is the number of whole days,
    rounded down, from the latest publication time to the clock, which is
    negative when that time is in the future; and the computation fails
    only when the latest time is past the last representable date. *)
Theorem days_since_last_pr_spec (news : list NewsItem.t) (now : Z) :
  match compute_days_since_last_pr news now with
  | Ok None => Forall (fun i => (NewsItem.published i <= 0)%Z) news
  | Ok (Some days) =>
      exists latest,
        In latest news
        /\ Forall (fun i => (NewsItem.published i <= NewsItem.published latest)%Z) news
        /\ (0 < NewsItem.published latest <= MAX_TIMESTAMP)%Z
        /\ (86400 * days <= now - NewsItem.published latest < 86400 * (days + 1))%Z
        /\ ((days < 0)%Z <-> (now < NewsItem.published latest)%Z)
  | Raise _ =>
      exists latest, In latest news /\ (MAX_TIMESTAMP < NewsItem.published latest)%Z
  end.
Proof.
  unfold compute_days_since_last_pr. destruct news as [|first rest]; [constructor|].
  destruct (max_published_spec first rest) as [item [Hin [E Hall]]].
  destruct (Z.ltb_spec 0 (max_published first rest)) as [Hpos|Hnon].
  - unfold fromtimestamp.
    destruct (Z.leb_spec (max_published first rest) MAX_TIMESTAMP) as [Hle|Hgt].
    + exists item. rewrite E. split; [exact Hin|]. split; [exact Hall|].
      split; [lia|].
      pose proof (Z.div_mod (now - max_published first rest) 86400 ltac:(lia)) as Hdm.
      pose proof (Z.mod_pos_bound (now - max_published first rest) 86400 ltac:(lia)) as Hb.
      split; [lia|]. split; intros H; lia.
    + exists item. rewrite E. split; [exact Hin | exact Hgt].
  - rewrite Forall_forall in *. intros i Hi. specialize (Hall i Hi). cbv beta in Hall. lia.
Qed.

(** ** The price of a completed record *)

Lemma fetch_completed_fields (t : Ticker.t) (now : stamp)
    (yf_ticker symbol exchange : string) (data : Data.t) :
  fetch_ticker_data t now yf_ticker symbol exchange = (Some data, "completed", None) ->
  exists info,
    Ticker.info t = Ok info
    /\ no_market_data info = false
    /\ Data.price data = or_num (Info.currentPrice info) (Info.regularMarketPrice info)
    /\ Data.previous_close data = Info.previousClose info
    /\ compute_price_change (Data.price data) (Data.previous_close data)
       = Ok (Data.price_change data)
    /\ Data.yfinance_ticker data = yf_ticker
    /\ Data.exchange data = exchange
    /\ Data.vettr_ticker data = before_dot yf_ticker
    /\ Data.name data
       = str_or (or_str (Info.shortName info) (Info.longName info)) (before_dot yf_ticker)
    /\ Data.sector data = map_sector info.
Proof.
  unfold fetch_ticker_data. intros H.
  destruct (Ticker.info t) as [info|e]; [|discriminate].
  destruct (no_market_data info) eqn:Hn; [discriminate|].
  destruct (Info.marketCap info) as [cap|]; [|discriminate].
  destruct (py_lt_int cap MARKET_CAP_MIN);
    [destruct (format_comma_0f cap); discriminate|].
  destruct (py_gt_int cap MARKET_CAP_MAX);
    [destruct (format_comma_0f cap); discriminate|].
  destruct (compute_days_since_last_pr _ _) as [days|e]; [|discriminate].
  destruct (compute_derived _ _ _ _ _ _) as [[[pc mb] ins]|e] eqn:Hder; [|discriminate].
  apply compute_derived_Ok in Hder. destruct Hder as [Hpc _].
  injection H as <-. exists info.
  cbn [Data.price Data.previous_close Data.price_change Data.yfinance_ticker
       Data.exchange Data.vettr_ticker Data.name Data.sector].
  repeat split; try reflexivity; assumption.
Qed.

(** X17. A completed record can lack a price: the price is null exactly
    when the provider gave a current price of zero (the int 0 or a float
    zero, which are falsy for [or]) and no regular market price, and then
    the price change is null as well.  A price of zero is reported only
    when it is the regular market price. *)
Theorem completed_price_zero_is_absent (t : Ticker.t) (now : stamp)
    (yf_ticker symbol exchange : string) (data : Data.t) :
  fetch_ticker_data t now yf_ticker symbol exchange = (Some data, "completed", None) ->
  exists info,
    Ticker.info t = Ok info
    /\ (Data.price data = None
        <-> Info.regularMarketPrice info = None
            /\ exists c, Info.currentPrice info = Some c /\ py_truthy c = false)
    /\ (Data.price data = None -> Data.price_change data = None)
    /\ (forall p, Data.price data = Some p -> py_truthy p = false ->
                  Info.regularMarketPrice info = Some p)
    /\ (forall c, py_truthy c = false
                  <-> c = PyInt 0 \/ exists s, c = PyFloat (S754_zero s)).
Proof.
  intros H. destruct (fetch_completed_fields _ _ _ _ _ _ H)
    as [info [Hi [Hn [Hp [_ [Hc _]]]]]].
  exists info. split; [exact Hi|].
  assert (Hzero : forall c, py_truthy c = false
                            <-> c = PyInt 0 \/ exists s, c = PyFloat (S754_zero s)).
  { intros [z|[s|s| |s m e]]; simpl; split; intros Hz;
      try discriminate; try (right; now exists s);
      try (destruct Hz as [Hz|[s' Hz]]; discriminate); try reflexivity.
    - left. apply negb_false_iff, Z.eqb_eq in Hz. now subst.
    - destruct Hz as [Hz|[s' Hz]]; [|discriminate]. now injection Hz as ->. }
  assert (Hpc : Data.price data = None -> Data.price_change data = None).
  { intros E. rewrite E in Hc. simpl in Hc. now injection Hc as <-. }
  rewrite Hp in *. clear Hc Hp.
  unfold no_market_data in Hn. unfold or_num in *.
  destruct (Info.keys info) as [|k ks]; [discriminate|].
  destruct (Info.currentPrice info) as [c|] eqn:Ec.
  - destruct (py_truthy c) eqn:E0.
    + split; [|split; [|split]]; [| exact Hpc | | exact Hzero].
      * split; [discriminate | intros [_ [c' [Hc' Hz]]]; congruence].
      * intros p Hp Hz. injection Hp as ->. congruence.
    + split; [|split; [|split]]; [| exact Hpc | | exact Hzero].
      * split; [intros ->; split; eauto | tauto].
      * tauto.
  - destruct (Info.regularMarketPrice info) as [r|] eqn:Er; [|discriminate].
    split; [|split; [|split]]; [| exact Hpc | | exact Hzero].
    + split; [discriminate | intros [Hr _]; discriminate].
    + tauto.
Qed.

Lemma completed_price_zero_is_absent_witness :
  exists data,
    fetch_ticker_data
      (ticker_with (Ok (info_with (Some (py_float 0)) (Some (PyInt 50000000)))))
      (mk_stamp "2024-01-01T00:00:02+00:00" 1704067202) "A.TO" "A" "TSX"
    = (Some data, "completed", None)
    /\ Data.price data = None.
Proof.
  eexists. split; [reflexivity|].
  destruct (completed_price_zero_is_absent
              (ticker_with (Ok (info_with (Some (py_float 0)) (Some (PyInt 50000000)))))
              (mk_stamp "2024-01-01T00:00:02+00:00" 1704067202) "A.TO" "A" "TSX" _ eq_refl)
    as [info [Hi [Hp _]]].
  injection Hi as <-. apply Hp. split; [reflexivity|].
  exists (py_float 0). split; reflexivity.
Defined.

(** ** The outcome of a run, ticker by ticker *)

Lemma process_ticker_outcome e status yf_ticker ticker_info :
  Dict.get (Status.tickers status) yf_ticker = Some ticker_info ->
  process_ticker e status yf_ticker
  = (([Fetch yf_ticker] ++ snd (outcome e yf_ticker ticker_info)
      ++ [Assign yf_ticker (TickerInfo.status ticker_info)
            (TickerInfo.status (fst (outcome e yf_ticker ticker_info)));
          Processed yf_ticker])%list,
     Some (with_tickers status
             (Dict.set (Status.tickers status) yf_ticker
                (fst (outcome e yf_ticker ticker_info))))).
Proof.
  intros H. unfold process_ticker, outcome. rewrite H. cbv zeta.
  destruct (handle_result e yf_ticker ticker_info _) as [ti' writes]. reflexivity.
Qed.

Lemma process_ticker_output e status yf_ticker ticker_info d :
  Dict.get (Status.tickers status) yf_ticker = Some ticker_info ->
  Dict.get (STOCK_DATA_DIR (replay (trace (process_ticker e status yf_ticker)) d)) yf_ticker
  = output_after (snd (outcome e yf_ticker ticker_info))
      (Dict.get (STOCK_DATA_DIR d) yf_ticker).
Proof.
  intros H. rewrite (process_ticker_outcome _ _ _ _ H), trace_pair.
  pose proof (handle_result_spec e yf_ticker ticker_info
                (fetch_ticker_data (provider e yf_ticker) (clock_fetch e yf_ticker) yf_ticker
                   (TickerInfo.symbol ticker_info) (TickerInfo.exchange ticker_info))) as Hs.
  cbv zeta in Hs. fold (outcome e yf_ticker ticker_info) in Hs.
  destruct Hs as [_ [[-> _]|[data [-> _]]]].
  - reflexivity.
  - unfold replay. simpl. rewrite DictFacts.get_set_same. simpl.
    now rewrite DictFacts.get_set_same.
Qed.

Lemma process_batch_outcome e : forall batch status tr status' d,
  NoDup batch ->
  process_batch e status batch = (tr, Some status') ->
  forall id, In id batch ->
    exists ticker_info,
      Dict.get (Status.tickers status) id = Some ticker_info
      /\ Dict.get (Status.tickers status') id = Some (fst (outcome e id ticker_info))
      /\ Dict.get (STOCK_DATA_DIR (replay tr d)) id
         = output_after (snd (outcome e id ticker_info)) (Dict.get (STOCK_DATA_DIR d) id).
Proof.
  induction batch as [|x rest IH]; intros status tr status' d Hnd Hrun id Hin;
    [contradiction|].
  inversion Hnd as [|? ? Hx Hrest]; subst.
  rewrite process_batch_cons in Hrun.
  destruct (bind_success _ _ _ _ Hrun) as [tr1 [status1 [tr2 [H1 [H2 ->]]]]].
  destruct (process_ticker_success _ _ _ _ _ H1) as [ti [ti0 [Hget _]]].
  pose proof (process_ticker_output e status x ti d Hget) as Hout.
  pose proof (process_ticker_output_only e status x) as Honly.
  rewrite H1, trace_pair in Hout, Honly.
  rewrite (process_ticker_outcome _ _ _ _ Hget) in H1.
  injection H1 as _ <-.
  destruct (process_batch_effect e _ _ _ _ H2) as [Ho2 _].
  rewrite replay_app.
  destruct Hin as [<-|Hin].
  - exists ti. split; [exact Hget|].
    destruct (Ho2 x Hx) as [Hg Hd]. rewrite Hg, Hd, Hout.
    cbn [Status.tickers with_tickers]. rewrite DictFacts.get_set_same. auto.
  - assert (Hne : id <> x) by (intros ->; contradiction).
    destruct (IH _ _ _ (replay tr1 d) Hrest H2 id Hin) as [ti1 [Hg1 [Hg2 Hd2]]].
    exists ti1. cbn [Status.tickers with_tickers] in Hg1.
    rewrite DictFacts.get_set_other in Hg1 by congruence.
    split; [exact Hg1|]. split; [exact Hg2|].
    rewrite Hd2. f_equal. now apply replay_outputs_other with (yf_ticker := x).
Qed.

Lemma NoDup_app_parts {A : Type} (l1 l2 : list A) :
  NoDup (l1 ++ l2)%list ->
  NoDup l1 /\ NoDup l2 /\ (forall x, In x l1 -> ~ In x l2).
Proof.
  induction l1 as [|a l1 IH]; simpl; intros H.
  - repeat split; [constructor | exact H | tauto].
  - inversion H as [|? ? Ha Hr]; subst. destruct (IH Hr) as [H1 [H2 H3]].
    split; [|split; [exact H2|]].
    + constructor; [|exact H1]. intros Hin. apply Ha, in_or_app. now left.
    + intros x [<-|Hin]; [|now apply H3]. intros Hin. apply Ha, in_or_app. now right.
Qed.

Lemma run_batches_outcome e : forall bs status batch_num tr status' d,
  NoDup (List.concat bs) ->
  run_batches e status bs batch_num = (tr, Some status') ->
  forall id, In id (List.concat bs) ->
    exists ticker_info,
      Dict.get (Status.tickers status) id = Some ticker_info
      /\ Dict.get (Status.tickers status') id = Some (fst (outcome e id ticker_info))
      /\ Dict.get (STOCK_DATA_DIR (replay tr d)) id
         = output_after (snd (outcome e id ticker_info)) (Dict.get (STOCK_DATA_DIR d) id).
Proof.
  induction bs as [|batch rest IH]; intros status batch_num tr status' d Hnd Hrun id Hin;
    [contradiction|].
  simpl List.concat in Hnd, Hin.
  destruct (NoDup_app_parts _ _ Hnd) as [Hnd1 [Hnd2 Hdisj]].
  rewrite run_batches_cons in Hrun.
  destruct (bind_success _ _ _ _ Hrun) as [tr1 [status1 [tr2 [H1 [H2 ->]]]]].
  destruct (bind_success _ _ _ _ H2) as [trs [status2 [tr3 [Hsave [H4 ->]]]]].
  destruct (save_status_success _ _ _ _ Hsave) as [-> ->].
  destruct (process_batch_effect e _ _ _ _ H1) as [Ho1 _].
  destruct (run_batches_effect e _ _ _ _ _ H4) as [Ho3 _].
  rewrite !replay_app.
  apply in_app_or in Hin. destruct Hin as [Hin|Hin].
  - destruct (process_batch_outcome e _ _ _ _ d Hnd1 H1 id Hin) as [ti [Hg [Hg' Hd']]].
    exists ti. split; [exact Hg|].
    destruct (Ho3 id (Hdisj id Hin)) as [Hg3 Hd3].
    rewrite Hg3, Hd3, tickers_stamp, outputs_save. auto.
  - assert (Hnot : ~ In id batch) by (intros Hb; now apply (Hdisj id Hb)).
    destruct (Ho1 id Hnot) as [Hg1 Hd1].
    destruct (IH _ _ _ _ (replay (trace (save_status status1 (clock_save e (S batch_num))))
                            (replay tr1 d)) Hnd2 H4 id Hin) as [ti [Hg [Hg' Hd']]].
    exists ti. rewrite tickers_stamp, Hg1 in Hg. split; [exact Hg|].
    split; [exact Hg'|]. rewrite Hd', outputs_save, Hd1. reflexivity.
Qed.

Lemma pending_tickers_complete (tickers : Dict.t TickerInfo.t) id ticker_info :
  Dict.get tickers id = Some ticker_info ->
  TickerInfo.status ticker_info = "pending" ->
  In id (pending_tickers tickers).
Proof.
  unfold pending_tickers.
  induction tickers as [|[k v] r IH]; simpl; intros Hg Hs; [discriminate|].
  destruct (String.eqb_spec k id) as [->|Hne].
  - injection Hg as ->. rewrite Hs. simpl. now left.
  - destruct (String.eqb (TickerInfo.status v) "pending"); simpl; auto.
Qed.

Lemma main_outcome_spec e d all_tickers status0 :
  TICKERS_FILE e = Some all_tickers ->
  load_status e d = ret status0 ->
  NoDup (Dict.keys (Status.tickers status0)) ->
  let tickers1 := merge_tickers (Status.tickers status0) all_tickers in
  exists tr doc,
    main e d = (tr, Some tt)
    /\ STATUS_FILE (replay tr d) = Some (mk_status_file doc (String.length (json_dump doc)))
    /\ forall id, In id (pending_tickers tickers1) ->
         exists ticker_info,
           Dict.get tickers1 id = Some ticker_info
           /\ Dict.get (Status.tickers doc) id = Some (fst (outcome e id ticker_info))
           /\ Dict.get (STOCK_DATA_DIR (replay tr d)) id
              = output_after (snd (outcome e id ticker_info))
                  (Dict.get (STOCK_DATA_DIR d) id).
Proof.
  intros Hcat Hload Hnd tickers1.
  assert (Hnd1 : NoDup (Dict.keys tickers1)) by now apply merge_tickers_wf.
  set (now0 := clock_save e 0).
  set (status1 := stamp_status (with_tickers status0 tickers1) now0).
  set (tr0 := trace (save_status (with_tickers status0 tickers1) now0)).
  rewrite main_unfold, Hcat, Hload, bind_ret_l. unfold main_after_load.
  fold tickers1. fold now0.
  destruct (pending_tickers tickers1) as [|p ps] eqn:Hp.
  - exists (tr0 ++ [])%list, status1. split.
    + erewrite bind_ok; [reflexivity | apply save_status_eq |].
      cbv beta zeta. rewrite tickers_stamp, tickers_with, Hp. reflexivity.
    + rewrite app_nil_r. unfold tr0. rewrite replay_save.
      split; [reflexivity | contradiction].
  - set (bs := batches BATCH_SIZE (p :: ps)).
    destruct (run_batches_resume e bs [] status1 0%nat (replay tr0 d))
      as [tr2 [status2 [Hrun2 _]]].
    + exact Hnd1.
    + change (Status.tickers status1) with tickers1.
      rewrite Hp. unfold bs. now rewrite batches_concat, app_nil_r.
    + apply saved_tickers_save.
    + set (nowF := clock_save e (S (List.length bs))).
      set (trF := trace (save_status status2 nowF)).
      exists (tr0 ++ (tr2 ++ (trF ++ [])))%list, (stamp_status status2 nowF). split.
      * erewrite bind_ok; [reflexivity | apply save_status_eq |].
        cbv beta zeta. rewrite tickers_stamp, tickers_with, Hp. fold bs.
        erewrite bind_ok; [reflexivity | exact Hrun2 |].
        cbv beta. erewrite bind_ok; [reflexivity | apply save_status_eq | reflexivity].
      * rewrite app_nil_r, !replay_app. unfold trF. rewrite replay_save.
        split; [reflexivity|]. intros id Hid.
        assert (Hndp : NoDup (List.concat bs)).
        { unfold bs. rewrite batches_concat, <- Hp. now apply pending_tickers_NoDup. }
        assert (Hin : In id (List.concat bs)) by (unfold bs; now rewrite batches_concat).
        destruct (run_batches_outcome e _ _ _ _ _ (replay tr0 d) Hndp Hrun2 id Hin)
          as [ti [Hg [Hg' Hd']]].
        exists ti. change (Status.tickers status1) with tickers1 in Hg.
        split; [exact Hg|]. rewrite tickers_stamp. split; [exact Hg'|].
        cbn [STOCK_DATA_DIR]. rewrite Hd'. unfold tr0. now rewrite outputs_save.
Qed.

(** X18. What a run leaves for a ticker depends on that ticker alone: a
    ticker that is pending once the catalog is merged ends with the
    record that handling its own fetch gives, and with the output file
    that this handling writes; the other tickers of the run, the batches
    and their order have no part in it. *)
Theorem run_outcome (e : env) (d : disk) all_tickers status0 id ticker_info :
  disk_wf d = true ->
  TICKERS_FILE e = Some all_tickers ->
  load_status e d = ret status0 ->
  Dict.get (merge_tickers (Status.tickers status0) all_tickers) id = Some ticker_info ->
  TickerInfo.status ticker_info = "pending" ->
  exists doc,
    durable_status (disk_after_main e d) = Some doc
    /\ Dict.get (Status.tickers doc) id = Some (fst (outcome e id ticker_info))
    /\ Dict.get (STOCK_DATA_DIR (disk_after_main e d)) id
       = output_after (snd (outcome e id ticker_info)) (Dict.get (STOCK_DATA_DIR d) id)
    /\ TickerInfo.symbol (fst (outcome e id ticker_info)) = TickerInfo.symbol ticker_info
    /\ TickerInfo.exchange (fst (outcome e id ticker_info))
       = TickerInfo.exchange ticker_info.
Proof.
  intros Hwf Hcat Hload Hget Hs.
  pose proof (load_status_wf e d status0 Hwf Hload) as Hnd.
  destruct (main_outcome_spec e d all_tickers status0 Hcat Hload Hnd)
    as [tr [doc [Hmain [Hfile Hall]]]].
  destruct (Hall id (pending_tickers_complete _ _ _ Hget Hs)) as [ti [Hg [Hg' Hd']]].
  rewrite Hget in Hg. injection Hg as <-.
  unfold disk_after_main. rewrite Hmain, trace_pair.
  exists doc. split; [now apply durable_whole|]. split; [exact Hg'|].
  split; [exact Hd'|].
  pose proof (handle_result_record e id ticker_info (provider e id) (clock_fetch e id)
                (TickerInfo.symbol ticker_info) (TickerInfo.exchange ticker_info)) as Hr.
  cbv zeta in Hr. fold (outcome e id ticker_info) in Hr. tauto.
Qed.

Lemma run_outcome_witness :
  exists doc,
    durable_status (disk_after_main demo_env empty_disk) = Some doc
    /\ Dict.get (Status.tickers doc) "B.V"
       = Some (fst (outcome demo_env "B.V" (pending_info (Entity.mk "B.V" "B" "TSXV")))).
Proof.
  destruct (run_outcome demo_env empty_disk demo_catalog
              (fresh_status (clock_start demo_env)) "B.V"
              (pending_info (Entity.mk "B.V" "B" "TSXV"))
              eq_refl eq_refl eq_refl eq_refl eq_refl) as [doc [H1 [H2 _]]].
  exists doc. split; assumption.
Defined.

(** * Discovery *)

(** ** Stripping *)

Lemma lstrip_head (s : string) :
  lstrip s = "" \/ exists c r, lstrip s = String c r /\ is_space c = false.
Proof.
  induction s as [|c r IH]; [now left|].
  simpl. destruct (is_space c) eqn:E; [exact IH|]. right. eauto.
Qed.

Lemma lstrip_fixed (c : ascii) (r : string) :
  is_space c = false -> lstrip (String c r) = String c r.
Proof. intros H. simpl. now rewrite H. Qed.

Lemma rstrip_head (c : ascii) (r : string) :
  is_space c = false -> exists r', rstrip (String c r) = String c r'.
Proof.
  intros H. simpl. destruct (rstrip r) as [|a b]; [rewrite H|]; eauto.
Qed.

Lemma rstrip_idempotent (s : string) : rstrip (rstrip s) = rstrip s.
Proof.
  induction s as [|c r IH]; [reflexivity|].
  simpl. destruct (rstrip r) as [|a b] eqn:E.
  - destruct (is_space c) eqn:Ec; [reflexivity|]. simpl. now rewrite Ec.
  - change (rstrip (String c (String a b))) with
      (match rstrip (String a b) with
       | "" => if is_space c then "" else String c ""
       | r' => String c r'
       end).
    now rewrite IH.
Qed.

Lemma strip_idempotent (s : string) : strip (strip s) = strip s.
Proof.
  unfold strip. destruct (lstrip_head s) as [->|[c [r [-> Hc]]]]; [reflexivity|].
  destruct (rstrip_head c r Hc) as [r' E]. rewrite E, (lstrip_fixed _ _ Hc), <- E.
  apply rstrip_idempotent.
Qed.

(** ** The loop over an exchange *)

Lemma exchange_tickers_spec (capital_pool : bool) (suffix exchange : string)
    (symbols : list string) :
  Forall (fun t =>
            Entity.symbol t <> ""
            /\ strip (Entity.symbol t) = Entity.symbol t
            /\ In (Entity.symbol t) (map strip symbols)
            /\ Entity.yfinance_ticker t = (Entity.symbol t ++ suffix)%string
            /\ Entity.exchange t = exchange
            /\ (capital_pool = true -> contains ".P" (Entity.symbol t) = false))
         (exchange_tickers capital_pool suffix exchange symbols).
Proof.
  induction symbols as [|sym rest IH]; [constructor|].
  cbn [exchange_tickers map]. cbv zeta.
  assert (IH' : Forall (fun t =>
            Entity.symbol t <> ""
            /\ strip (Entity.symbol t) = Entity.symbol t
            /\ In (Entity.symbol t) (strip sym :: map strip rest)
            /\ Entity.yfinance_ticker t = (Entity.symbol t ++ suffix)%string
            /\ Entity.exchange t = exchange
            /\ (capital_pool = true -> contains ".P" (Entity.symbol t) = false))
         (exchange_tickers capital_pool suffix exchange rest)).
  { eapply Forall_impl; [|exact IH]. cbv beta. intros t H.
    repeat split; try tauto. right. tauto. }
  destruct (String.eqb_spec (strip sym) "") as [E|E]; [exact IH'|].
  destruct (capital_pool && contains ".P" (strip sym)) eqn:Ep; [exact IH'|].
  constructor; [|exact IH']. cbn [Entity.symbol Entity.yfinance_ticker Entity.exchange].
  split; [exact E|]. split; [apply strip_idempotent|]. split; [now left|].
  split; [reflexivity|]. split; [reflexivity|].
  intros ->. exact Ep.
Qed.

Lemma exchange_tickers_keeps (capital_pool : bool) (suffix exchange : string)
    (symbols : list string) (sym : string) :
  In sym symbols ->
  strip sym <> "" ->
  (capital_pool = true -> contains ".P" (strip sym) = false) ->
  In (Entity.mk (strip sym ++ suffix) (strip sym) exchange)
     (exchange_tickers capital_pool suffix exchange symbols).
Proof.
  intros Hin Hne Hp. induction symbols as [|x rest IH]; [contradiction|].
  cbn [exchange_tickers]. cbv zeta.
  destruct Hin as [->|Hin].
  - apply String.eqb_neq in Hne. rewrite Hne.
    destruct capital_pool; [rewrite Hp by reflexivity|]; now left.
  - destruct (String.eqb (strip x) "" || capital_pool && contains ".P" (strip x));
      [|right]; now apply IH.
Qed.

Lemma discover_all_tickers (w : listings) :
  Discovery.all_tickers (discover_tickers w)
  = (exchange_tickers true ".TO" "TSX" (listed_tsx w "tsx")
     ++ exchange_tickers true ".V" "TSXV" (listed_tsx w "tsxv")
     ++ exchange_tickers false ".CN" "CSE" (listed_cse w))%list.
Proof.
  unfold discover_tickers, listed_tsx, listed_cse.
  destruct (get_tsx_tickers w "tsx") as [l1|e1];
    destruct (get_tsx_tickers w "tsxv") as [l2|e2];
    destruct (get_cse_tickers_df w) as [[[[] [l3|e3]]|]|e3];
    cbn; rewrite ?app_nil_r, <- ?app_assoc; reflexivity.
Qed.

Lemma discover_exchanges (w : listings) :
  let r := discover_tickers w in
  exists tsx tsxv cse,
    Discovery.exchanges r = [("TSX", tsx); ("TSXV", tsxv); ("CSE", cse)]
    /\ ExchangeEntry.tickers tsx = exchange_tickers true ".TO" "TSX" (listed_tsx w "tsx")
    /\ ExchangeEntry.tickers tsxv = exchange_tickers true ".V" "TSXV" (listed_tsx w "tsxv")
    /\ ExchangeEntry.tickers cse = exchange_tickers false ".CN" "CSE" (listed_cse w)
    /\ Forall (fun entry =>
                 ExchangeEntry.count entry = List.length (ExchangeEntry.tickers entry)
                 /\ (ExchangeEntry.error entry <> None -> ExchangeEntry.tickers entry = []))
              [tsx; tsxv; cse]
    /\ (forall e, get_tsx_tickers w "tsx" = Raise e -> ExchangeEntry.error tsx = Some e)
    /\ (forall e, get_tsx_tickers w "tsxv" = Raise e -> ExchangeEntry.error tsxv = Some e)
    /\ (forall e, get_cse_tickers_df w = Raise e -> ExchangeEntry.error cse = Some e)
    /\ DiscoveryStats.tsx_count (Discovery.stats r) = ExchangeEntry.count tsx
    /\ DiscoveryStats.tsxv_count (Discovery.stats r) = ExchangeEntry.count tsxv
    /\ DiscoveryStats.cse_count (Discovery.stats r) = ExchangeEntry.count cse
    /\ DiscoveryStats.total_tickers (Discovery.stats r)
       = (ExchangeEntry.count tsx + ExchangeEntry.count tsxv + ExchangeEntry.count cse)%nat.
Proof.
  unfold discover_tickers, listed_tsx, listed_cse.
  destruct (get_tsx_tickers w "tsx") as [l1|e1];
    destruct (get_tsx_tickers w "tsxv") as [l2|e2];
    destruct (get_cse_tickers_df w) as [[[[] [l3|e3]]|]|e3];
    cbn; eexists; eexists; eexists;
    (split; [reflexivity|]);
    repeat first [apply Forall_cons | apply Forall_nil | split];
    cbn [ExchangeEntry.tickers ExchangeEntry.count ExchangeEntry.error];
    try reflexivity; try discriminate; try congruence; try lia;
    try (intros; congruence).
Qed.

(** X19. The counters of the discovery document add up: the document
    has the three exchanges in the order TSX, TSXV, CSE, each with a count
    that is the length of its list; the list of all tickers is the three
    lists one after the other; the total is its length and the sum of the
    three counts.  An exchange whose request fails is there with an error,
    a count of 0 and no ticker, and the other two are not disturbed. *)
Theorem discover_counts_add_up (w : listings) :
  let r := discover_tickers w in
  exists tsx tsxv cse,
    Discovery.exchanges r = [("TSX", tsx); ("TSXV", tsxv); ("CSE", cse)]
    /\ Discovery.all_tickers r
       = (ExchangeEntry.tickers tsx ++ ExchangeEntry.tickers tsxv
          ++ ExchangeEntry.tickers cse)%list
    /\ Forall (fun entry =>
                 ExchangeEntry.count entry = List.length (ExchangeEntry.tickers entry)
                 /\ (ExchangeEntry.error entry <> None -> ExchangeEntry.tickers entry = []))
              [tsx; tsxv; cse]
    /\ (forall e, get_tsx_tickers w "tsx" = Raise e -> ExchangeEntry.error tsx = Some e)
    /\ (forall e, get_tsx_tickers w "tsxv" = Raise e -> ExchangeEntry.error tsxv = Some e)
    /\ (forall e, get_cse_tickers_df w = Raise e -> ExchangeEntry.error cse = Some e)
    /\ DiscoveryStats.tsx_count (Discovery.stats r) = List.length (ExchangeEntry.tickers tsx)
    /\ DiscoveryStats.tsxv_count (Discovery.stats r)
       = List.length (ExchangeEntry.tickers tsxv)
    /\ DiscoveryStats.cse_count (Discovery.stats r) = List.length (ExchangeEntry.tickers cse)
    /\ DiscoveryStats.total_tickers (Discovery.stats r)
       = List.length (Discovery.all_tickers r)
    /\ DiscoveryStats.total_tickers (Discovery.stats r)
       = (DiscoveryStats.tsx_count (Discovery.stats r)
          + DiscoveryStats.tsxv_count (Discovery.stats r)
          + DiscoveryStats.cse_count (Discovery.stats r))%nat.
Proof.
  intros r. destruct (discover_exchanges w)
    as [tsx [tsxv [cse [He [H1 [H2 [H3 [Hc [E1 [E2 [E3 [C1 [C2 [C3 Ct]]]]]]]]]]]]]].
  fold r in He, C1, C2, C3, Ct.
  exists tsx, tsxv, cse. split; [exact He|].
  assert (Hall : Discovery.all_tickers r
                 = (ExchangeEntry.tickers tsx ++ ExchangeEntry.tickers tsxv
                    ++ ExchangeEntry.tickers cse)%list).
  { unfold r. rewrite discover_all_tickers. now rewrite H1, H2, H3. }
  split; [exact Hall|]. split; [exact Hc|].
  split; [exact E1|]. split; [exact E2|]. split; [exact E3|].
  inversion Hc as [|? ? [L1 _] Hc']; subst.
  inversion Hc' as [|? ? [L2 _] Hc'']; subst.
  inversion Hc'' as [|? ? [L3 _] _]; subst.
  rewrite C1, C2, C3, Ct, Hall, !length_app, L1, L2, L3.
  repeat split; lia.
Qed.

Lemma discover_counts_add_up_witness :
  DiscoveryStats.total_tickers (Discovery.stats (discover_tickers demo_listings))
  = List.length (Discovery.all_tickers (discover_tickers demo_listings))
  /\ exists tsxv,
       Dict.get (Discovery.exchanges (discover_tickers demo_listings)) "TSXV" = Some tsxv
       /\ ExchangeEntry.error tsxv = Some "timeout".
Proof.
  destruct (discover_counts_add_up demo_listings)
    as [tsx [tsxv [cse [He [_ [_ [_ [E [_ [_ [_ [_ [H _]]]]]]]]]]]]].
  split; [exact H|]. exists tsxv. split; [rewrite He; reflexivity|].
  apply E. reflexivity.
Defined.

(** ** The discovered tickers *)

Lemma discover_entities (w : listings) :
  Forall (fun t =>
            Entity.symbol t <> ""
            /\ strip (Entity.symbol t) = Entity.symbol t
            /\ ((Entity.exchange t = "TSX"
                 /\ Entity.yfinance_ticker t = (Entity.symbol t ++ ".TO")%string
                 /\ In (Entity.symbol t) (map strip (listed_tsx w "tsx"))
                 /\ contains ".P" (Entity.symbol t) = false)
                \/ (Entity.exchange t = "TSXV"
                    /\ Entity.yfinance_ticker t = (Entity.symbol t ++ ".V")%string
                    /\ In (Entity.symbol t) (map strip (listed_tsx w "tsxv"))
                    /\ contains ".P" (Entity.symbol t) = false)
                \/ (Entity.exchange t = "CSE"
                    /\ Entity.yfinance_ticker t = (Entity.symbol t ++ ".CN")%string
                    /\ In (Entity.symbol t) (map strip (listed_cse w)))))
         (Discovery.all_tickers (discover_tickers w)).
Proof.
  rewrite discover_all_tickers. repeat (apply Forall_app; split);
    (eapply Forall_impl; [|apply exchange_tickers_spec]); cbv beta;
    intros t [H1 [H2 [H3 [H4 [H5 H6]]]]]; (split; [exact H1|]); (split; [exact H2|]).
  - left. auto.
  - right. left. auto.
  - right. right. auto.
Qed.

Lemma entity_exchange_of_ticker (w : listings) :
  Forall (fun t => compute_exchange (Entity.yfinance_ticker t) = Entity.exchange t)
         (Discovery.all_tickers (discover_tickers w)).
Proof.
  eapply Forall_impl; [|apply discover_entities]. cbv beta.
  intros t [_ [_ [[-> [-> _]]|[[-> [-> _]]|[-> [-> _]]]]]];
    apply compute_exchange_suffix.
Qed.

(** X20. Every ticker of the discovery document has a symbol that is
    not empty and has no blank around it, comes from the listing of its
    exchange, and a provider ticker that is the symbol followed by .TO,
    .V or .CN, from which [compute_exchange] of the fetch script gives
    back the exchange.  A symbol with .P is never there for TSX and TSXV. *)
Theorem discovered_tickers_well_formed (w : listings) :
  Forall (fun t =>
            Entity.symbol t <> ""
            /\ strip (Entity.symbol t) = Entity.symbol t
            /\ compute_exchange (Entity.yfinance_ticker t) = Entity.exchange t
            /\ ((Entity.exchange t = "TSX"
                 /\ Entity.yfinance_ticker t = (Entity.symbol t ++ ".TO")%string
                 /\ In (Entity.symbol t) (map strip (listed_tsx w "tsx"))
                 /\ contains ".P" (Entity.symbol t) = false)
                \/ (Entity.exchange t = "TSXV"
                    /\ Entity.yfinance_ticker t = (Entity.symbol t ++ ".V")%string
                    /\ In (Entity.symbol t) (map strip (listed_tsx w "tsxv"))
                    /\ contains ".P" (Entity.symbol t) = false)
                \/ (Entity.exchange t = "CSE"
                    /\ Entity.yfinance_ticker t = (Entity.symbol t ++ ".CN")%string
                    /\ In (Entity.symbol t) (map strip (listed_cse w)))))
         (Discovery.all_tickers (discover_tickers w)).
Proof.
  pose proof (discover_entities w) as H1. pose proof (entity_exchange_of_ticker w) as H2.
  rewrite Forall_forall in *. intros t Ht.
  specialize (H1 t Ht). specialize (H2 t Ht). cbv beta in *. tauto.
Qed.

(** X21. A listed symbol that is not blank is kept, stripped, with the
    suffix of its exchange, for TSX and TSXV when it has no .P in it.  The
    CSE loop has no such test: a capital pool symbol of the CSE listing is
    kept. *)
Theorem discover_keeps_listed (w : listings) (sym : string) :
  strip sym <> "" ->
  (In sym (listed_tsx w "tsx") -> contains ".P" (strip sym) = false ->
   In (Entity.mk (strip sym ++ ".TO") (strip sym) "TSX")
      (Discovery.all_tickers (discover_tickers w)))
  /\ (In sym (listed_tsx w "tsxv") -> contains ".P" (strip sym) = false ->
      In (Entity.mk (strip sym ++ ".V") (strip sym) "TSXV")
         (Discovery.all_tickers (discover_tickers w)))
  /\ (In sym (listed_cse w) ->
      In (Entity.mk (strip sym ++ ".CN") (strip sym) "CSE")
         (Discovery.all_tickers (discover_tickers w))).
Proof.
  intros Hne. rewrite discover_all_tickers. repeat split; intros Hin.
  - intros Hp. apply in_or_app. left. now apply exchange_tickers_keeps.
  - intros Hp. apply in_or_app. right. apply in_or_app. left.
    now apply exchange_tickers_keeps.
  - apply in_or_app. right. apply in_or_app. right.
    apply exchange_tickers_keeps; auto. discriminate.
Qed.

Lemma discover_keeps_listed_witness :
  In (Entity.mk "Q.P.CN" "Q.P" "CSE") (Discovery.all_tickers (discover_tickers demo_listings))
  /\ In (Entity.mk "A.TO" "A" "TSX") (Discovery.all_tickers (discover_tickers demo_listings)).
Proof.
  split.
  - apply (discover_keeps_listed demo_listings "Q.P"); [discriminate|].
    right. now left.
  - apply (discover_keeps_listed demo_listings " A "); [discriminate | now left | reflexivity].
Defined.

(** ** From discovery to the fetch run *)

Lemma merge_tickers_get_source all_tickers : forall tickers k ticker_info,
  Dict.get (merge_tickers tickers all_tickers) k = Some ticker_info ->
  Dict.get tickers k = Some ticker_info
  \/ exists t, In t all_tickers /\ Entity.yfinance_ticker t = k
               /\ ticker_info = pending_info t.
Proof.
  induction all_tickers as [|t r IH]; intros tickers k ti H; [now left|].
  rewrite merge_tickers_cons in H. destruct (IH _ _ _ H) as [Hg|[t' [Hin [Hk Hti]]]].
  - unfold merge_step in Hg.
    destruct (Dict.mem tickers (Entity.yfinance_ticker t)); [now left|].
    destruct (String.eqb_spec (Entity.yfinance_ticker t) k) as [<-|Hne].
    + rewrite DictFacts.get_set_same in Hg. injection Hg as <-.
      right. exists t. split; [now left | auto].
    + rewrite DictFacts.get_set_other in Hg by exact Hne. now left.
  - right. exists t'. split; [now right | auto].
Qed.

Lemma append_inv_tail : forall s p u : string,
  (s ++ u)%string = (p ++ u)%string -> s = p.
Proof.
  induction s as [|c r IH]; intros [|c' r'] u H; simpl in H.
  - reflexivity.
  - apply (f_equal String.length) in H. simpl in H. rewrite length_append in H. lia.
  - apply (f_equal String.length) in H. simpl in H. rewrite length_append in H. lia.
  - injection H as -> H. f_equal. eapply IH. exact H.
Qed.

Lemma before_dot_app_dot (s rest : string) :
  before_dot (s ++ "." ++ rest) = before_dot s.
Proof.
  induction s as [|c r IH]; [reflexivity|].
  simpl. destruct (Ascii.eqb c "."); [reflexivity|]. f_equal. exact IH.
Qed.

(** Two tickers of a discovery document with the same provider ticker
    have the same symbol and the same exchange. *)
Lemma discover_entity_unique (w : listings) (t t' : Entity.t) :
  In t (Discovery.all_tickers (discover_tickers w)) ->
  In t' (Discovery.all_tickers (discover_tickers w)) ->
  Entity.yfinance_ticker t' = Entity.yfinance_ticker t ->
  Entity.symbol t' = Entity.symbol t /\ Entity.exchange t' = Entity.exchange t.
Proof.
  intros Ht Ht' Hyf.
  pose proof (entity_exchange_of_ticker w) as Hx. pose proof (discover_entities w) as He.
  rewrite Forall_forall in Hx, He.
  pose proof (Hx t Ht) as X. pose proof (Hx t' Ht') as X'. cbv beta in X, X'.
  assert (Hex : Entity.exchange t' = Entity.exchange t) by congruence.
  split; [|exact Hex].
  destruct (He t Ht) as [_ [_ [[E [Y _]]|[[E [Y _]]|[E [Y _]]]]]];
    destruct (He t' Ht') as [_ [_ [[E' [Y' _]]|[[E' [Y' _]]|[E' [Y' _]]]]]];
    rewrite E, E' in Hex; try discriminate Hex;
    rewrite Y, Y' in Hyf; eapply append_inv_tail; exact Hyf.
Qed.

(** X22. Discovery followed by a fetch run on a disk without a status
    file: every discovered ticker ends with a record in the status
    document that is completed, skipped or failed, carries the symbol and
    the exchange discovery gave it, and whose exchange is the one
    [compute_exchange] reads from its key.  When the record is completed
    its VETTR ticker is the symbol up to its first dot, and the output
    file of the ticker is on the disk, written to its end. *)
Theorem discovered_tickers_settled (w : listings) (e : env) (d : disk) (t : Entity.t) :
  STATUS_FILE d = None ->
  In t (Discovery.all_tickers (discover_tickers w)) ->
  let d' := disk_after_main (env_of_discovery w e) d in
  exists doc ticker_info,
    durable_status d' = Some doc
    /\ Dict.get (Status.tickers doc) (Entity.yfinance_ticker t) = Some ticker_info
    /\ terminalb (TickerInfo.status ticker_info) = true
    /\ TickerInfo.symbol ticker_info = Entity.symbol t
    /\ TickerInfo.exchange ticker_info = Entity.exchange t
    /\ compute_exchange (Entity.yfinance_ticker t) = TickerInfo.exchange ticker_info
    /\ (TickerInfo.status ticker_info = "completed" ->
        TickerInfo.vettr_ticker ticker_info = Some (before_dot (Entity.symbol t))
        /\ output_present d' (Entity.yfinance_ticker t) = true).
Proof.
  intros Hd Ht d'.
  set (e' := env_of_discovery w e) in *.
  set (cat := Discovery.all_tickers (discover_tickers w)) in *.
  set (k := Entity.yfinance_ticker t).
  assert (Hcat : TICKERS_FILE e' = Some cat) by reflexivity.
  assert (Hload : load_status e' d = ret (fresh_status (clock_start e')))
    by (unfold load_status; now rewrite Hd).
  assert (Hnd : NoDup (Dict.keys (Status.tickers (fresh_status (clock_start e')))))
    by constructor.
  destruct (main_outcome_spec e' d cat _ Hcat Hload Hnd)
    as [tr [doc [Hmain [Hfile Hall]]]].
  cbn [Status.tickers fresh_status] in Hall.
  destruct (merge_tickers_extends cat Dict.empty) as [added [E Hp]].
  pose proof (merge_tickers_covers cat Dict.empty) as Hcov.
  rewrite Forall_forall in Hcov. specialize (Hcov t Ht). cbv beta in Hcov.
  assert (Hpend : pending_tickers (merge_tickers Dict.empty cat)
                  = Dict.keys (merge_tickers Dict.empty cat)).
  { rewrite E. simpl. now apply pending_tickers_all. }
  rewrite Hpend in Hall.
  destruct (Hall k (proj1 (DictFacts.mem_In_keys _ _) Hcov)) as [ti0 [Hg0 [Hg Hout]]].
  destruct (merge_tickers_get_source _ _ _ _ Hg0) as [Hno|[t' [Ht' [Hk ->]]]];
    [discriminate Hno|].
  destruct (discover_entity_unique w t t' Ht Ht' Hk) as [Hsym Hex].
  pose proof (entity_exchange_of_ticker w) as Hx. rewrite Forall_forall in Hx.
  specialize (Hx t Ht). cbv beta in Hx. fold k in Hx.
  set (ti := pending_info t') in *.
  pose proof (handle_result_record e' k ti (provider e' k) (clock_fetch e' k)
                (TickerInfo.symbol ti) (TickerInfo.exchange ti)) as Hr.
  pose proof (handle_result_spec e' k ti
                (fetch_ticker_data (provider e' k) (clock_fetch e' k) k
                   (TickerInfo.symbol ti) (TickerInfo.exchange ti))) as Hs.
  cbv zeta in Hr, Hs. fold (outcome e' k ti) in Hr, Hs.
  destruct Hr as [Rsym [Rex Rcase]]. destruct Hs as [Sterm Swrites].
  exists doc, (fst (outcome e' k ti)).
  assert (Ed' : d' = replay tr d)
    by (unfold d', disk_after_main; now rewrite Hmain).
  rewrite Ed'.
  split; [now apply durable_whole|]. split; [exact Hg|]. split; [exact Sterm|].
  split; [rewrite Rsym; exact Hsym|]. split; [rewrite Rex; exact Hex|].
  split; [rewrite Rex, Hx; symmetry; exact Hex|].
  intros Hc. split.
  - destruct Rcase as [[_ [_ [data [Hf [_ Hv]]]]]|[[Hs'|Hs'] _]];
      [|rewrite Hc in Hs'; discriminate Hs' ..].
    rewrite Hv. destruct (fetch_completed_fields _ _ _ _ _ _ Hf)
      as [info [_ [_ [_ [_ [_ [_ [_ [Hvt _]]]]]]]]].
    rewrite Hvt. f_equal. unfold k.
    pose proof (discover_entities w) as He. rewrite Forall_forall in He.
    destruct (He t Ht) as [_ [_ [[_ [Y _]]|[[_ [Y _]]|[_ [Y _]]]]]]; rewrite Y;
      apply (before_dot_app_dot (Entity.symbol t)).
  - destruct Swrites as [[_ Hn]|[data [Hw _]]]; [contradiction|].
    unfold output_present. rewrite Hout, Hw. reflexivity.
Qed.

Lemma discovered_tickers_settled_witness :
  exists doc ticker_info,
    durable_status (disk_after_main (env_of_discovery demo_listings demo_env) empty_disk)
    = Some doc
    /\ Dict.get (Status.tickers doc) "A.TO" = Some ticker_info
    /\ TickerInfo.symbol ticker_info = "A"
    /\ TickerInfo.exchange ticker_info = "TSX".
Proof.
  destruct (discovered_tickers_settled demo_listings demo_env empty_disk
              (Entity.mk "A.TO" "A" "TSX") eq_refl)
    as [doc [ti [H1 [H2 [_ [H3 [H4 _]]]]]]].
  - now left.
  - exists doc, ti. auto.
Defined.

(** * The parser of the extra listing *)

(** ** Blanks and words *)

Lemma all_chars_app p (s t : string) :
  all_chars p (s ++ t) = all_chars p s && all_chars p t.
Proof.
  induction s as [|c r IH]; [reflexivity|]. simpl. now rewrite IH, Bool.andb_assoc.
Qed.

Lemma rstrip_spaces (u : string) : all_chars is_space u = true -> rstrip u = "".
Proof.
  induction u as [|c r IH]; [reflexivity|]. simpl. intros H.
  apply Bool.andb_true_iff in H. destruct H as [Hc Hr]. now rewrite (IH Hr), Hc.
Qed.

Lemma rstrip_nonempty (s : string) (c : ascii) :
  is_space c = false -> rstrip (s ++ String c "") = (s ++ String c "")%string.
Proof.
  intros Hc. induction s as [|a r IH].
  - simpl. now rewrite Hc.
  - change (rstrip (String a r ++ String c ""))
      with (match rstrip (r ++ String c "") with
            | "" => if is_space a then "" else String a ""
            | r' => String a r'
            end).
    rewrite IH. destruct r; reflexivity.
Qed.

Lemma rstrip_app_spaces (x u : string) :
  all_chars is_space u = true -> rstrip (x ++ u) = rstrip x.
Proof.
  intros Hu. induction x as [|a r IH].
  - simpl. now apply rstrip_spaces.
  - change (rstrip (String a r ++ u))
      with (match rstrip (r ++ u) with
            | "" => if is_space a then "" else String a ""
            | r' => String a r'
            end).
    now rewrite IH.
Qed.

(** A text is its last character and what is before, or empty. *)
Lemma string_last_cases (s : string) :
  s = "" \/ exists r c, s = (r ++ String c "")%string.
Proof.
  induction s as [|a r IH]; [now left|]. right.
  destruct IH as [->|[r' [c ->]]].
  - exists "", a. reflexivity.
  - exists (String a r'), c. reflexivity.
Qed.

Lemma all_chars_last p (r : string) (c : ascii) :
  all_chars p (r ++ String c "") = true -> p c = true.
Proof.
  rewrite all_chars_app. simpl. rewrite Bool.andb_true_r.
  intros H. apply Bool.andb_true_iff in H. tauto.
Qed.

Lemma rstrip_word (w : string) : all_chars not_space w = true -> rstrip w = w.
Proof.
  intros H. destruct (string_last_cases w) as [->|[r [c ->]]]; [reflexivity|].
  apply rstrip_nonempty. apply all_chars_last in H. unfold not_space in H.
  now destruct (is_space c).
Qed.

Lemma strip_word (w : string) : all_chars not_space w = true -> strip w = w.
Proof.
  intros H. unfold strip. destruct w as [|c r]; [reflexivity|].
  pose proof H as H0. simpl in H0. apply Bool.andb_true_iff in H0. destruct H0 as [Hc _].
  unfold not_space in Hc. apply Bool.negb_true_iff in Hc.
  rewrite (lstrip_fixed _ _ Hc). now apply rstrip_word.
Qed.

Lemma chomp_newline : forall s s', chomp s = Some s' ->
  s = (s' ++ String (ascii_of_nat 10) "")%string.
Proof.
  induction s as [|c r IH]; intros s' H; [discriminate|].
  destruct r as [|a b].
  - simpl in H. destruct (Ascii.eqb_spec c (ascii_of_nat 10)) as [->|]; [|discriminate].
    injection H as <-. reflexivity.
  - change (chomp (String c (String a b)))
      with (match chomp (String a b) with
            | Some r' => Some (String c r')
            | None => None
            end) in H.
    destruct (chomp (String a b)) as [r'|] eqn:E; [|discriminate].
    injection H as <-. rewrite (IH r' eq_refl). reflexivity.
Qed.

Lemma chomp_last (r : string) (c : ascii) :
  is_space c = false -> chomp (r ++ String c "") = None.
Proof.
  intros Hc. destruct (chomp _) as [s'|] eqn:E; [|reflexivity].
  apply chomp_newline in E. apply append_last_inj in E. subst c. discriminate Hc.
Qed.

(** ** Words *)

Lemma split_words_only (s : string) : forall w,
  split_words s = (w, []) ->
  all_chars not_space w = true
  /\ exists t, s = (w ++ t)%string /\ all_chars is_space t = true.
Proof.
  induction s as [|c r IH]; intros w H.
  - injection H as <-. split; [reflexivity|]. exists "". auto.
  - simpl in H. destruct (split_words r) as [w' ws'].
    destruct (is_space c) eqn:Ec.
    + injection H as <- H.
      destruct (String.eqb_spec w' "") as [->|Hne]; [|discriminate]. subst ws'.
      destruct (IH "" eq_refl) as [_ [t [-> Ht]]].
      split; [reflexivity|]. exists (String c t). simpl. now rewrite Ec, Ht.
    + injection H as <- ->. destruct (IH w' eq_refl) as [Hw [t [-> Ht]]].
      split; [simpl; unfold not_space at 1; now rewrite Ec, Hw|].
      exists t. auto.
Qed.

Lemma py_split_cons (c : ascii) (r : string) :
  py_split (String c r)
  = if is_space c then py_split r
    else String c (fst (split_words r)) :: snd (split_words r).
Proof.
  unfold py_split. simpl. destruct (split_words r) as [w ws].
  destruct (is_space c); reflexivity.
Qed.

(** The last word of a text is followed by blanks only. *)
Lemma py_split_last (s : string) :
  py_split s <> [] ->
  let w := last (py_split s) "" in
  w <> "" /\ all_chars not_space w = true
  /\ exists p u, s = (p ++ w ++ u)%string /\ all_chars is_space u = true.
Proof.
  induction s as [|c r IH]; [intros H; now contradiction H|].
  rewrite py_split_cons. destruct (is_space c) eqn:Ec.
  - intros H. destruct (IH H) as [H1 [H2 [p [u [E Hu]]]]]. cbv zeta.
    split; [exact H1|]. split; [exact H2|].
    exists (String c p), u. split; [simpl; now rewrite <- E | exact Hu].
  - intros _. cbv zeta. destruct (split_words r) as [w ws] eqn:Es. cbn [fst snd].
    destruct ws as [|x ws'].
    + destruct (split_words_only r w Es) as [Hw [t [-> Ht]]].
      cbn [last]. split; [discriminate|].
      split; [simpl; unfold not_space at 1; now rewrite Ec, Hw|].
      exists "", t. auto.
    + assert (Hne : py_split r <> [])
        by (unfold py_split; rewrite Es; destruct (String.eqb w ""); discriminate).
      assert (El : last (String c w :: x :: ws') "" = last (py_split r) "").
      { unfold py_split. rewrite Es. destruct (String.eqb w ""); reflexivity. }
      rewrite El. destruct (IH Hne) as [H1 [H2 [p [u [E Hu]]]]].
      split; [exact H1|]. split; [exact H2|].
      exists (String c p), u. split; [simpl; now rewrite <- E | exact Hu].
Qed.

(** ** The pattern *)

Lemma plain_tail_ticker : forall n s, plain_tail n s = true -> ticker_tail n s = true.
Proof.
  induction n as [|n IH]; intros [|c r] H; try reflexivity; simpl in H; [discriminate|].
  apply Bool.andb_true_iff in H. destruct H as [Hc Hr].
  cbn [ticker_tail]. now rewrite Hc, (IH _ Hr).
Qed.

Lemma is_plain_is_ticker (s : string) : is_plain_ticker s = true -> is_ticker s = true.
Proof.
  destruct s as [|c r]; [discriminate|]. unfold is_plain_ticker, is_ticker. intros H.
  apply Bool.andb_true_iff in H. destruct H as [Hc Hr].
  now rewrite Hc, (plain_tail_ticker _ _ Hr).
Qed.

Lemma search_ticker_unfold (s : string) :
  search_ticker s
  = match match_to_end is_ticker s with
    | Some ticker => Some ticker
    | None => match s with
              | "" => None
              | String _ r => search_ticker r
              end
    end.
Proof. destruct s; reflexivity. Qed.

(** A match at a later start is found unless an earlier one is. *)
Lemma search_ticker_suffix (u : string) : forall p,
  match_to_end is_ticker u <> None -> search_ticker (p ++ u) <> None.
Proof.
  induction p as [|c r IH]; intros H; rewrite search_ticker_unfold.
  - cbn [append]. destruct (match_to_end is_ticker u); [exact H | now contradiction H].
  - cbn [append]. destruct (match_to_end is_ticker (String c (r ++ u)));
      [discriminate | now apply IH].
Qed.

(** ** The fallback *)

Lemma fallback_unreachable (part : string) :
  search_ticker (rstrip part) = None -> ParseExtra.part_tickers part = [].
Proof.
  intros Hs. unfold ParseExtra.part_tickers. cbv zeta. rewrite Hs.
  destruct (py_split (rstrip part)) as [|w0 ws0] eqn:Ew; [reflexivity|].
  assert (Hne : py_split (rstrip part) <> []) by (rewrite Ew; discriminate).
  destruct (py_split_last _ Hne) as [Hw [Hns [p [u [E Hu]]]]]. rewrite Ew in *.
  set (w := last (w0 :: ws0) "") in *.
  rewrite (strip_word _ Hns).
  destruct (match_to_end is_plain_ticker w) as [t|] eqn:Em; [|reflexivity].
  exfalso.
  assert (Hq : rstrip part = (p ++ w)%string).
  { rewrite <- (rstrip_idempotent part), E, <- append_assoc.
    rewrite rstrip_app_spaces by exact Hu.
    destruct (string_last_cases w) as [->|[r [c Ew']]]; [now contradiction Hw|].
    rewrite Ew' in *. rewrite <- append_assoc. apply rstrip_nonempty.
    apply all_chars_last in Hns. unfold not_space in Hns. now destruct (is_space c). }
  assert (Hplain : is_plain_ticker w = true).
  { unfold match_to_end in Em. destruct (is_plain_ticker w); [reflexivity|].
    destruct (string_last_cases w) as [->|[r [c Ew']]]; [now contradiction Hw|].
    rewrite Ew' in *. rewrite chomp_last in Em; [discriminate|].
    apply all_chars_last in Hns. unfold not_space in Hns. now destruct (is_space c). }
  apply (search_ticker_suffix w p).
  - unfold match_to_end. rewrite (is_plain_is_ticker _ Hplain). discriminate.
  - rewrite <- Hq. exact Hs.
Qed.

(** X23. The fallback of the parser is never used: when the pattern
    finds no ticker at the end of a part, the last word of the part is not
    a ticker either, so the tickers of a part are decided by the pattern
    alone. *)
Theorem part_tickers_without_fallback (part : string) :
  ParseExtra.part_tickers part
  = match search_ticker (rstrip part) with
    | Some ticker =>
        if negb (endswith ticker ".P") && negb (endswith ticker ".H") then [ticker] else []
    | None => []
    end.
Proof.
  destruct (search_ticker (rstrip part)) as [ticker|] eqn:E.
  - unfold ParseExtra.part_tickers. cbv zeta. now rewrite E.
  - now apply fallback_unreachable.
Qed.

(** ** The tickers the pattern finds *)

Lemma is_upper_upper_or_digit (c : ascii) :
  is_upper c = true -> is_upper_or_digit c = true.
Proof. intros H. unfold is_upper_or_digit. now rewrite H. Qed.

Lemma ticker_char_not_space (c : ascii) :
  is_ticker_char c = true -> not_space c = true.
Proof.
  destruct c as [[] [] [] [] [] [] [] []]; vm_compute; intros H;
    first [reflexivity | discriminate H].
Qed.

Lemma ticker_tail_chars : forall n s,
  ticker_tail n s = true ->
  all_chars is_ticker_char s = true /\ (String.length s <= n + 2)%nat.
Proof.
  induction n as [|n IH]; intros [|c r] H; try (split; [reflexivity | simpl; lia]);
    cbn [ticker_tail] in H; apply Bool.orb_true_iff in H.
  - destruct H as [H|H]; [discriminate|].
    apply Bool.andb_true_iff in H. destruct H as [Hc Hr].
    destruct r as [|d [|? ?]]; try discriminate.
    apply Ascii.eqb_eq in Hc. subst c.
    split; [|simpl; lia]. cbn [all_chars]. unfold is_ticker_char.
    rewrite (is_upper_upper_or_digit _ Hr), Ascii.eqb_refl, Bool.orb_true_r. reflexivity.
  - destruct H as [H|H]; apply Bool.andb_true_iff in H; destruct H as [Hc Hr].
    + destruct (IH _ Hr) as [Ha Hl]. split; [|simpl; lia].
      cbn [all_chars]. unfold is_ticker_char at 1. now rewrite Hc, Ha.
    + destruct r as [|d [|? ?]]; try discriminate.
      apply Ascii.eqb_eq in Hc. subst c.
      split; [|simpl; lia]. cbn [all_chars]. unfold is_ticker_char.
      rewrite (is_upper_upper_or_digit _ Hr), Ascii.eqb_refl, Bool.orb_true_r. reflexivity.
Qed.

Lemma is_ticker_chars (t : string) :
  is_ticker t = true ->
  all_chars is_ticker_char t = true /\ (1 <= String.length t <= 8)%nat.
Proof.
  destruct t as [|c r]; [discriminate|]. unfold is_ticker. intros H.
  apply Bool.andb_true_iff in H. destruct H as [Hc Hr].
  destruct (ticker_tail_chars _ _ Hr) as [Ha Hl].
  split; [|simpl; lia]. cbn [all_chars]. unfold is_ticker_char at 1.
  now rewrite (is_upper_upper_or_digit _ Hc), Ha.
Qed.

Lemma all_chars_impl (p q : ascii -> bool) (s : string) :
  (forall c, p c = true -> q c = true) -> all_chars p s = true -> all_chars q s = true.
Proof.
  intros Hpq. induction s as [|c r IH]; [reflexivity|]. simpl. intros H.
  apply Bool.andb_true_iff in H. destruct H as [Hc Hr]. now rewrite (Hpq _ Hc), IH.
Qed.

Lemma is_ticker_not_space (t : string) :
  is_ticker t = true -> all_chars not_space t = true.
Proof.
  intros H. apply (all_chars_impl is_ticker_char); [apply ticker_char_not_space|].
  now apply is_ticker_chars.
Qed.

Lemma match_to_end_ticker (s t : string) :
  match_to_end is_ticker s = Some t -> is_ticker t = true.
Proof.
  unfold match_to_end. destruct (is_ticker s) eqn:E.
  - intros H. injection H as <-. exact E.
  - destruct (chomp s) as [s'|]; [|discriminate].
    destruct (is_ticker s') eqn:E'; [|discriminate]. intros H. injection H as <-. exact E'.
Qed.

Lemma search_ticker_sound : forall s t, search_ticker s = Some t -> is_ticker t = true.
Proof.
  induction s as [|c r IH]; intros t H; rewrite search_ticker_unfold in H.
  - destruct (match_to_end is_ticker "") eqn:E; [|discriminate].
    injection H as <-. now apply match_to_end_ticker in E.
  - destruct (match_to_end is_ticker (String c r)) eqn:E.
    + injection H as <-. now apply match_to_end_ticker in E.
    + now apply IH.
Qed.

Lemma Forall_flat_map {A B : Type} (P : B -> Prop) (f : A -> list B) (l : list A) :
  (forall x, Forall P (f x)) -> Forall P (flat_map f l).
Proof.
  intros H. induction l as [|x r IH]; simpl; [constructor|].
  apply Forall_app. auto.
Qed.

Lemma part_tickers_shape (part : string) :
  Forall (fun t => is_ticker t = true
                   /\ endswith t ".P" = false /\ endswith t ".H" = false)
         (ParseExtra.part_tickers part)
  /\ (List.length (ParseExtra.part_tickers part) <= 1)%nat.
Proof.
  destruct (search_ticker (rstrip part)) as [ticker|] eqn:E.
  - unfold ParseExtra.part_tickers. cbv zeta. rewrite E.
    destruct (endswith ticker ".P") eqn:EP, (endswith ticker ".H") eqn:EH; simpl;
      (split; [|lia]); constructor; [|constructor].
    split; [now apply search_ticker_sound in E | auto].
  - rewrite (fallback_unreachable _ E). split; [constructor | simpl; lia].
Qed.

Lemma flat_map_length_le {A B : Type} (f : A -> list B) (l : list A) :
  (forall x, (List.length (f x) <= 1)%nat) ->
  (List.length (flat_map f l) <= List.length l)%nat.
Proof.
  intros H. induction l as [|x r IH]; simpl; [lia|].
  rewrite length_app. specialize (H x). lia.
Qed.

(** X24. Every ticker the parser extracts is an uppercase letter, up
    to five more uppercase letters or digits and possibly a dot and one
    letter: one to eight characters, none of them a blank; it never ends
    in .P or .H.  A part of the text gives at most one ticker. *)
Theorem extracted_tickers_shape (raw_text : string) :
  Forall (fun t => is_ticker t = true
                   /\ all_chars is_ticker_char t = true
                   /\ (1 <= String.length t <= 8)%nat
                   /\ endswith t ".P" = false /\ endswith t ".H" = false)
         (ParseExtra.extract_tickers_from_raw raw_text)
  /\ (List.length (ParseExtra.extract_tickers_from_raw raw_text)
      <= List.length (re_split "TSXV" 0 (strip raw_text)))%nat.
Proof.
  unfold ParseExtra.extract_tickers_from_raw. cbv zeta. split.
  - apply Forall_flat_map. intros part.
    eapply Forall_impl; [|apply part_tickers_shape]. cbv beta.
    intros t [Ht [HP HH]]. destruct (is_ticker_chars _ Ht) as [Hc Hl]. auto.
  - etransitivity; [apply flat_map_length_le; intros x; apply part_tickers_shape|].
    rewrite length_map. apply filter_length_le.
Qed.

(** ** A ticker after a name *)

Lemma ticker_tail_cons (n : nat) (c : ascii) (r : string) :
  ticker_tail n (String c r)
  = (match n with
     | S n' => is_upper_or_digit c && ticker_tail n' r
     | O => false
     end
     || (Ascii.eqb c "." && match r with
                            | String d "" => is_upper d
                            | _ => false
                            end)).
Proof. destruct n; reflexivity. Qed.

Lemma ticker_tail_blocked (c : ascii) (t : string) :
  is_upper_or_digit c = false ->
  (c = "."%char -> (2 <= String.length t)%nat) ->
  forall x n, ticker_tail n (x ++ String c t) = false.
Proof.
  intros Hc Hdot.
  assert (Hup : is_upper c = false).
  { destruct (is_upper c) eqn:E; [|reflexivity].
    now rewrite (is_upper_upper_or_digit _ E) in Hc. }
  induction x as [|a x IH]; intros n; cbn [append]; rewrite ticker_tail_cons.
  - rewrite Hc.
    replace (match n with S _ => false && _ | O => false end) with false
      by (destruct n; reflexivity).
    destruct (Ascii.eqb_spec c ".") as [E|_]; [|reflexivity].
    specialize (Hdot E). destruct t as [|d [|? ?]]; simpl in Hdot; try lia; reflexivity.
  - replace (match n with
             | S n' => is_upper_or_digit a && ticker_tail n' (x ++ String c t)
             | O => false
             end) with false
      by (destruct n; [reflexivity | now rewrite IH, Bool.andb_false_r]).
    destruct (Ascii.eqb a "."); [|reflexivity].
    destruct x as [|? ?]; cbn [append]; [|destruct x; reflexivity].
    destruct t; [exact Hup | reflexivity].
Qed.

Lemma is_ticker_blocked (c : ascii) (t x : string) :
  is_upper_or_digit c = false ->
  (c = "."%char -> (2 <= String.length t)%nat) ->
  is_ticker (x ++ String c t) = false.
Proof.
  intros Hc Hdot. destruct x as [|a x]; unfold is_ticker; cbn [append].
  - destruct (is_upper c) eqn:E; [|reflexivity].
    now rewrite (is_upper_upper_or_digit _ E) in Hc.
  - now rewrite (ticker_tail_blocked c t Hc Hdot), Bool.andb_false_r.
Qed.

Lemma search_ticker_after_name (ticker : string) :
  is_ticker ticker = true ->
  forall name,
    (forall n c, name = (n ++ String c "")%string ->
                 is_upper_or_digit c = false
                 /\ (c = "."%char -> (2 <= String.length ticker)%nat)) ->
    search_ticker (name ++ ticker) = Some ticker.
Proof.
  intros Ht.
  destruct (string_last_cases ticker) as [->|[tr [tc Et]]]; [discriminate|].
  assert (Htc : is_space tc = false).
  { pose proof (is_ticker_not_space _ Ht) as Hn. rewrite Et in Hn.
    apply all_chars_last in Hn. unfold not_space in Hn. now destruct (is_space tc). }
  induction name as [|a r IH]; intros Hname; rewrite search_ticker_unfold.
  - cbn [append]. unfold match_to_end. now rewrite Ht.
  - assert (Hnone : match_to_end is_ticker (String a r ++ ticker) = None).
    { destruct (string_last_cases (String a r)) as [E|[n [c E]]]; [discriminate|].
      destruct (Hname n c E) as [Hc Hdot]. rewrite E.
      unfold match_to_end. rewrite append_assoc. cbn [append].
      rewrite (is_ticker_blocked c ticker n Hc Hdot).
      rewrite Et at 1.
      replace (n ++ String c (tr ++ String tc ""))%string
        with ((n ++ String c tr) ++ String tc "")%string
        by (rewrite append_assoc; reflexivity).
      now rewrite chomp_last. }
    rewrite Hnone. cbn [append]. apply IH.
    intros n c E. apply (Hname (String a n) c). now rewrite E.
Qed.

(** X25. A part made of a name and a ticker gives back the ticker when
    the ticker has the shape of one, does not end in .P or .H, and the
    name ends in a character that is not an uppercase letter or a digit
    (a lowercase letter, a blank, a bracket), or in a dot when the ticker
    has two characters or more. *)
Theorem part_tickers_after_name (name ticker : string) :
  is_ticker ticker = true ->
  endswith ticker ".P" = false ->
  endswith ticker ".H" = false ->
  (forall n c, name = (n ++ String c "")%string ->
               is_upper_or_digit c = false
               /\ (c = "."%char -> (2 <= String.length ticker)%nat)) ->
  ParseExtra.part_tickers (name ++ ticker) = [ticker].
Proof.
  intros Ht HP HH Hname. unfold ParseExtra.part_tickers. cbv zeta.
  assert (Hr : rstrip (name ++ ticker) = (name ++ ticker)%string).
  { destruct (string_last_cases ticker) as [E|[tr [tc E]]]; [now rewrite E in Ht|].
    pose proof (is_ticker_not_space _ Ht) as Hn. rewrite E in Hn |- *.
    apply all_chars_last in Hn. unfold not_space in Hn.
    rewrite <- append_assoc. apply rstrip_nonempty. now destruct (is_space tc). }
  rewrite Hr, (search_ticker_after_name ticker Ht name Hname), HP, HH. reflexivity.
Qed.

Lemma part_tickers_after_name_witness :
  ParseExtra.part_tickers "01 Quantum Inc.ONE" = ["ONE"].
Proof.
  apply (part_tickers_after_name "01 Quantum Inc." "ONE"); try reflexivity.
  intros n c E.
  assert (Hc : c = "."%char).
  { change "01 Quantum Inc." with ("01 Quantum Inc" ++ String "." "")%string in E.
    symmetry. eapply append_last_inj. exact E. }
  subst c. split; [reflexivity | intros _; simpl; lia].
Defined.

(** ** The new tickers *)

Lemma ascii_compare_refl (a : ascii) : Ascii.compare a a = Eq.
Proof. unfold Ascii.compare. apply N.compare_refl. Qed.

Lemma string_compare_refl (s : string) : String.compare s s = Eq.
Proof.
  induction s as [|c r IH]; [reflexivity|]. simpl. now rewrite ascii_compare_refl.
Qed.

Lemma string_compare_lt_trans : forall s1 s2 s3 : string,
  String.compare s1 s2 = Lt -> String.compare s2 s3 = Lt -> String.compare s1 s3 = Lt.
Proof.
  induction s1 as [|a r1 IH]; intros [|b r2] [|c r3] H1 H2; simpl in *;
    try discriminate; try reflexivity.
  destruct (Ascii.compare a b) eqn:E1; try discriminate;
    destruct (Ascii.compare b c) eqn:E2; try discriminate.
  - apply Ascii.compare_eq_iff in E1, E2. subst. rewrite ascii_compare_refl.
    eapply IH; eassumption.
  - apply Ascii.compare_eq_iff in E1. subst. now rewrite E2.
  - apply Ascii.compare_eq_iff in E2. subst. now rewrite E1.
  - unfold Ascii.compare in *. rewrite N.compare_lt_iff in *.
    assert (H : (N_of_ascii a < N_of_ascii c)%N) by (eapply N.lt_trans; eassumption).
    apply N.compare_lt_iff in H. now rewrite H.
Qed.

Lemma increasing_cons_iff : forall (l : list string) (x : string),
  increasing (x :: l) = true
  <-> Forall (fun y => String.compare x y = Lt) l /\ increasing l = true.
Proof.
  induction l as [|y r IH]; intros x.
  - simpl. split; [intros _; split; [constructor | reflexivity] | reflexivity].
  - change (increasing (x :: y :: r)) with (String.ltb x y && increasing (y :: r)).
    rewrite Bool.andb_true_iff. unfold String.ltb. split.
    + intros [Hxy Hr]. destruct (String.compare x y) eqn:E; try discriminate.
      split; [|exact Hr]. constructor; [exact E|].
      apply IH in Hr. destruct Hr as [Hall _].
      eapply Forall_impl; [|exact Hall]. cbv beta. intros z Hz.
      eapply string_compare_lt_trans; eassumption.
    + intros [Hall Hr]. inversion Hall; subst. split; [|exact Hr].
      now match goal with H : String.compare x y = Lt |- _ => rewrite H end.
Qed.

Lemma In_insert_sorted (x y : string) (l : list string) :
  In x (ParseExtra.insert_sorted y l) <-> x = y \/ In x l.
Proof.
  induction l as [|z r IH]; simpl; [intuition congruence|].
  destruct (String.compare y z) eqn:E; simpl.
  - apply String.compare_eq_iff in E. subst. intuition congruence.
  - intuition congruence.
  - rewrite IH. intuition congruence.
Qed.

Lemma In_sorted_set (x : string) (l : list string) :
  In x (ParseExtra.sorted_set l) <-> In x l.
Proof.
  unfold ParseExtra.sorted_set. induction l as [|y r IH]; simpl; [tauto|].
  rewrite In_insert_sorted, IH. intuition congruence.
Qed.

Lemma increasing_insert (x : string) : forall l,
  increasing l = true -> increasing (ParseExtra.insert_sorted x l) = true.
Proof.
  induction l as [|y r IH]; intros H; [reflexivity|].
  cbn [ParseExtra.insert_sorted]. destruct (String.compare x y) eqn:E.
  - exact H.
  - change (increasing (x :: y :: r)) with (String.ltb x y && increasing (y :: r)).
    unfold String.ltb. now rewrite E, H.
  - apply increasing_cons_iff in H. destruct H as [Hall Hr].
    apply increasing_cons_iff. split; [|now apply IH].
    apply Forall_forall. intros z Hz. apply In_insert_sorted in Hz.
    destruct Hz as [->|Hz].
    + rewrite String.compare_antisym, E. reflexivity.
    + rewrite Forall_forall in Hall. now apply Hall.
Qed.

Lemma increasing_sorted_set (l : list string) :
  increasing (ParseExtra.sorted_set l) = true.
Proof.
  unfold ParseExtra.sorted_set. induction l as [|x r IH]; [reflexivity|].
  simpl. now apply increasing_insert.
Qed.

Lemma increasing_filter (f : string -> bool) : forall l,
  increasing l = true -> increasing (filter f l) = true.
Proof.
  induction l as [|x r IH]; intros H; [reflexivity|].
  apply increasing_cons_iff in H. destruct H as [Hall Hr]. simpl.
  destruct (f x); [|now apply IH].
  apply increasing_cons_iff. split; [|now apply IH].
  apply Forall_forall. intros z Hz. apply filter_In in Hz.
  rewrite Forall_forall in Hall. now apply Hall.
Qed.

Lemma increasing_NoDup : forall l, increasing l = true -> NoDup l.
Proof.
  induction l as [|x r IH]; intros H; [constructor|].
  apply increasing_cons_iff in H. destruct H as [Hall Hr].
  constructor; [|now apply IH]. intros Hin.
  rewrite Forall_forall in Hall. specialize (Hall x Hin).
  rewrite string_compare_refl in Hall. discriminate.
Qed.

Lemma main_symbols raw_text status raw_data :
  map Entity.symbol (ParseExtra.main raw_text status raw_data)
  = filter (fun symbol =>
              negb (Dict.memb (symbol ++ ".V")
                      (ParseExtra.load_existing_tickers status raw_data)))
           (ParseExtra.sorted_set (ParseExtra.extract_tickers_from_raw raw_text)).
Proof.
  unfold ParseExtra.main. cbv zeta.
  induction (ParseExtra.sorted_set _) as [|x r IH]; [reflexivity|].
  simpl. destruct (Dict.memb _ _); simpl; now rewrite IH.
Qed.

Lemma main_entities raw_text status raw_data :
  ParseExtra.main raw_text status raw_data
  = map (fun symbol => Entity.mk (symbol ++ ".V") symbol "TSXV")
        (map Entity.symbol (ParseExtra.main raw_text status raw_data)).
Proof.
  unfold ParseExtra.main. cbv zeta.
  induction (ParseExtra.sorted_set _) as [|x r IH]; [reflexivity|].
  simpl. destruct (Dict.memb _ _); simpl; now rewrite <- IH.
Qed.

Lemma append_inv_head (u : string) : forall s p : string,
  (s ++ u)%string = (p ++ u)%string -> s = p.
Proof. intros s p. apply append_inv_tail. Qed.

(** X26. The new tickers the parser writes are all on TSXV, each with
    the provider ticker symbol.V, which the fetch script maps back to
    TSXV; none of them is already known, from the status or from the
    discovery file; their symbols are extracted ones, in increasing
    order without repetition; and every extracted symbol that is not
    known is among them. *)
Theorem new_tickers_spec (raw_text : string) (status : option Status.t)
    (raw_data : option raw_json) :
  let new_tickers := ParseExtra.main raw_text status raw_data in
  let existing := ParseExtra.load_existing_tickers status raw_data in
  Forall (fun t =>
            Entity.exchange t = "TSXV"
            /\ Entity.yfinance_ticker t = (Entity.symbol t ++ ".V")%string
            /\ compute_exchange (Entity.yfinance_ticker t) = "TSXV"
            /\ In (Entity.symbol t) (ParseExtra.extract_tickers_from_raw raw_text)
            /\ ~ In (Entity.yfinance_ticker t) existing)
         new_tickers
  /\ increasing (map Entity.symbol new_tickers) = true
  /\ NoDup (map Entity.yfinance_ticker new_tickers)
  /\ (forall symbol,
        In symbol (ParseExtra.extract_tickers_from_raw raw_text) ->
        ~ In (symbol ++ ".V")%string existing ->
        In (Entity.mk (symbol ++ ".V") symbol "TSXV") new_tickers)
  /\ (forall doc t,
        status = Some doc -> In t new_tickers ->
        Dict.mem (Status.tickers doc) (Entity.yfinance_ticker t) = false).
Proof.
  intros new_tickers existing.
  pose proof (main_symbols raw_text status raw_data) as Hsym.
  pose proof (main_entities raw_text status raw_data) as Hent.
  fold new_tickers in Hsym, Hent. fold existing in Hsym.
  assert (Hall : Forall (fun t =>
            Entity.exchange t = "TSXV"
            /\ Entity.yfinance_ticker t = (Entity.symbol t ++ ".V")%string
            /\ compute_exchange (Entity.yfinance_ticker t) = "TSXV"
            /\ In (Entity.symbol t) (ParseExtra.extract_tickers_from_raw raw_text)
            /\ ~ In (Entity.yfinance_ticker t) existing) new_tickers).
  { apply Forall_forall. intros t Ht.
    assert (Hs : In (Entity.symbol t) (map Entity.symbol new_tickers)) by now apply in_map.
    rewrite Hsym in Hs. apply filter_In in Hs. destruct Hs as [Hs Hm].
    apply (proj1 (In_sorted_set _ _)) in Hs. apply Bool.negb_true_iff in Hm.
    rewrite Hent in Ht. apply in_map_iff in Ht. destruct Ht as [s [<- _]].
    cbn [Entity.exchange Entity.yfinance_ticker Entity.symbol] in *.
    split; [reflexivity|]. split; [reflexivity|].
    split; [apply compute_exchange_suffix|]. split; [exact Hs|].
    intros Hin. apply DictFacts.memb_In in Hin. congruence. }
  split; [exact Hall|].
  assert (Hinc : increasing (map Entity.symbol new_tickers) = true).
  { rewrite Hsym. apply increasing_filter, increasing_sorted_set. }
  split; [exact Hinc|]. split; [|split].
  - rewrite Hent, map_map. cbn [Entity.yfinance_ticker].
    apply increasing_NoDup in Hinc. revert Hinc.
    generalize (map Entity.symbol new_tickers). intros l Hnd.
    induction Hnd as [|x r Hx Hr IH]; simpl; constructor; [|exact IH].
    intros Hin. apply in_map_iff in Hin. destruct Hin as [y [E Hy]].
    apply append_inv_head in E. now subst y.
  - intros symbol Hin Hnot. rewrite Hent. apply in_map_iff. exists symbol.
    split; [reflexivity|]. rewrite Hsym. apply filter_In. split.
    + now apply (proj2 (In_sorted_set _ _)).
    + apply Bool.negb_true_iff. destruct (Dict.memb _ existing) eqn:E; [|reflexivity].
      apply DictFacts.memb_In in E. contradiction.
  - intros doc t -> Ht. rewrite Forall_forall in Hall.
    destruct (Hall t Ht) as [_ [_ [_ [_ Hnot]]]].
    destruct (Dict.mem (Status.tickers doc) (Entity.yfinance_ticker t)) eqn:E;
      [|reflexivity].
    exfalso. apply Hnot. apply DictFacts.mem_In_keys in E.
    unfold existing, ParseExtra.load_existing_tickers. cbv zeta.
    destruct raw_data as [rd|]; cbn [app]; [apply in_or_app; left|]; exact E.
Qed.

Lemma new_tickers_spec_witness :
  In (Entity.mk "QQ.V" "QQ" "TSXV")
     (ParseExtra.main "TSXVFoo Inc.ZED TSXVBar Inc.ABC TSXVBar2 Inc.ABC TSXV Q QQ" None
        (Some (RawDict (Some [Some "ZED.V"; None])))).
Proof.
  destruct (new_tickers_spec "TSXVFoo Inc.ZED TSXVBar Inc.ABC TSXVBar2 Inc.ABC TSXV Q QQ"
              None (Some (RawDict (Some [Some "ZED.V"; None])))) as [_ [_ [_ [H _]]]].
  apply (H "QQ").
  - vm_compute. tauto.
  - vm_compute. intros [H0|[]]. discriminate H0.
Defined.
